(** * gpsdio: stream pipeline and schema engine

    A shallow embedding of [gpsdio/core.py] and [gpsdio/schema.py].

    Python objects are modelled as follows.
    - A [dict] is an association list in insertion order, as Python 3
      iterates it; assigning to a key that is present keeps its position.
    - An exception is a constructor of [exn]; a computation that may raise
      returns a [result].
    - Comparison follows Python 3: [==] never raises, ordering between
      values of unrelated types (and between two dicts) raises [TypeError].
    - A finite [float] is the rational number it denotes, which is all that
      equality and ordering look at; arithmetic is not modelled. *)

From Stdlib Require Import ZArith QArith ZifyNat.
From Stdlib Require OrderedTypeEx.
From stdpp Require Import base option list strings sorting.

Local Open Scope string_scope.
Local Open Scope list_scope.
Local Open Scope Z_scope.

(** ** Exceptions and results *)

Inductive exn : Type :=
| StopIteration
| IOError (msg : string)
| KeyError (key : string)
| NameError (name : string)
| TypeError (msg : string)
| ValueError (msg : string)
| AttributeError (msg : string)
| OtherException (cls msg : string)
| NonException (cls : string).

(** [isinstance(e, StopIteration)]. *)
Definition is_StopIteration (e : exn) : bool :=
  match e with StopIteration => true | _ => false end.

(** [isinstance(e, NameError)]. *)
Definition is_NameError (e : exn) : bool :=
  match e with NameError _ => true | _ => false end.

(** [isinstance(e, ValueError)]. *)
Definition is_ValueError (e : exn) : bool :=
  match e with ValueError _ => true | _ => false end.

(** [isinstance(e, Exception)]: everything but the direct subclasses of
    [BaseException], such as [KeyboardInterrupt] and [SystemExit]. *)
Definition is_Exception (e : exn) : bool :=
  match e with NonException _ => false | _ => true end.

(** [str(e)]. *)
Definition str_exn (e : exn) : string :=
  match e with
  | StopIteration => ""
  | IOError msg | NameError msg | TypeError msg | ValueError msg
  | AttributeError msg | OtherException _ msg => msg
  | KeyError key => "'" +:+ key +:+ "'"
  | NonException _ => ""
  end.

Inductive result (A : Type) : Type :=
| Ok (a : A)
| Raise (e : exn).
Arguments Ok {A} a.
Arguments Raise {A} e.

Definition bind {A B} (r : result A) (k : A → result B) : result B :=
  match r with Ok a => k a | Raise e => Raise e end.

Notation "x ←! r ; k" := (bind r (fun x => k))
  (at level 20, r at level 100, k at level 200, right associativity,
   format "x  ←!  r ;  '/' k").

Definition is_Ok {A} (r : result A) : bool :=
  match r with Ok _ => true | Raise _ => false end.

(** ** Dictionaries *)

Definition dict (K V : Type) : Type := list (K * V).

Section Dict.
Context {K V : Type} `{EqDecision K}.

(** [d.get(k)]. *)
Fixpoint dict_get (k : K) (d : dict K V) : option V :=
  match d with
  | [] => None
  | (k', v) :: d' => if bool_decide (k = k') then Some v else dict_get k d'
  end.

(** [k in d]. *)
Definition dict_contains (k : K) (d : dict K V) : bool :=
  match dict_get k d with Some _ => true | None => false end.

(** [d[k] = v]: a key that is present keeps its position, a new one goes
    last. *)
Fixpoint dict_set (k : K) (v : V) (d : dict K V) : dict K V :=
  match d with
  | [] => [(k, v)]
  | (k', v') :: d' =>
      if bool_decide (k = k') then (k, v) :: d'
      else (k', v') :: dict_set k v d'
  end.

(** [d.update(other)]. *)
Definition dict_update (d other : dict K V) : dict K V :=
  foldl (λ acc kv, dict_set kv.1 kv.2 acc) d other.

Definition dict_keys (d : dict K V) : list K := d.*1.
End Dict.

(** ** Values *)

#[warnings="-register-all"]
Inductive Value : Type :=
| VNone
| VBool (b : bool)
| VInt (n : Z)
| VFloat (q : Q)
| VStr (s : string)
| VTuple (elts : list Value)
| VDict (entries : list (string * Value))
| VObject (name : string).

(** A message: a flat mapping from field names to values. *)
Definition Message : Type := dict string Value.

(** [type(v).__name__]. *)
Definition type_name (v : Value) : string :=
  match v with
  | VNone => "NoneType"
  | VBool _ => "bool"
  | VInt _ => "int"
  | VFloat _ => "float"
  | VStr _ => "str"
  | VTuple _ => "tuple"
  | VDict _ => "dict"
  | VObject name => name
  end.

(** The number a [bool], [int] or [float] denotes. *)
Definition as_number (v : Value) : option Q :=
  match v with
  | VBool b => Some (inject_Z (Z.b2z b))
  | VInt n => Some (inject_Z n)
  | VFloat q => Some q
  | _ => None
  end.

(** [bool(v)]. *)
Definition truthy (v : Value) : bool :=
  match v with
  | VNone => false
  | VBool b => b
  | VInt n => negb (n =? 0)
  | VFloat q => negb (Qeq_bool q 0)
  | VStr s => negb (String.eqb s "")
  | VTuple elts => negb (Nat.eqb (length elts) 0)
  | VDict entries => negb (Nat.eqb (length entries) 0)
  | VObject _ => true
  end.

(** [a == b].  Numbers compare by value across [bool], [int] and [float];
    tuples elementwise; dicts by their items whatever the order; other
    objects by identity. *)
Fixpoint py_eqb (a b : Value) {struct a} : bool :=
  match a, b with
  | VNone, VNone => true
  | VStr s, VStr t => String.eqb s t
  | VObject n, VObject m => String.eqb n m
  | VTuple xs, VTuple ys =>
      (fix all2 (xs ys : list Value) {struct xs} : bool :=
         match xs, ys with
         | [], [] => true
         | x :: xs', y :: ys' => py_eqb x y && all2 xs' ys'
         | _, _ => false
         end) xs ys
  | VDict d, VDict d' =>
      Nat.eqb (length d) (length d') &&
      (fix sub (d : list (string * Value)) {struct d} : bool :=
         match d with
         | [] => true
         | (k, v) :: r =>
             match dict_get k d' with
             | Some v' => py_eqb v v'
             | None => false
             end && sub r
         end) d
  | _, _ =>
      match as_number a, as_number b with
      | Some p, Some q => Qeq_bool p q
      | _, _ => false
      end
  end.

Definition unorderable (op : string) (a b : Value) : exn :=
  TypeError ("'" +:+ op +:+ "' not supported between instances of '" +:+
             type_name a +:+ "' and '" +:+ type_name b +:+ "'").

(** The ordering behind [<], [<=], [>] and [>=] on the built-in types:
    numbers by value, strings and tuples lexicographically (a tuple is
    decided by the first pair of elements that are not [==]); everything
    else, [None] and dicts included, is unorderable. *)
Fixpoint py_order (op : string) (a b : Value) {struct a} : result comparison :=
  match a, b with
  | VStr s, VStr t => Ok (String.compare s t)
  | VTuple xs, VTuple ys =>
      (fix lex (xs ys : list Value) {struct xs} : result comparison :=
         match xs, ys with
         | [], [] => Ok Eq
         | [], _ :: _ => Ok Lt
         | _ :: _, [] => Ok Gt
         | x :: xs', y :: ys' =>
             if py_eqb x y then lex xs' ys' else py_order op x y
         end) xs ys
  | _, _ =>
      match as_number a, as_number b with
      | Some p, Some q => Ok (p ?= q)%Q
      | _, _ => Raise (unorderable op a b)
      end
  end.

(** [a < b]. *)
Definition py_lt (a b : Value) : result bool :=
  c ←! py_order "<" a b;
  Ok (match c with Lt => true | _ => false end).

(** * [gpsdio/schema.py] *)

Module schema.

(** The validators of [gpsdio.validate], as the tables construct them.
    [IntRange] and [FloatRange] take a lower bound and optionally an upper
    one; [include_max] is recorded when it is passed. *)
#[warnings="-register-all"]
Inductive Validator : Type :=
| Int
| Float
| DateTime
| IntRange (lo : Z) (hi : option Z)
| FloatRange (lo : Z) (hi : option Z) (include_max : option bool)
| IntIn (values : list Z)
| In (values : list Value)
| Instance (types : list string)
| Any (alternatives : list Validator).

(** A field definition: a dict with the keys [validate], [units],
    [description], [default] and [name], and the key [sub_name] that
    [build_schema] asks for.  A key that is absent is [None]. *)
Record FieldDef : Type := mkFieldDef {
  validate : Validator;
  units : option string;
  description : string;
  default : option Value;
  name : option string;
  sub_name : option string
}.

Definition _FIELDS : dict string FieldDef := [
  ("type",
   {| validate := Int;
      units := Some "N/A";
      description :=
        "Message type - dictates the message schema.  This value is normally 1 - 27 (with 28 - 63 reserved) but gpsdio only enforces type to allow users to define their own message types.  It is advisable to stay out of the active and reserved ranges.";
      default := None;
      name := None;
      sub_name := None |});
  ("repeat",
   {| validate := IntRange 0 (Some 3);
      units := Some "N/A";
      description :=
        "A directive to an AIS transceiver that this message should be rebroadcast.  Intended as a way of getting AIS messages around hills and other obstructions in coastal waters, but is little used as base station coverage is more effective.  It is intended that the bit be incremented on each retransmission, to a maximum of 3 hops.  A value of 3 indicates 'Do not repeat'.";
      default := Some (VInt 0);
      name := None;
      sub_name := None |});
  ("mmsi",
   {| validate := Any [Int; Instance ["NoneType"]];
      units := Some "N/A";
      description :=
        "Mobile Marine Service Identifier.  The official AIVDM spec requires MMSI values to be 9 digits, but gpsdio only enforces type to support non-AIS data sources and analysis of invalid values.";
      default := Some (VNone);
      name := None;
      sub_name := None |});
  ("status",
   {| validate := IntRange 0 (Some 15);
      units := Some "N/A";
      description :=
        "Navigation status.";
      default := Some (VInt 15);
      name := None;
      sub_name := None |});
  ("turn",
   {| validate := Instance ["int"; "float"];
      units := Some "Degrees / minute";
      description :=
        "TODO: Finish.";
      default := Some (VInt 128);
      name := None;
      sub_name := None |});
  ("speed",
   {| validate := Any [FloatRange 0 (Some 102) None; In [VFloat (Qmake 1022 1); VFloat (Qmake 1023 1)]];
      units := Some "knots";
      description :=
        "Speed over ground is in 0.1-knot resolution from 0 to 102 knots. Value 1023 indicates speed is not available, value 1022 indicates 102.2 knots or higher.";
      default := Some (VFloat (Qmake 1023 1));
      name := None;
      sub_name := None |});
  ("accuracy",
   {| validate := IntIn [0; 1];
      units := None;
      description :=
        "The position accuracy flag indicates the accuracy of the fix. A value of 1 indicates a DGPS-quality fix with an accuracy of < 10ms. 0, the default, indicates an unaugmented GNSS fix with accuracy > 10m.";
      default := Some (VInt 0);
      name := None;
      sub_name := None |});
  ("lon",
   {| validate := Float;
      units := Some "WGS84 degrees";
      description :=
        "East/West coordinate in WGS84 degrees.  Special value '181' indicates not available.  Would normally be constrained to -180/180 but some interesting tracks can appear out of bounds.";
      default := Some (VFloat (Qmake 181 1));
      name := None;
      sub_name := None |});
  ("lat",
   {| validate := Float;
      units := Some "WGS84 degrees";
      description :=
        "North/South coordinate in WGS84 degrees.  Special value '91' indicates not available.  Would normally be constrained to -90/90 but some interesting tracks can appear out of bounds.";
      default := Some (VFloat (Qmake 91 1));
      name := None;
      sub_name := None |});
  ("course",
   {| validate := Any [FloatRange 0 (Some 360) (Some false); In [VFloat (Qmake 3600 1)]];
      units := Some "degrees";
      description :=
        "Course over ground - degrees from true north to 0.1 degree precision";
      default := Some (VFloat (Qmake 3600 1));
      name := None;
      sub_name := None |});
  ("heading",
   {| validate := Any [IntRange 0 (Some 359); IntIn [511]];
      units := Some "degrees";
      description :=
        "True heading - degrees from north";
      default := Some (VInt 511);
      name := None;
      sub_name := None |});
  ("second",
   {| validate := IntRange 0 (Some 60);
      units := Some "N/A";
      description :=
        "UTC second.";
      default := Some (VInt 60);
      name := None;
      sub_name := None |});
  ("maneuver",
   {| validate := IntIn [0; 1; 2];
      units := Some "N/A";
      description :=
        "Indicates whether a special maneuver is in progress.";
      default := Some (VInt 0);
      name := None;
      sub_name := None |});
  ("raim",
   {| validate := IntIn [0; 1];
      units := Some "N/A";
      description :=
        "The RAIM flag indicates whether Receiver Autonomous Integrity Monitoring is being used to check the performance of the EPFD.";
      default := Some (VInt 0);
      name := None;
      sub_name := None |});
  ("regional",
   {| validate := Int;
      units := Some "N/A";
      description :=
        "Intended for use by local maritime authorities.";
      default := Some (VInt 0);
      name := None;
      sub_name := None |});
  ("radio",
   {| validate := Int;
      units := Some "N/A";
      description :=
        "Diagnostic information for the radio system.";
      default := Some (VInt 0);
      name := None;
      sub_name := None |});
  ("year",
   {| validate := IntRange 0 (Some 9999);
      units := Some "N/A";
      description :=
        "UTC year.";
      default := Some (VInt 0);
      name := None;
      sub_name := None |});
  ("month",
   {| validate := IntRange 0 (Some 12);
      units := Some "N/A";
      description :=
        "UTC month.";
      default := Some (VInt 0);
      name := None;
      sub_name := None |});
  ("day",
   {| validate := IntRange 0 (Some 31);
      units := Some "N/A";
      description :=
        "UTC day.";
      default := Some (VInt 0);
      name := None;
      sub_name := None |});
  ("hour",
   {| validate := IntRange 0 (Some 23);
      units := Some "N/A";
      description :=
        "UTC hour.";
      default := Some (VInt 0);
      name := None;
      sub_name := None |});
  ("minute",
   {| validate := IntRange 0 (Some 60);
      units := Some "N/A";
      description :=
        "UTC minute.";
      default := Some (VInt 60);
      name := None;
      sub_name := None |});
  ("epfd",
   {| validate := IntRange 0 (Some 15);
      units := Some "N/A";
      description :=
        "Equivalent Power-Flux Density.";
      default := Some (VInt 0);
      name := None;
      sub_name := None |});
  ("ais_version",
   {| validate := IntIn [0; 1; 2; 3];
      units := Some "N/A";
      description :=
        "Version of AIS broadcast.  Currently only ITU1371.";
      default := Some (VInt 0);
      name := None;
      sub_name := None |});
  ("imo",
   {| validate := Any [Int; Instance ["NoneType"]];
      units := Some "N/A";
      description :=
        "Ship ID number.";
      default := Some (VNone);
      name := None;
      sub_name := None |});
  ("callsign",
   {| validate := Instance ["NoneType"; "str"];
      units := Some "N/A";
      description :=
        "Vessel callsign";
      default := Some (VNone);
      name := None;
      sub_name := None |});
  ("shiptype",
   {| validate := IntRange 0 (Some 99);
      units := Some "N/A";
      description :=
        "Vessel type.  Value maps to a description.";
      default := Some (VInt 0);
      name := None;
      sub_name := None |});
  ("to_bow",
   {| validate := IntRange 0 None;
      units := Some "meters";
      description :=
        "Distance from the AIS transponder to the bow of the vessel in meters.  The special value '511' indicates 511 meters or greater.  Negative values are accepted.";
      default := Some (VInt 0);
      name := None;
      sub_name := None |});
  ("to_stern",
   {| validate := IntRange 0 None;
      units := Some "meters";
      description :=
        "Distance from the AIS transponder to the stern of the vessel in meters.  The special value '511' indicates 511 meters or greater.  Negative values are accepted.";
      default := Some (VInt 0);
      name := None;
      sub_name := None |});
  ("to_port",
   {| validate := IntRange 0 None;
      units := Some "meters";
      description :=
        "Distance from the AIS transponder to the port side of the vessel in meters.  The special value '63' indicates 63 meters or greater.  Negative values are accepted.";
      default := Some (VInt 0);
      name := None;
      sub_name := None |});
  ("to_starboard",
   {| validate := IntRange 0 None;
      units := Some "meters";
      description :=
        "Distance from the AIS transponder to the pstarboard ort side of the vessel in meters.  The special value '63' indicates 63 meters or greater.";
      default := Some (VInt 0);
      name := None;
      sub_name := None |});
  ("draught",
   {| validate := FloatRange 0 None None;
      units := Some "decimeters";
      description :=
        "Vessel draught in meters.";
      default := Some (VFloat (Qmake 0 1));
      name := None;
      sub_name := None |});
  ("dte",
   {| validate := IntIn [0; 1];
      units := Some "N/A";
      description :=
        "TODO: Need a description.";
      default := Some (VInt 1);
      name := None;
      sub_name := None |});
  ("seqno",
   {| validate := IntIn [0; 1; 2; 3];
      units := Some "N/A";
      description :=
        "TODO: description";
      default := Some (VInt 0);
      name := None;
      sub_name := None |});
  ("dest_mmsi",
   {| validate := Any [Int; Instance ["NoneType"]];
      units := Some "N/A";
      description :=
        "Message is asking for a response from this MMSI.";
      default := Some (VNone);
      name := None;
      sub_name := None |});
  ("retransmit",
   {| validate := IntIn [0; 1];
      units := Some "N/A";
      description :=
        "If True, the message was re-broadcast by an intermediary station.";
      default := Some (VInt 0);
      name := None;
      sub_name := None |});
  ("dac",
   {| validate := IntRange 0 None;
      units := Some "N/A";
      description :=
        "Designated Area Code / jurisdiction code.";
      default := Some (VInt 0);
      name := None;
      sub_name := None |});
  ("fid",
   {| validate := IntRange 0 None;
      units := Some "N/A";
      description :=
        "Functional ID.  Sometimes abbreviated as FI.";
      default := Some (VInt 0);
      name := None;
      sub_name := None |});
  ("data",
   {| validate := Instance ["NoneType"; "str"];
      units := Some "N/A";
      description :=
        "TODO: Better description. - Binary data.";
      default := Some (VNone);
      name := None;
      sub_name := None |});
  ("mmsi1",
   {| validate := Any [Int; Instance ["NoneType"]];
      units := Some "N/A";
      description :=
        "";
      default := Some (VNone);
      name := None;
      sub_name := None |});
  ("mmsiseq1",
   {| validate := Any [Int; Instance ["NoneType"]];
      units := Some "N/A";
      description :=
        "Not used.";
      default := Some (VNone);
      name := None;
      sub_name := None |});
  ("mmsi2",
   {| validate := Any [Int; Instance ["NoneType"]];
      units := Some "N/A";
      description :=
        "Interrogated MMSI.";
      default := Some (VNone);
      name := None;
      sub_name := None |});
  ("mmsiseq2",
   {| validate := Any [Int; Instance ["NoneType"]];
      units := Some "N/A";
      description :=
        "Not used.";
      default := Some (VNone);
      name := None;
      sub_name := None |});
  ("mmsi3",
   {| validate := Any [Int; Instance ["NoneType"]];
      units := Some "N/A";
      description :=
        "Interrogated MMSI.";
      default := Some (VNone);
      name := None;
      sub_name := None |});
  ("mmsiseq3",
   {| validate := Any [Int; Instance ["NoneType"]];
      units := Some "N/A";
      description :=
        "Not used.";
      default := Some (VNone);
      name := None;
      sub_name := None |});
  ("mmsi4",
   {| validate := Any [Int; Instance ["NoneType"]];
      units := Some "N/A";
      description :=
        "Interrogated MMSI.";
      default := Some (VNone);
      name := None;
      sub_name := None |});
  ("mmsiseq4",
   {| validate := Any [Int; Instance ["NoneType"]];
      units := Some "N/A";
      description :=
        "Not used.";
      default := Some (VNone);
      name := None;
      sub_name := None |});
  ("alt",
   {| validate := IntRange 0 (Some 4095);
      units := Some "meters";
      description :=
        "SAR vehicle altitude.  Special value '4095' indicates altitude not available.";
      default := Some (VInt 4095);
      name := None;
      sub_name := None |});
  ("speed9",
   {| validate := IntRange 0 (Some 1023);
      units := Some "knots";
      description :=
        "Broadcast by search-and-rescue aircraft.  Special value 1023 indicates speed not available.";
      default := Some (VInt 1023);
      name := Some "speed";
      sub_name := None |});
  ("assigned",
   {| validate := IntIn [0; 1];
      units := Some "N/A";
      description :=
        "Assigned-mode flag.  0=autonomous and 1=assigned.";
      default := Some (VInt 0);
      name := None;
      sub_name := None |});
  ("text",
   {| validate := Instance ["NoneType"; "str"];
      units := Some "N/A";
      description :=
        "Plain text info specific to broadcast message type.";
      default := Some (VNone);
      name := None;
      sub_name := None |});
  ("type1_1",
   {| validate := IntRange 0 (Some 27);
      units := Some "N/A";
      description :=
        "First message type.";
      default := Some (VInt 0);
      name := None;
      sub_name := None |});
  ("offset1_1",
   {| validate := IntRange 0 None;
      units := Some "N/A";
      description :=
        "First slot offset.";
      default := Some (VInt 0);
      name := None;
      sub_name := None |});
  ("offset1_2",
   {| validate := IntRange 0 None;
      units := Some "N/A";
      description :=
        "Second slot offset.";
      default := Some (VInt 0);
      name := None;
      sub_name := None |});
  ("offset2_1",
   {| validate := IntRange 0 None;
      units := Some "N/A";
      description :=
        "TODO: What is this?";
      default := Some (VInt 0);
      name := None;
      sub_name := None |});
  ("type1_2",
   {| validate := IntRange 0 (Some 27);
      units := Some "N/A";
      description :=
        "Second message type.";
      default := Some (VInt 0);
      name := None;
      sub_name := None |});
  ("type2_1",
   {| validate := IntRange 0 (Some 27);
      units := Some "N/A";
      description :=
        "TODO: What is this?";
      default := Some (VInt 0);
      name := None;
      sub_name := None |});
  ("offset1",
   {| validate := IntRange 0 None;
      units := Some "N/A";
      description :=
        "TODO: What is this?  Valid default?";
      default := Some (VInt 0);
      name := None;
      sub_name := None |});
  ("offset2",
   {| validate := IntRange 0 None;
      units := Some "N/A";
      description :=
        "TODO: What is this?  Valid default?";
      default := Some (VInt 0);
      name := None;
      sub_name := None |});
  ("offset3",
   {| validate := IntRange 0 None;
      units := Some "N/A";
      description :=
        "TODO: What is this?  Valid default?";
      default := Some (VInt 0);
      name := None;
      sub_name := None |});
  ("offset4",
   {| validate := IntRange 0 None;
      units := Some "N/A";
      description :=
        "TODO: What is this?  Valid default?";
      default := Some (VInt 0);
      name := None;
      sub_name := None |});
  ("increment1",
   {| validate := IntRange 0 None;
      units := Some "N/A";
      description :=
        "TODO: What is this?  Valid default?";
      default := Some (VInt 0);
      name := None;
      sub_name := None |});
  ("increment2",
   {| validate := IntRange 0 None;
      units := Some "N/A";
      description :=
        "TODO: What is this?  Valid default?";
      default := Some (VInt 0);
      name := None;
      sub_name := None |});
  ("increment3",
   {| validate := IntRange 0 None;
      units := Some "N/A";
      description :=
        "TODO: What is this?  Valid default?";
      default := Some (VInt 0);
      name := None;
      sub_name := None |});
  ("increment4",
   {| validate := IntRange 0 None;
      units := Some "N/A";
      description :=
        "TODO: What is this?  Valid default?";
      default := Some (VInt 0);
      name := None;
      sub_name := None |});
  ("spare",
   {| validate := IntRange 0 None;
      units := Some "N/A";
      description :=
        "Spare bits.";
      default := Some (VInt 0);
      name := None;
      sub_name := None |});
  ("cs",
   {| validate := IntIn [0; 1];
      units := Some "N/A";
      description :=
        "Carrier sense unit.  TODO: Finish";
      default := Some (VInt 0);
      name := None;
      sub_name := None |});
  ("display",
   {| validate := IntIn [0; 1];
      units := Some "N/A";
      description :=
        "0=Does not have visual display.  1=Has visual display.  TODO: Finish.";
      default := Some (VInt 0);
      name := None;
      sub_name := None |});
  ("dsc",
   {| validate := IntIn [0; 1];
      units := Some "N/A";
      description :=
        "If 1, unit is attached to a VHF voice radio with DSC capability.";
      default := Some (VInt 1);
      name := None;
      sub_name := None |});
  ("band",
   {| validate := IntIn [0; 1];
      units := Some "N/A";
      description :=
        "Base stations can command units to switch frequency.  If this flag is 1, the unit can use any part of the marine channel.";
      default := Some (VInt 0);
      name := None;
      sub_name := None |});
  ("msg22",
   {| validate := IntIn [0; 1];
      units := Some "N/A";
      description :=
        "If 1, unit can accept a channel assignment via Message Type 22.";
      default := Some (VInt 0);
      name := None;
      sub_name := None |});
  ("number1",
   {| validate := IntRange 0 None;
      units := Some "N/A";
      description :=
        "Consecutive/reserved slots.  TODO: What is this exactly?";
      default := Some (VInt 0);
      name := None;
      sub_name := None |});
  ("number2",
   {| validate := IntRange 0 None;
      units := Some "N/A";
      description :=
        "Consecutive/reserved slots.  TODO: What is this exactly?";
      default := Some (VInt 0);
      name := None;
      sub_name := None |});
  ("number3",
   {| validate := IntRange 0 None;
      units := Some "N/A";
      description :=
        "Consecutive/reserved slots.  TODO: What is this exactly?";
      default := Some (VInt 0);
      name := None;
      sub_name := None |});
  ("number4",
   {| validate := IntRange 0 None;
      units := Some "N/A";
      description :=
        "Consecutive/reserved slots.  TODO: What is this exactly?";
      default := Some (VInt 0);
      name := None;
      sub_name := None |});
  ("timeout1",
   {| validate := IntRange 0 (Some 59);
      units := Some "minutes";
      description :=
        "Allocation timeout in minutes.  TODO: Valid default?";
      default := Some (VInt 0);
      name := None;
      sub_name := None |});
  ("timeout2",
   {| validate := IntRange 0 (Some 59);
      units := Some "minutes";
      description :=
        "Allocation timeout in minutes.  TODO: Valid default?";
      default := Some (VInt 0);
      name := None;
      sub_name := None |});
  ("timeout3",
   {| validate := IntRange 0 (Some 59);
      units := Some "minutes";
      description :=
        "Allocation timeout in minutes.  TODO: Valid default?";
      default := Some (VInt 0);
      name := None;
      sub_name := None |});
  ("timeout4",
   {| validate := IntRange 0 (Some 59);
      units := Some "minutes";
      description :=
        "Allocation timeout in minutes.  TODO: Valid default?";
      default := Some (VInt 0);
      name := None;
      sub_name := None |});
  ("aid_type",
   {| validate := IntRange 0 (Some 31);
      units := Some "N/A";
      description :=
        "Navigation aid type.";
      default := Some (VInt 0);
      name := None;
      sub_name := None |});
  ("name_extension",
   {| validate := Instance ["NoneType"; "str"];
      units := Some "N/A";
      description :=
        "TODO: Finish.  Is this a good field name?";
      default := Some (VNone);
      name := None;
      sub_name := None |});
  ("txrx",
   {| validate := IntIn [0; 1; 2; 3];
      units := Some "N/A";
      description :=
        "The txrx field encodes the same information as the 2-bit field txrx field in message type 23; only the two low bits are used.  It also tells the affected stations which channel or channels they may transmit on. The options refer to the same A and B VHF channels as in Message Type 22.";
      default := Some (VInt 0);
      name := None;
      sub_name := None |});
  ("power",
   {| validate := IntIn [0; 1];
      units := Some "N/A";
      description :=
        "Low=0, high=1";
      default := Some (VInt 0);
      name := None;
      sub_name := None |});
  ("ne_lon",
   {| validate := Any [Float; In [VInt 108600]];
      units := Some "WGS84 degress";
      description :=
        "TODO: Description.";
      default := Some (VInt 108600);
      name := None;
      sub_name := None |});
  ("ne_lat",
   {| validate := Any [Float; In [VInt 54600]];
      units := Some "WGS84 degress";
      description :=
        "TODO: Description.";
      default := Some (VInt 54600);
      name := None;
      sub_name := None |});
  ("sw_lon",
   {| validate := Any [Float; In [VInt 108600]];
      units := Some "WGS84 degress";
      description :=
        "TODO: Description.";
      default := Some (VInt 108600);
      name := None;
      sub_name := None |});
  ("sw_lat",
   {| validate := Any [Float; In [VInt 108600]];
      units := Some "WGS84 degress";
      description :=
        "TODO: Description.";
      default := Some (VInt 108600);
      name := None;
      sub_name := None |});
  ("dest1",
   {| validate := Int;
      units := Some "N/A";
      description :=
        "MMSI of destination 1.";
      default := Some (VInt 0);
      name := None;
      sub_name := None |});
  ("dest2",
   {| validate := Int;
      units := Some "N/A";
      description :=
        "MMSI of destination 2.";
      default := Some (VInt 0);
      name := None;
      sub_name := None |});
  ("band_a",
   {| validate := IntIn [0; 1];
      units := Some "N/A";
      description :=
        "Default=0, 1=12.5kHz";
      default := Some (VInt 0);
      name := None;
      sub_name := None |});
  ("band_b",
   {| validate := IntIn [0; 1];
      units := Some "N/A";
      description :=
        "Default=0, 1=12.5kHz";
      default := Some (VInt 0);
      name := None;
      sub_name := None |});
  ("zonesize",
   {| validate := IntRange 0 None;
      units := Some "N/A";
      description :=
        "Size of transitional zone.";
      default := Some (VInt 0);
      name := None;
      sub_name := None |});
  ("station_type",
   {| validate := IntRange 0 (Some 15);
      units := Some "N/A";
      description :=
        "TODO: Finish.";
      default := Some (VInt 0);
      name := None;
      sub_name := None |});
  ("ship_type",
   {| validate := IntRange 0 None;
      units := Some "N/A";
      description :=
        "TODO: Finish.  Ship type list not present in AIVDM doc.";
      default := Some (VInt 0);
      name := None;
      sub_name := None |});
  ("interval",
   {| validate := IntRange 0 (Some 15);
      units := Some "N/A";
      description :=
        "TODO: Finish.  Valid default?";
      default := Some (VInt 0);
      name := None;
      sub_name := None |});
  ("quiet",
   {| validate := IntRange 0 (Some 15);
      units := Some "minutes";
      description :=
        "Quiet time in minutes.  None=0.";
      default := Some (VInt 0);
      name := None;
      sub_name := None |});
  ("partno",
   {| validate := IntIn [0; 1];
      units := Some "N/A";
      description :=
        "If the Part Number field is 0, the rest of the message is interpreted as a Part A; if it is 1, the rest of the message is interpreted as a Part B; values 2 and 3 are not allowed.";
      default := Some (VInt 0);
      name := None;
      sub_name := None |});
  ("vendorid",
   {| validate := Instance ["NoneType"; "str"];
      units := Some "N/A";
      description :=
        "Name of the AIS equipment vendor.";
      default := Some (VNone);
      name := None;
      sub_name := None |});
  ("model",
   {| validate := IntRange 0 None;
      units := Some "N/A";
      description :=
        "AIS equipment model number.";
      default := Some (VInt 0);
      name := None;
      sub_name := None |});
  ("serial",
   {| validate := IntRange 0 None;
      units := Some "N/A";
      description :=
        "AIS equipment serial number.";
      default := Some (VInt 0);
      name := None;
      sub_name := None |});
  ("mothership_mmsi",
   {| validate := Any [Int; Instance ["NoneType"]];
      units := Some "N/A";
      description :=
        "If vessel is a support craft, this is the MMSI of the vessel it is supporting.";
      default := Some (VNone);
      name := None;
      sub_name := None |});
  ("addressed",
   {| validate := IntIn [0; 1];
      units := Some "N/A";
      description :=
        "broadcast=0, addressed=1";
      default := Some (VInt 0);
      name := None;
      sub_name := None |});
  ("structured",
   {| validate := Instance ["NoneType"; "str"];
      units := Some "N/A";
      description :=
        "TODO: Finish";
      default := Some (VNone);
      name := None;
      sub_name := None |});
  ("app_id",
   {| validate := IntRange 0 None;
      units := Some "N/A";
      description :=
        "TODO: Finish.";
      default := Some (VInt 0);
      name := None;
      sub_name := None |});
  ("gnss",
   {| validate := In [VInt 0; VInt 1];
      units := Some "N/A";
      description :=
        "Current GNSS position=0,Not GNSS position=1";
      default := Some (VInt 1);
      name := None;
      sub_name := None |});
  ("destination",
   {| validate := Instance ["NoneType"; "str"];
      units := Some "N/A";
      description :=
        "UN/LOCODE or ERI terminal code.";
      default := Some (VNone);
      name := None;
      sub_name := None |});
  ("shipname",
   {| validate := Instance ["NoneType"; "str"];
      units := Some "N/A";
      description :=
        "Vessel name.";
      default := Some (VNone);
      name := None;
      sub_name := None |});
  ("reserved",
   {| validate := Instance ["NoneType"; "str"];
      units := Some "N/A";
      description :=
        "Bits reserved for future use.";
      default := Some (VNone);
      name := None;
      sub_name := None |});
  ("name",
   {| validate := Instance ["NoneType"; "str"];
      units := Some "N/A";
      description :=
        "Name of aid to navigation for type 21.";
      default := Some (VNone);
      name := None;
      sub_name := None |});
  ("off_position",
   {| validate := Instance ["NoneType"; "str"];
      units := Some "N/A";
      description :=
        "TODO: Finish.  Valid types?";
      default := Some (VNone);
      name := None;
      sub_name := None |});
  ("virtual_aid",
   {| validate := Instance ["NoneType"; "str"];
      units := Some "N/A";
      description :=
        "TODO: Finish.  Valid types?";
      default := Some (VNone);
      name := None;
      sub_name := None |});
  ("channel_a",
   {| validate := IntRange 0 None;
      units := Some "N/A";
      description :=
        "The values of the channel_a and channel_b fields are ITU frequency designators for channelas A and B. Normally these will be 2087 and 2088, the AIS 1 and AIS 2 frequencies of 87B (161.975 MHz) and 88B (162.025 MHz) respectively. Regional authorities may set different frequencies.";
      default := Some (VInt 2087);
      name := None;
      sub_name := None |});
  ("channel_b",
   {| validate := IntRange 0 None;
      units := Some "N/A";
      description :=
        "The values of the channel_a and channel_b fields are ITU frequency designators for channelas A and B. Normally these will be 2087 and 2088, the AIS 1 and AIS 2 frequencies of 87B (161.975 MHz) and 88B (162.025 MHz) respectively. Regional authorities may set different frequencies.";
      default := Some (VInt 2088);
      name := None;
      sub_name := None |});
  ("timestamp",
   {| validate := Any [Instance ["NoneType"]; DateTime];
      units := Some "N/A";
      description :=
        "Timestamp message was broadcast.  Not part of the AIVDM spec, but critical to working with AIS data.";
      default := Some (VNone);
      name := None;
      sub_name := None |})
].

Definition _FIELDS_BY_TYPE : dict Z (list string) := [
  (1,
    ["accuracy"; "course"; "heading"; "lat"; "lon"; "maneuver"; "mmsi";
     "spare"; "radio"; "raim"; "repeat"; "second"; "speed"; "status"; "turn";
     "type"; "timestamp"]);
  (2,
    ["accuracy"; "course"; "heading"; "lat"; "lon"; "maneuver"; "mmsi";
     "spare"; "radio"; "raim"; "repeat"; "second"; "speed"; "status"; "turn";
     "type"; "timestamp"]);
  (3,
    ["accuracy"; "course"; "heading"; "lat"; "lon"; "maneuver"; "mmsi";
     "spare"; "radio"; "raim"; "repeat"; "second"; "speed"; "status"; "turn";
     "type"; "timestamp"]);
  (4,
    ["accuracy"; "day"; "epfd"; "hour"; "lat"; "lon"; "minute"; "mmsi";
     "month"; "radio"; "raim"; "repeat"; "second"; "type"; "year"; "spare";
     "timestamp"]);
  (5,
    ["ais_version"; "callsign"; "day"; "destination"; "draught"; "dte";
     "epfd"; "hour"; "imo"; "minute"; "mmsi"; "month"; "repeat"; "shipname";
     "shiptype"; "to_bow"; "to_port"; "to_starboard"; "to_stern"; "type";
     "spare"; "timestamp"]);
  (6,
    ["type"; "repeat"; "mmsi"; "seqno"; "dest_mmsi"; "retransmit"; "spare";
     "dac"; "fid"; "data"; "timestamp"]);
  (7,
    ["day"; "destination"; "draught"; "dte"; "epfd"; "hour"; "minute";
     "mmsi"; "mmsi1"; "mmsi2"; "mmsi3"; "mmsi4"; "mmsiseq1"; "mmsiseq2";
     "mmsiseq3"; "mmsiseq4"; "month"; "repeat"; "type"; "timestamp"]);
  (8,
    ["assigned"; "course"; "dac"; "data"; "destination"; "draught"; "dte";
     "fid"; "lat"; "minute"; "mmsi"; "radio"; "raim"; "regional"; "repeat";
     "second"; "type"; "timestamp"]);
  (9,
    ["accuracy"; "alt"; "assigned"; "course"; "destination"; "draught";
     "dte"; "lat"; "lon"; "minute"; "mmsi"; "radio"; "raim"; "regional";
     "repeat"; "second"; "speed9"; "type"; "timestamp"]);
  (10,
    ["assigned"; "course"; "dest_mmsi"; "destination"; "draught"; "dte";
     "lat"; "lon"; "minute"; "mmsi"; "radio"; "raim"; "regional"; "repeat";
     "second"; "type"; "timestamp"]);
  (11,
    ["accuracy"; "day"; "epfd"; "hour"; "lat"; "lon"; "minute"; "mmsi";
     "month"; "radio"; "raim"; "repeat"; "second"; "type"; "year"; "timestamp"]);
  (12,
    ["assigned"; "course"; "dest_mmsi"; "destination"; "draught"; "dte";
     "minute"; "mmsi"; "radio"; "raim"; "regional"; "repeat"; "retransmit";
     "second"; "seqno"; "text"; "type"; "timestamp"]);
  (13,
    ["day"; "destination"; "draught"; "dte"; "epfd"; "hour"; "minute";
     "mmsi"; "mmsi1"; "mmsi2"; "mmsi3"; "mmsi4"; "mmsiseq1"; "mmsiseq2";
     "mmsiseq3"; "mmsiseq4"; "month"; "repeat"; "type"; "timestamp"]);
  (14,
    ["assigned"; "course"; "destination"; "draught"; "dte"; "minute"; "mmsi";
     "radio"; "raim"; "regional"; "repeat"; "retransmit"; "second"; "text";
     "type"; "timestamp"]);
  (15,
    ["destination"; "draught"; "dte"; "minute"; "mmsi"; "mmsi1"; "mmsi2";
     "offset1_1"; "offset1_2"; "offset2_1"; "radio"; "repeat"; "type";
     "type1_1"; "type1_2"; "type2_1"; "timestamp"]);
  (16,
    ["destination"; "draught"; "dte"; "increment1"; "minute"; "mmsi";
     "mmsi1"; "mmsi2"; "offset1"; "offset2"; "offset2_1"; "radio"; "repeat";
     "type"; "type2_1"; "timestamp"]);
  (17,
    ["data"; "lat"; "lon"; "mmsi"; "repeat"; "type"; "timestamp"]);
  (18,
    ["accuracy"; "assigned"; "band"; "course"; "cs"; "display"; "dsc";
     "heading"; "lat"; "lon"; "mmsi"; "msg22"; "radio"; "raim"; "regional";
     "repeat"; "reserved"; "second"; "speed"; "type"; "timestamp"]);
  (19,
    ["accuracy"; "assigned"; "course"; "dte"; "epfd"; "heading"; "lat";
     "lon"; "mmsi"; "raim"; "regional"; "repeat"; "reserved"; "second";
     "shipname"; "shiptype"; "speed"; "to_bow"; "to_port"; "to_starboard";
     "to_stern"; "type"; "timestamp"]);
  (20,
    ["assigned"; "dte"; "increment1"; "increment2"; "increment3";
     "increment4"; "mmsi"; "number1"; "number2"; "number3"; "number4";
     "offset1"; "offset2"; "offset3"; "offset4"; "repeat"; "timeout1";
     "timeout2"; "timeout3"; "timeout4"; "type"; "timestamp"]);
  (21,
    ["accuracy"; "aid_type"; "assigned"; "epfd"; "lat"; "lon"; "mmsi";
     "name"; "off_position"; "raim"; "regional"; "repeat"; "second";
     "to_bow"; "to_port"; "to_starboard"; "to_stern"; "type"; "virtual_aid";
     "timestamp"]);
  (22,
    ["addressed"; "assigned"; "band_a"; "band_b"; "channel_a"; "channel_b";
     "dest1"; "dest2"; "mmsi"; "ne_lat"; "ne_lon"; "power"; "repeat";
     "sw_lat"; "sw_lon"; "txrx"; "type"; "zonesize"; "timestamp"]);
  (23,
    ["assigned"; "band_a"; "band_b"; "interval"; "mmsi"; "ne_lat"; "ne_lon";
     "quiet"; "repeat"; "ship_type"; "station_type"; "sw_lat"; "sw_lon";
     "txrx"; "type"; "zonesize"; "timestamp"]);
  (24,
    ["assigned"; "callsign"; "mmsi"; "model"; "mothership_mmsi"; "partno";
     "repeat"; "serial"; "shipname"; "shiptype"; "to_bow"; "to_port";
     "to_starboard"; "to_stern"; "type"; "vendorid"; "zonesize"; "timestamp"]);
  (25,
    ["addressed"; "app_id"; "assigned"; "callsign"; "data"; "dest_mmsi";
     "mmsi"; "model"; "mothership_mmsi"; "repeat"; "serial"; "structured";
     "to_bow"; "to_port"; "to_starboard"; "to_stern"; "type"; "zonesize";
     "timestamp"]);
  (26,
    ["addressed"; "app_id"; "assigned"; "callsign"; "data"; "dest_mmsi";
     "mmsi"; "mothership_mmsi"; "radio"; "repeat"; "serial"; "structured";
     "to_bow"; "to_port"; "to_starboard"; "to_stern"; "type"; "zonesize";
     "timestamp"]);
  (27,
    ["accuracy"; "assigned"; "course"; "gnss"; "lat"; "lon"; "mmsi";
     "mothership_mmsi"; "raim"; "repeat"; "speed"; "status"; "to_port";
     "to_starboard"; "to_stern"; "type"; "zonesize"; "timestamp"])
].

Section Registry.
(** [FIELD_EXTENSIONS] and [FIELDS_BY_TYPE_EXTENSIONS], as the entry points
    loaded at import time have left them. *)
Variable FIELD_EXTENSIONS : dict string FieldDef.
Variable FIELDS_BY_TYPE_EXTENSIONS : dict Z (list string).

(** [merge_fields], over the tables given. *)
Definition merge_fields (fields : list (dict string FieldDef))
    : dict string FieldDef :=
  foldl (λ out flds, dict_update out flds) [] fields.

(** [out[mtype] = tuple(chain(fields, out[mtype]))], where a missing
    [out[mtype]] is the [defaultdict]'s empty list. *)
Definition merge_step (out : dict Z (list string))
    (item : Z * list string) : dict Z (list string) :=
  dict_set item.1 (item.2 ++ from_option id [] (dict_get item.1 out)) out.

(** [merge_fields_by_type], over the tables given. *)
Definition merge_fields_by_type (fbt : list (dict Z (list string)))
    : dict Z (list string) :=
  foldl (λ out fdef, foldl merge_step out fdef) [] fbt.

(** The inner loop of [build_schema]:
    [name = fields[fld].get('sub_name', fld); definition[name] = fields[name]]. *)
Fixpoint build_definition (fields : dict string FieldDef)
    (mfields : list string) (definition : dict string FieldDef)
    : result (dict string FieldDef) :=
  match mfields with
  | [] => Ok definition
  | fld :: rest =>
      match dict_get fld fields with
      | None => Raise (KeyError fld)
      | Some fdef =>
          let name := from_option id fld (sub_name fdef) in
          match dict_get name fields with
          | None => Raise (KeyError name)
          | Some d => build_definition fields rest (dict_set name d definition)
          end
      end
  end.

(** The outer loop of [build_schema]. *)
Fixpoint build_types (fields : dict string FieldDef)
    (items : list (Z * list string))
    (out : dict Z (dict string FieldDef))
    : result (dict Z (dict string FieldDef)) :=
  match items with
  | [] => Ok out
  | (mtype, mfields) :: rest =>
      definition ←! build_definition fields mfields [];
      build_types fields rest (dict_set mtype definition out)
  end.

(** [build_schema(fields_by_type=None, fields=None, extensions=True)]. *)
Definition build_schema (fields_by_type : option (dict Z (list string)))
    (fields : option (dict string FieldDef)) (extensions : bool)
    : result (dict Z (dict string FieldDef)) :=
  let fields_by_type :=
    match fields_by_type with
    | Some t => t
    | None =>
        if extensions
        then merge_fields_by_type [_FIELDS_BY_TYPE; FIELDS_BY_TYPE_EXTENSIONS]
        else _FIELDS_BY_TYPE
    end in
  let fields :=
    match fields with
    | Some t => t
    | None =>
        if extensions then merge_fields [_FIELDS; FIELD_EXTENSIONS]
        else _FIELDS
    end in
  build_types fields fields_by_type [].
End Registry.

(** The loop over the entry points of [gpsdio.field_extensions], run when
    the module is imported: each entry point is loaded and merged into
    [FIELD_EXTENSIONS]; one whose loading or merging raises an [Exception]
    is passed over.  An entry point is given by what [ep.load()] comes to.
    The records given to the logger are left out. *)
Fixpoint load_field_extensions
    (eps : list (result (dict string FieldDef)))
    (FIELD_EXTENSIONS : dict string FieldDef)
    : result (dict string FieldDef) :=
  match eps with
  | [] => Ok FIELD_EXTENSIONS
  | Ok fields :: rest =>
      load_field_extensions rest (merge_fields [FIELD_EXTENSIONS; fields])
  | Raise e :: rest =>
      if is_Exception e then load_field_extensions rest FIELD_EXTENSIONS
      else Raise e
  end.

(** The loop over the entry points of [gpsdio.fields_by_type_extensions]. *)
Fixpoint load_fields_by_type_extensions
    (eps : list (result (dict Z (list string))))
    (FIELDS_BY_TYPE_EXTENSIONS : dict Z (list string))
    : result (dict Z (list string)) :=
  match eps with
  | [] => Ok FIELDS_BY_TYPE_EXTENSIONS
  | Ok fbt :: rest =>
      load_fields_by_type_extensions rest
        (merge_fields_by_type [FIELDS_BY_TYPE_EXTENSIONS; fbt])
  | Raise e :: rest =>
      if is_Exception e
      then load_fields_by_type_extensions rest FIELDS_BY_TYPE_EXTENSIONS
      else Raise e
  end.

End schema.

(** * [gpsdio/core.py] *)

Module core.

(** ** The message stream ([GPSDIOStream])

    The wrapped object [self._stream] is duck-typed: anything with [next],
    [write], [close] and [closed].  Every call may change the state of the
    wrapped object. *)

Class Codec (C : Type) : Type := {
  codec_next : C → result Message * C;
  codec_write : Message → C → result () * C;
  codec_close : C → result () * C;
  codec_closed : C → bool
}.

Record GPSDIOStream (C : Type) : Type := mkStream {
  _stream : C;
  _mode : string;
  convert : bool;
  skip_failures : bool
}.
Arguments mkStream {C}.
Arguments _stream {C}.
Arguments _mode {C}.
Arguments convert {C}.
Arguments skip_failures {C}.

(** What one method call leaves behind: the value returned or the exception
    raised, the stream afterwards, and the records given to
    [logger.exception]. *)
Record outcome (R C : Type) : Type := mkOutcome {
  returned : result R;
  after : GPSDIOStream C;
  logged : list string
}.
Arguments mkOutcome {R C}.
Arguments returned {R C}.
Arguments after {R C}.
Arguments logged {R C}.

(** A table of coercion functions, [{field name: function}]. *)
Definition coercions : Type := string → option (Value → result Value).

(** [{fld: fns.get(fld, lambda x: x)(v) for fld, v in six.iteritems(msg)}],
    the items taken in order and the first failure raised. *)
Fixpoint dictcomp (fns : coercions) (items : list (string * Value))
    (acc : Message) : result Message :=
  match items with
  | [] => Ok acc
  | (fld, v) :: rest =>
      match default Ok (fns fld) v with
      | Ok v' => dictcomp fns rest (dict_set fld v' acc)
      | Raise e => Raise e
      end
  end.

Section Stream.
Context {C : Type} `{Codec C}.

(** [schema.schema_import_functions] and [schema.schema_export_functions],
    the tables [core.py] reads. *)
Variable schema_import_functions : coercions.
Variable schema_export_functions : coercions.

Definition with_stream (s : GPSDIOStream C) (c : C) : GPSDIOStream C :=
  mkStream c (_mode s) (convert s) (skip_failures s).

(** The properties [closed] and [mode]. *)
Definition closed (s : GPSDIOStream C) : bool := codec_closed (_stream s).
Definition mode (s : GPSDIOStream C) : string := _mode s.

(** [close()]. *)
Definition close (s : GPSDIOStream C) : outcome () C :=
  let '(r, c) := codec_close (_stream s) in
  mkOutcome r (with_stream s c) [].

(** [__exit__(exc_type, exc_val, exc_tb)]: it closes the wrapped object and
    returns [None], so what the body of the [with] raised goes on. *)
Definition __exit__ (s : GPSDIOStream C) : outcome () C :=
  let '(r, c) := codec_close (_stream s) in
  mkOutcome (_ ←! r; Ok ()) (with_stream s c) [].

(** The handler shared by [__next__] and [write]:
    [except Exception as e: logger.exception(str(e));
     if not self.skip_failures: raise e].
    Falling off the end of the handler returns [None]. *)
Definition handle {R} (s : GPSDIOStream C) (e : exn) : outcome (option R) C :=
  if is_Exception e then
    mkOutcome (if negb (skip_failures s) then Raise e else Ok None)
              s [str_exn e]
  else mkOutcome (Raise e) s [].

(** The body of the [try] of [__next__], after the pull. *)
Definition imported (convert : bool) (pulled : result Message)
    : result Message :=
  msg ←! pulled;
  if convert then dictcomp schema_import_functions msg [] else Ok msg.

(** [__next__()].  It returns [Some msg] for a message and [None] where
    the Python method returns [None]. *)
Definition __next__ (s : GPSDIOStream C) : outcome (option Message) C :=
  if negb (String.eqb (mode s) "r") then
    mkOutcome (Raise (IOError "Stream not open for reading")) s []
  else if closed s then
    mkOutcome (Raise (IOError "Can't operate on a closed stream")) s []
  else
    let '(pulled, c) := codec_next (_stream s) in
    let s' := with_stream s c in
    match imported (convert s) pulled with
    | Ok msg => mkOutcome (Ok (Some msg)) s' []
    | Raise e =>
        if is_StopIteration e then mkOutcome (Raise e) s' []
        else handle s' e
    end.

(** [write(msg)]. *)
Definition write (s : GPSDIOStream C) (msg : Message)
    : outcome (option ()) C :=
  if negb (String.eqb (mode s) "w" || String.eqb (mode s) "a") then
    mkOutcome (Raise (IOError "Stream not open for writing")) s []
  else if closed s then
    mkOutcome (Raise (IOError "Can't operate on a closed stream")) s []
  else
    let exported :=
      if convert s then dictcomp schema_export_functions msg []
      else Ok msg in
    match exported with
    | Ok msg' =>
        let '(r, c) := codec_write msg' (_stream s) in
        let s' := with_stream s c in
        match r with
        | Ok _ => mkOutcome (Ok None) s' []
        | Raise e => handle s' e
        end
    | Raise e => handle s e
    end.

(** [for msg in stream]: call [__next__] until it raises.  The items are
    the values returned, one per call; [StopIteration] ends the loop and
    any other exception leaves it.  [fuel] bounds the number of calls. *)
Record iteration : Type := mkIteration {
  items : list (option Message);
  stopped : option exn;
  final : GPSDIOStream C;
  log : list string
}.

Fixpoint iterate (fuel : nat) (s : GPSDIOStream C) : iteration :=
  match fuel with
  | O => mkIteration [] None s []
  | S fuel' =>
      let o := __next__ s in
      match returned o with
      | Ok item =>
          let r := iterate fuel' (after o) in
          mkIteration (item :: items r) (stopped r) (final r)
                      (logged o ++ log r)
      | Raise e => mkIteration [] (Some e) (after o) (logged o)
      end
  end.

(** The messages among the items of an iteration. *)
Definition messages (its : list (option Message)) : list Message :=
  omap id its.

End Stream.

(** A codec that replays a script: one outcome per pull, then
    [StopIteration]; what is written is kept. *)
Record Scripted : Type := mkScripted {
  pending : list (result Message);
  written : list Message;
  is_closed : bool
}.

#[global] Instance Scripted_codec : Codec Scripted := {
  codec_next c :=
    match pending c with
    | [] => (Raise StopIteration, c)
    | r :: rest => (r, mkScripted rest (written c) (is_closed c))
    end;
  codec_write msg c :=
    (Ok (), mkScripted (pending c) (written c ++ [msg]) (is_closed c));
  codec_close c := (Ok (), mkScripted (pending c) (written c) true);
  codec_closed := is_closed
}.

(** ** The factory ([open])

    [gpsdio.drivers] is imported inside [open]: its two detection functions
    and its two registries are what [open] is given.  A driver is called
    with the target, a mode and its options.  The calls to [logger.debug]
    are left out. *)

(** [needle in hay], on strings. *)
Definition str_in (needle hay : string) : bool :=
  match String.index 0 needle hay with Some _ => true | None => false end.

(** The truth value of an optional string argument: [None] and [''] are
    false. *)
Definition given (o : option string) : option string :=
  match o with
  | Some s => if String.eqb s "" then None else Some s
  | None => None
  end.

Definition Options : Type := dict string Value.

(** The keyword arguments [open] passes on to [GPSDIOStream]. *)
Record StreamKwargs : Type := mkKwargs {
  kw_convert : option bool;
  kw_skip_failures : option bool
}.

Section Open.
Context {Handle C : Type}.

(** [path]: a string, or a file-like object. *)
Inductive Target : Type :=
| Path (p : string)
| FileObj (f : Handle).

Definition CompressionDriver : Type :=
  Target → string → Options → result Handle.
Definition IODriver : Type :=
  Target → string → Options → result C.

Variable detect_compression_type : string → result CompressionDriver.
Variable detect_file_type : option string → result IODriver.
Variable registered_compression : dict string CompressionDriver.
Variable registered_drivers : dict string IODriver.

(** [sys.stdin], [sys.stdout] and [getattr(f, 'name', None)]. *)
Variable stdin stdout : Handle.
Variable name_of : Handle → option string.

(** [registry[key]]. *)
Definition subscript {V} (registry : dict string V) (key : string)
    : result V :=
  match dict_get key registry with
  | Some v => Ok v
  | None => Raise (KeyError key)
  end.

(** [path == '-'] stands for [sys.stdin] or [sys.stdout]. *)
Definition standard_stream (path : Target) (mode : string) : Target :=
  match path with
  | Path p =>
      if String.eqb p "-" && str_in "r" mode then FileObj stdin
      else if String.eqb p "-" && (str_in "w" mode || str_in "a" mode)
      then FileObj stdout
      else path
  | FileObj _ => path
  end.

Definition open (path : Target) (mode : string)
    (dmode cmode compression driver : option string)
    (do co : option Options) (kwargs : StreamKwargs)
    : result (GPSDIOStream C) :=
  let path := standard_stream path mode in
  let do := from_option id [] do in
  let co := from_option id [] co in
  let dmode := from_option id mode (given dmode) in
  let cmode := from_option id mode (given cmode) in
  drivers ←!
    match path with
    | FileObj f =>
        io_driver ←!
          match given driver with
          | Some d => subscript registered_drivers d
          | None => detect_file_type (name_of f)
          end;
        comp_driver ←!
          match given compression with
          | Some c => c' ←! subscript registered_compression c; Ok (Some c')
          | None => Ok None
          end;
        Ok (io_driver, comp_driver)
    | Path p =>
        io_driver ←!
          match given driver with
          | Some d => subscript registered_drivers d
          | None => detect_file_type (Some p)
          end;
        comp_driver ←!
          match given compression with
          | Some c => c' ←! subscript registered_compression c; Ok (Some c')
          | None =>
              match detect_compression_type p with
              | Ok c' => Ok (Some c')
              | Raise e => if is_ValueError e then Ok None else Raise e
              end
          end;
        Ok (io_driver, comp_driver)
    end;
  let '(io_driver, comp_driver) := drivers in
  c_stream ←!
    match comp_driver with
    | Some comp => f ←! comp path cmode co; Ok (FileObj f)
    | None => Ok path
    end;
  stream ←! io_driver c_stream dmode do;
  Ok (mkStream stream mode
        (from_option id true (kw_convert kwargs))
        (from_option id false (kw_skip_failures kwargs))).
(** What [open] amounts to once the compression driver is settled: the
    container driver is resolved, the target goes through the compression
    driver, if there is one, and the container driver opens the outcome. *)
Definition opened_through (comp_driver : option CompressionDriver)
    (target : Target) (mode : string) (dmode cmode driver : option string)
    (do co : option Options) (kwargs : StreamKwargs)
    : result (GPSDIOStream C) :=
  io_driver ←!
    match given driver with
    | Some d => subscript registered_drivers d
    | None =>
        detect_file_type
          (match target with Path p => Some p | FileObj f => name_of f end)
    end;
  c_stream ←!
    match comp_driver with
    | Some comp =>
        f ←! comp target (from_option id mode (given cmode))
                  (from_option id [] co);
        Ok (FileObj f)
    | None => Ok target
    end;
  stream ←! io_driver c_stream (from_option id mode (given dmode))
                      (from_option id [] do);
  Ok (mkStream stream mode
        (from_option id true (kw_convert kwargs))
        (from_option id false (kw_skip_failures kwargs))).
End Open.

(** ** Expressions

    [filter] hands each expression to [eval].  The expressions modelled are
    the parse trees built from names, constants, tuples, [not], [and],
    [or] and the comparisons [==], [!=], [<], [<=], [>], [>=], [in] and
    [not in]; [a and b and c] is [a and (b and c)].  Calls, attribute
    access and subscripts are not among them: an expression of the model
    leaves the message as it is, where one that calls [msg.pop] or
    [msg.update] changes it, so what is proved of [filter] says what is
    yielded for each message in terms of what its evaluation gives, and
    nothing about one expression's effect on the next. *)

Inductive boolop : Type := And | Or.

Inductive cmpop : Type := Eq_ | NotEq | Lt_ | LtE | Gt_ | GtE | In | NotIn.

#[warnings="-register-all"]
Inductive expr : Type :=
| Name (id : string)
| Constant (value : Value)
| Tuple (elts : list expr)
| Not (operand : expr)
| BoolOp (op : boolop) (lhs rhs : expr)
| Compare (lhs : expr) (op : cmpop) (rhs : expr).

(** [hash(v)] does not raise. *)
Fixpoint hashable (v : Value) : bool :=
  match v with
  | VDict _ => false
  | VTuple elts => forallb hashable elts
  | _ => true
  end.

(** [x in container]. *)
Definition py_in (x container : Value) : result bool :=
  match container with
  | VTuple elts => Ok (existsb (py_eqb x) elts)
  | VDict entries =>
      if hashable x then
        Ok (match x with VStr k => dict_contains k entries | _ => false end)
      else Raise (TypeError ("unhashable type: '" +:+ type_name x +:+ "'"))
  | VStr hay =>
      match x with
      | VStr needle => Ok (str_in needle hay)
      | _ => Raise (TypeError
                      ("'in <string>' requires string as left operand, not "
                       +:+ type_name x))
      end
  | _ => Raise (TypeError ("argument of type '" +:+ type_name container
                           +:+ "' is not iterable"))
  end.

Definition compare_op (op : cmpop) (x y : Value) : result Value :=
  match op with
  | Eq_ => Ok (VBool (py_eqb x y))
  | NotEq => Ok (VBool (negb (py_eqb x y)))
  | Lt_ => c ←! py_order "<" x y;
           Ok (VBool match c with Lt => true | _ => false end)
  | LtE => c ←! py_order "<=" x y;
           Ok (VBool match c with Gt => false | _ => true end)
  | Gt_ => c ←! py_order ">" x y;
           Ok (VBool match c with Gt => true | _ => false end)
  | GtE => c ←! py_order ">=" x y;
           Ok (VBool match c with Lt => false | _ => true end)
  | In => b ←! py_in x y; Ok (VBool b)
  | NotIn => b ←! py_in x y; Ok (VBool (negb b))
  end.

(** A name is looked up in the locals, then in the globals, then in the
    dict under the globals' [__builtins__]. *)
Definition lookup_name (globals locals : dict string Value) (id : string)
    : result Value :=
  match dict_get id locals with
  | Some v => Ok v
  | None =>
      match dict_get id globals with
      | Some v => Ok v
      | None =>
          match dict_get "__builtins__" globals with
          | Some (VDict builtins) =>
              match dict_get id builtins with
              | Some v => Ok v
              | None => Raise (NameError ("name '" +:+ id +:+ "' is not defined"))
              end
          | _ => Raise (NameError ("name '" +:+ id +:+ "' is not defined"))
          end
      end
  end.

(** [eval(expr, globals, locals)]. *)
Fixpoint eval (globals locals : dict string Value) (e : expr)
    : result Value :=
  match e with
  | Name id => lookup_name globals locals id
  | Constant value => Ok value
  | Tuple elts =>
      vs ←! (fix each (es : list expr) : result (list Value) :=
               match es with
               | [] => Ok []
               | e' :: es' =>
                   v ←! eval globals locals e';
                   vs ←! each es';
                   Ok (v :: vs)
               end) elts;
      Ok (VTuple vs)
  | Not operand =>
      v ←! eval globals locals operand;
      Ok (VBool (negb (truthy v)))
  | BoolOp And lhs rhs =>
      v ←! eval globals locals lhs;
      if truthy v then eval globals locals rhs else Ok v
  | BoolOp Or lhs rhs =>
      v ←! eval globals locals lhs;
      if truthy v then Ok v else eval globals locals rhs
  | Compare lhs op rhs =>
      x ←! eval globals locals lhs;
      y ←! eval globals locals rhs;
      compare_op op x y
  end.

(** ** The module's namespace

    [globals()] inside [gpsdio/core.py] once the module is imported: the
    attributes every module has, the names the file binds, and
    [__builtins__], the dict of the [builtins] module (CPython 3.11). *)

Definition builtin (name : string) : string * Value := (name, VObject name).

Definition builtins_dict : dict string Value := [
  builtin "ArithmeticError"; builtin "AssertionError";
  builtin "AttributeError"; builtin "BaseException";
  builtin "BaseExceptionGroup"; builtin "BlockingIOError";
  builtin "BrokenPipeError"; builtin "BufferError"; builtin "BytesWarning";
  builtin "ChildProcessError"; builtin "ConnectionAbortedError";
  builtin "ConnectionError"; builtin "ConnectionRefusedError";
  builtin "ConnectionResetError"; builtin "DeprecationWarning";
  builtin "EOFError"; builtin "Ellipsis"; builtin "EncodingWarning";
  builtin "EnvironmentError"; builtin "Exception"; builtin "ExceptionGroup";
  ("False", VBool false); builtin "FileExistsError";
  builtin "FileNotFoundError"; builtin "FloatingPointError";
  builtin "FutureWarning"; builtin "GeneratorExit"; builtin "IOError";
  builtin "ImportError"; builtin "ImportWarning"; builtin "IndentationError";
  builtin "IndexError"; builtin "InterruptedError";
  builtin "IsADirectoryError"; builtin "KeyError";
  builtin "KeyboardInterrupt"; builtin "LookupError"; builtin "MemoryError";
  builtin "ModuleNotFoundError"; builtin "NameError"; ("None", VNone);
  builtin "NotADirectoryError"; builtin "NotImplemented";
  builtin "NotImplementedError"; builtin "OSError"; builtin "OverflowError";
  builtin "PendingDeprecationWarning"; builtin "PermissionError";
  builtin "ProcessLookupError"; builtin "RecursionError";
  builtin "ReferenceError"; builtin "ResourceWarning";
  builtin "RuntimeError"; builtin "RuntimeWarning";
  builtin "StopAsyncIteration"; builtin "StopIteration";
  builtin "SyntaxError"; builtin "SyntaxWarning"; builtin "SystemError";
  builtin "SystemExit"; builtin "TabError"; builtin "TimeoutError";
  ("True", VBool true); builtin "TypeError"; builtin "UnboundLocalError";
  builtin "UnicodeDecodeError"; builtin "UnicodeEncodeError";
  builtin "UnicodeError"; builtin "UnicodeTranslateError";
  builtin "UnicodeWarning"; builtin "UserWarning"; builtin "ValueError";
  builtin "Warning"; builtin "ZeroDivisionError"; builtin "__build_class__";
  ("__debug__", VBool true); builtin "__doc__"; builtin "__import__";
  builtin "__loader__"; builtin "__name__"; builtin "__package__";
  builtin "__spec__"; builtin "abs"; builtin "aiter"; builtin "all";
  builtin "anext"; builtin "any"; builtin "ascii"; builtin "bin";
  builtin "bool"; builtin "breakpoint"; builtin "bytearray"; builtin "bytes";
  builtin "callable"; builtin "chr"; builtin "classmethod";
  builtin "compile"; builtin "complex"; builtin "copyright";
  builtin "credits"; builtin "delattr"; builtin "dict"; builtin "dir";
  builtin "divmod"; builtin "enumerate"; builtin "eval"; builtin "exec";
  builtin "exit"; builtin "filter"; builtin "float"; builtin "format";
  builtin "frozenset"; builtin "getattr"; builtin "globals";
  builtin "hasattr"; builtin "hash"; builtin "help"; builtin "hex";
  builtin "id"; builtin "input"; builtin "int"; builtin "isinstance";
  builtin "issubclass"; builtin "iter"; builtin "len"; builtin "license";
  builtin "list"; builtin "locals"; builtin "map"; builtin "max";
  builtin "memoryview"; builtin "min"; builtin "next"; builtin "object";
  builtin "oct"; builtin "open"; builtin "ord"; builtin "pow";
  builtin "print"; builtin "property"; builtin "quit"; builtin "range";
  builtin "repr"; builtin "reversed"; builtin "round"; builtin "set";
  builtin "setattr"; builtin "slice"; builtin "sorted";
  builtin "staticmethod"; builtin "str"; builtin "sum"; builtin "super";
  builtin "tuple"; builtin "type"; builtin "vars"; builtin "zip"
].

Definition module_globals : dict string Value := [
  ("__name__", VStr "gpsdio.core");
  builtin "__doc__"; builtin "__package__"; builtin "__loader__";
  builtin "__spec__"; builtin "__file__"; builtin "__cached__";
  ("__builtins__", VDict builtins_dict);
  builtin "logging"; builtin "sys"; builtin "six"; builtin "schema";
  builtin "logger"; builtin "__all__"; builtin "open";
  builtin "GPSDIOStream"; builtin "filter"; builtin "sort"
].

(** ** Generators

    What a generator gives when it is run to its end: the items it yields
    and, if it does not finish, the exception that ends it. *)
Record generated : Type := mkGenerated {
  yielded : list Message;
  raised : option exn
}.

Definition gen_yield (msg : Message) (g : generated) : generated :=
  mkGenerated (msg :: yielded g) (raised g).

(** ** [filter] *)

(** [expressions]: one string, or a tuple of strings. *)
Inductive expressions : Type :=
| One (e : expr)
| Several (es : list expr).

Definition scope_blacklist : list string :=
  ["eval"; "compile"; "exec"; "execfile"; "builtin"; "builtins";
   "__builtin__"; "__builtins__"; "globals"; "locals"].

(** [{k: v for k, v in d.items() if k not in excluded}]. *)
Definition without (excluded : list string) (d : dict string Value)
    : dict string Value :=
  base.filter (λ kv, kv.1 ∉ excluded) d.

(** [global_scope], as [filter] builds it from [globals()]. *)
Definition global_scope (globals : dict string Value)
    : result (dict string Value) :=
  let scope := without ["builtins"; "__builtins__"] globals in
  match dict_get "__builtins__" globals with
  | Some (VDict builtins) =>
      let scope :=
        dict_set "__builtins__" (VDict (without scope_blacklist builtins))
                 scope in
      Ok (dict_set "builtins" (VDict (without scope_blacklist builtins)) scope)
  | Some v =>
      Raise (AttributeError ("'" +:+ type_name v +:+
                             "' object has no attribute 'items'"))
  | None => Raise (KeyError "__builtins__")
  end.

(** The loop over the expressions for one message: [true] when the [else]
    of the [for] is reached, [false] after a [break]. *)
Fixpoint passes (globals locals : dict string Value) (exprs : list expr)
    : result bool :=
  match exprs with
  | [] => Ok true
  | e :: rest =>
      let result :=
        match eval globals locals e with
        | Ok v => Ok (truthy v)
        | Raise err => if is_NameError err then Ok false else Raise err
        end in
      b ←! result;
      if negb b then Ok false else passes globals locals rest
  end.

(** [local_scope = msg.copy(); local_scope['msg'] = msg]. *)
Definition local_scope (msg : Message) : dict string Value :=
  dict_set "msg" (VDict msg) msg.

Fixpoint filter_loop (globals : dict string Value) (exprs : list expr)
    (stream : list Message) : generated :=
  match stream with
  | [] => mkGenerated [] None
  | msg :: rest =>
      match passes globals (local_scope msg) exprs with
      | Ok true => gen_yield msg (filter_loop globals exprs rest)
      | Ok false => filter_loop globals exprs rest
      | Raise e => mkGenerated [] (Some e)
      end
  end.

(** [filter(expressions, stream)], the stream being the messages a source
    yields. *)
Definition filter (expressions : expressions) (stream : list Message)
    : generated :=
  let exprs := match expressions with One e => [e] | Several es => es end in
  match global_scope module_globals with
  | Ok scope => filter_loop scope exprs stream
  | Raise e => mkGenerated [] (Some e)
  end.

(** The scope the expressions of [filter] are evaluated in: what
    [global_scope] gives for this module. *)
Definition eval_scope : dict string Value :=
  match global_scope module_globals with Ok scope => scope | Raise _ => [] end.

(** The names an expression refers to. *)
Fixpoint names (e : expr) : list string :=
  match e with
  | Name id => [id]
  | Constant _ => []
  | Tuple elts => flat_map names elts
  | Not operand => names operand
  | BoolOp _ lhs rhs => names lhs ++ names rhs
  | Compare lhs _ rhs => names lhs ++ names rhs
  end.

(** ** [heapq] and [queue.PriorityQueue]

    [six.moves.queue.PriorityQueue] keeps a list ordered as a binary heap
    with [heapq.heappush] and [heapq.heappop]; [put] and [get] are those
    two calls and [empty] tests the length.  The items are compared with
    [<] only, and a comparison that raises leaves the call. *)

(** [heap[i]]. *)
Definition item_at (heap : list Value) (i : nat) : result Value :=
  match heap !! i with
  | Some v => Ok v
  | None => Raise (OtherException "IndexError" "list index out of range")
  end.

(** The loop of [heapq._siftdown]: move [newitem] from [pos] towards
    [startpos] while it is smaller than its parent.  [pos] decreases at
    each turn, so [fuel = pos] turns are enough. *)
Fixpoint _siftdown_loop (fuel : nat) (newitem : Value) (heap : list Value)
    (startpos pos : nat) : result (list Value) :=
  match fuel with
  | O => Ok (<[pos := newitem]> heap)
  | S fuel' =>
      if bool_decide (startpos < pos)%nat then
        let parentpos := ((pos - 1) / 2)%nat in
        parent ←! item_at heap parentpos;
        smaller ←! py_lt newitem parent;
        if smaller then
          _siftdown_loop fuel' newitem (<[pos := parent]> heap)
                         startpos parentpos
        else Ok (<[pos := newitem]> heap)
      else Ok (<[pos := newitem]> heap)
  end.

(** [heapq._siftdown(heap, startpos, pos)]. *)
Definition _siftdown (heap : list Value) (startpos pos : nat)
    : result (list Value) :=
  newitem ←! item_at heap pos;
  _siftdown_loop pos newitem heap startpos pos.

(** The loop of [heapq._siftup]: bubble the smaller child up until a leaf
    is reached; it gives the heap and the leaf.  [pos] increases at each
    turn and stays below [endpos]. *)
Fixpoint _siftup_loop (fuel : nat) (heap : list Value) (endpos pos : nat)
    : result (list Value * nat) :=
  match fuel with
  | O => Ok (heap, pos)
  | S fuel' =>
      let childpos := (2 * pos + 1)%nat in
      if bool_decide (childpos < endpos)%nat then
        let rightpos := (childpos + 1)%nat in
        childpos ←!
          (if bool_decide (rightpos < endpos)%nat then
             l ←! item_at heap childpos;
             r ←! item_at heap rightpos;
             smaller ←! py_lt l r;
             Ok (if negb smaller then rightpos else childpos)
           else Ok childpos);
        child ←! item_at heap childpos;
        _siftup_loop fuel' (<[pos := child]> heap) endpos childpos
      else Ok (heap, pos)
  end.

(** [heapq._siftup(heap, pos)]. *)
Definition _siftup (heap : list Value) (pos : nat) : result (list Value) :=
  let endpos := length heap in
  let startpos := pos in
  newitem ←! item_at heap pos;
  leaf ←! _siftup_loop (endpos - pos) heap endpos pos;
  _siftdown (<[leaf.2 := newitem]> leaf.1) startpos leaf.2.

(** [heapq.heappush(heap, item)]. *)
Definition heappush (heap : list Value) (item : Value)
    : result (list Value) :=
  _siftdown (heap ++ [item]) 0 (length (heap ++ [item]) - 1).

(** [heapq.heappop(heap)]: the item popped and the heap left. *)
Definition heappop (heap : list Value) : result (Value * list Value) :=
  match reverse heap with
  | [] => Raise (OtherException "IndexError" "pop from empty list")
  | lastelt :: rest =>
      let heap := reverse rest in
      match heap with
      | [] => Ok (lastelt, [])
      | returnitem :: _ =>
          heap' ←! _siftup (<[0%nat := lastelt]> heap) 0;
          Ok (returnitem, heap')
      end
  end.

(** ** [sort] *)

(** The first loop of [sort]: every message that has [field] is put on the
    queue as the tuple [(msg[field], msg)]. *)
Fixpoint buffer (field : string) (stream : list Message)
    (queue : list Value) : result (list Value) :=
  match stream with
  | [] => Ok queue
  | msg :: rest =>
      match dict_get field msg with
      | Some v =>
          queue' ←! heappush queue (VTuple [v; VDict msg]);
          buffer field rest queue'
      | None => buffer field rest queue
      end
  end.

(** [item[1]], for an item of the queue. *)
Definition second (item : Value) : result Message :=
  match item with
  | VTuple (_ :: VDict msg :: _) => Ok msg
  | VTuple _ => Raise (OtherException "IndexError" "tuple index out of range")
  | _ => Raise (TypeError ("'" +:+ type_name item +:+
                           "' object is not subscriptable"))
  end.

(** The second loop of [sort]: [while not queue.empty(): yield
    queue.get()[1]].  Each turn takes one item off the queue. *)
Fixpoint drain (fuel : nat) (queue : list Value) : generated :=
  match fuel with
  | O => mkGenerated [] None
  | S fuel' =>
      match queue with
      | [] => mkGenerated [] None
      | _ :: _ =>
          match (popped ←! heappop queue;
                 msg ←! second popped.1;
                 Ok (msg, popped.2)) with
          | Ok (msg, queue') => gen_yield msg (drain fuel' queue')
          | Raise e => mkGenerated [] (Some e)
          end
      end
  end.

(** [sort(stream, field)], the stream being the messages a source yields.
    Nothing is yielded before the first loop is over. *)
Definition sort (stream : list Message) (field : string) : generated :=
  match buffer field stream [] with
  | Ok queue => drain (length queue) queue
  | Raise e => mkGenerated [] (Some e)
  end.

(** The tuples the first loop of [sort] puts on the queue, in order. *)
Definition entries (field : string) (stream : list Message) : list Value :=
  omap (λ msg, (λ v, VTuple [v; VDict msg]) <$> dict_get field msg) stream.

(** [queue.put(item)] for each item in turn. *)
Fixpoint put_all (items queue : list Value) : result (list Value) :=
  match items with
  | [] => Ok queue
  | item :: rest => queue' ←! heappush queue item; put_all rest queue'
  end.

End core.

(** * [gpsdio/drivers.py] *)

Module drivers.

(** [name.endswith(suffix)]. *)
Definition endswith (name suffix : string) : bool :=
  let n := String.length name in
  let k := String.length suffix in
  bool_decide (k ≤ n)%nat && String.eqb (String.substring (n - k) k name) suffix.

(** Modelled from the spec: a byte handle of [gpsdio.drivers], which is not
    among the sources; it is known by what it reads or writes. *)
Definition Handle : Type := string.

(** Modelled from the spec: the codec a container driver of
    [gpsdio.drivers] opens, known by the driver's name and by what it was
    opened on. *)
Definition Container : Type := string * @core.Target Handle.

(** Modelled from the spec: what a driver of [gpsdio.drivers] is opened
    on, as text. *)
Definition describe (target : @core.Target Handle) : string :=
  match target with core.Path p => p | core.FileObj f => f end.

(** Modelled from the spec: the compression drivers of [gpsdio.drivers],
    which is not among the sources.  A compression driver takes a handle
    and a mode and gives a handle with the same surface. *)
Definition GZIPDriver : @core.CompressionDriver Handle :=
  λ target mode options, Ok ("gzip(" +:+ describe target +:+ ")").

Definition BZ2Driver : @core.CompressionDriver Handle :=
  λ target mode options, Ok ("bz2(" +:+ describe target +:+ ")").

(** Modelled from the spec: the registry of compression drivers, by name. *)
Definition registered_compression : dict string (@core.CompressionDriver Handle) :=
  [("GZIP", GZIPDriver); ("BZ2", BZ2Driver)].

(** Modelled from the spec: detection of the compression, by a table of
    name suffixes; it fails with the [ValueError] that [open] catches. *)
Definition detect_compression_type (path : string)
    : result (@core.CompressionDriver Handle) :=
  if endswith path ".gz" then Ok GZIPDriver
  else if endswith path ".bz2" then Ok BZ2Driver
  else Raise (ValueError ("Can't determine compression type from path: "
                          +:+ path)).

(** Modelled from the spec: the container drivers, which open a handle
    into a codec. *)
Definition NewlineJSON : @core.IODriver Handle Container :=
  λ target mode options, Ok ("NewlineJSON", target).

Definition MsgPack : @core.IODriver Handle Container :=
  λ target mode options, Ok ("MsgPack", target).

(** Modelled from the spec: the registry of container drivers, by name. *)
Definition registered_drivers : dict string (@core.IODriver Handle Container) :=
  [("NewlineJSON", NewlineJSON); ("MsgPack", MsgPack)].

(** Modelled from the spec: the name of [gpsdio.drivers]' container
    detection, a recognized compression suffix stripped. *)
Definition strip_compression (name : string) : string :=
  if endswith name ".gz" then String.substring 0 (String.length name - 3) name
  else if endswith name ".bz2"
  then String.substring 0 (String.length name - 4) name
  else name.

(** Modelled from the spec: detection of the container format, by the
    suffix of the name once a compression suffix is stripped; failing is
    fatal. *)
Definition detect_file_type (name : option string)
    : result (@core.IODriver Handle Container) :=
  match name with
  | Some name =>
      let base := strip_compression name in
      if endswith base ".json" then Ok NewlineJSON
      else if endswith base ".msg" then Ok MsgPack
      else Raise (ValueError ("Can't determine driver from path: " +:+ name))
  | None => Raise (ValueError "Can't determine driver from path: None")
  end.

(** [gpsdio.open], with these drivers. *)
Definition open :=
  core.open detect_compression_type detect_file_type registered_compression
            registered_drivers "<stdin>" "<stdout>" (λ f : Handle, Some f).

End drivers.

(** * Examples *)

(** The table used in the examples: [timestamp] must be a string. *)
Definition example_import : core.coercions :=
  λ fld,
    if String.eqb fld "timestamp" then
      Some (λ v, match v with
                 | VStr _ => Ok v
                 | _ => Raise (ValueError "timestamp is not a string")
                 end)
    else None.

(** [mmsi == 366268061]. *)
Definition mmsi_is_366268061 : core.expr :=
  core.Compare (core.Name "mmsi") core.Eq_ (core.Constant (VInt 366268061)).

(** The message has [mmsi], and it is [==] to 366268061. *)
Definition has_mmsi_366268061 (msg : Message) : bool :=
  match dict_get "mmsi" msg with
  | Some v => py_eqb v (VInt 366268061)
  | None => false
  end.

(** Two reports of one second, from two vessels. *)
Definition report_a : Message := [("timestamp", VInt 1); ("mmsi", VInt 1)].
Definition report_b : Message := [("timestamp", VInt 1); ("mmsi", VInt 2)].

(** A report of the next second. *)
Definition report_c : Message := [("timestamp", VInt 2); ("mmsi", VInt 1)].

(** Two reports of one vessel, a day apart, with their timestamps as they
    are in a file. *)
Definition report_of_new_year : Message :=
  [("timestamp", VStr "2015-01-01T00:00:00Z"); ("mmsi", VInt 1)].
Definition report_of_next_day : Message :=
  [("timestamp", VStr "2015-01-02T00:00:00Z"); ("mmsi", VInt 1)].

(** A message without a timestamp. *)
Definition fieldless : Message := [("mmsi", VInt 3)].

(** A report of the vessel 366268061, with no other field. *)
Definition report_of_366268061 : Message := [("mmsi", VInt 366268061)].

(** [type != 1]. *)
Definition type_is_not_1 : core.expr :=
  core.Compare (core.Name "type") core.NotEq (core.Constant (VInt 1)).

(** [mmsi == 366268061 or lat == 0]. *)
Definition mmsi_or_lat : core.expr :=
  core.BoolOp core.Or mmsi_is_366268061
    (core.Compare (core.Name "lat") core.Eq_ (core.Constant (VInt 0))).

(** A file object open on [types.json.gz]. *)
Definition gz_file : @core.Target drivers.Handle := core.FileObj "types.json.gz".

(** * Heap order

    The predicates in which the queue of [sort] is described.  [R] is the
    order the items are expected to come out in. *)

(** [x] and [y] are two of the items of [l]: they are at two different
    places in it. *)
Definition pair_in {A} (l : list A) (x y : A) : Prop :=
  ∃ rest, l ≡ₚ x :: y :: rest.

Section HeapOrder.
Variable R : relation Value.

(** The parent of position [i] in the heap. *)
Definition parent (i : nat) : nat := (i - 1) / 2.

(** Every item is after its parent. *)
Definition heap_ordered (heap : list Value) : Prop :=
  ∀ i x p, (0 < i)%nat →
    heap !! i = Some x → heap !! parent i = Some p → R p x.

(** The same, but for the edges that touch [pos]. *)
Definition ordered_except (heap : list Value) (pos : nat) : Prop :=
  ∀ i x p, (0 < i)%nat → i ≠ pos → parent i ≠ pos →
    heap !! i = Some x → heap !! parent i = Some p → R p x.

(** The children of [pos] are after the parent of [pos]. *)
Definition grand_ok (heap : list Value) (pos : nat) : Prop :=
  ∀ c x g, (0 < pos)%nat → (0 < c)%nat → parent c = pos →
    heap !! c = Some x → heap !! parent pos = Some g → R g x.

(** The children of [pos] are after [newitem]. *)
Definition below (heap : list Value) (pos : nat) (newitem : Value) : Prop :=
  ∀ c x, (0 < c)%nat → parent c = pos → heap !! c = Some x → R newitem x.

(** Where [<] gives an answer for two of the items of [S], the answer
    is the one of [R], strictly. *)
Definition agrees (S : list Value) : Prop :=
  ∀ x y b, pair_in S x y → py_lt x y = Ok b → if b then R x y else R y x.

(** [e] is what comparing two of the items of [S] raises. *)
Definition fails_in (S : list Value) (e : exn) : Prop :=
  ∃ x y, pair_in S x y ∧ py_lt x y = Raise e.

(** A call on the queue either returns something that satisfies [post]
    or raises what a comparison of two items raises. *)
Definition or_fails {A} (S : list Value) (r : result A) (post : A → Prop)
    : Prop :=
  match r with Ok a => post a | Raise e => fails_in S e end.

(** A generator has run to its end and has yielded the second
    components of the items of [queue], in an order that [R] sorts. *)
Definition drained (queue : list Value) (g : core.generated) : Prop :=
  ∃ sorted,
    sorted ≡ₚ queue ∧
    StronglySorted R sorted ∧
    Forall2 (λ item msg, core.second item = Ok msg) sorted (core.yielded g) ∧
    core.raised g = None.
End HeapOrder.

(** The message an item of the queue carries, if it is one. *)
Definition carried (item : Value) : option Message :=
  match core.second item with Ok msg => Some msg | Raise _ => None end.

(** The number in the first component of an item of the queue. *)
Definition entry_key (item : Value) : option Q :=
  match item with
  | VTuple (key :: _) => as_number key
  | _ => None
  end.

(** The order of the items of the queue by their numbers. *)
Definition key_lt (x y : Value) : Prop :=
  ∃ p q, entry_key x = Some p ∧ entry_key y = Some q ∧ (p < q)%Q.

(** Every value of [field] in the stream is a number. *)
Definition numeric_field (field : string) (stream : list Message) : Prop :=
  ∀ msg v, msg ∈ stream → dict_get field msg = Some v → is_Some (as_number v).

(** [None], a number or a string: the values a field has in a message as
    it is read, tuples, dicts and other objects apart. *)
Definition scalar (v : Value) : bool :=
  match v with
  | VNone | VBool _ | VInt _ | VFloat _ | VStr _ => true
  | _ => false
  end.

(** Every value of [field] in the stream is [None], a number or a
    string. *)
Definition scalar_field (field : string) (stream : list Message) : Prop :=
  ∀ msg v, msg ∈ stream → dict_get field msg = Some v → scalar v = true.

(** The first component of an item of the queue. *)
Definition entry_value (item : Value) : option Value :=
  match item with
  | VTuple (key :: _) => Some key
  | _ => None
  end.

(** The order of the items of the queue by their values, where the values
    are scalars and [<] holds of them. *)
Definition scalar_lt (x y : Value) : Prop :=
  ∃ k1 k2, entry_value x = Some k1 ∧ entry_value y = Some k2 ∧
    scalar k1 = true ∧ scalar k2 = true ∧ py_lt k1 k2 = Ok true.

(** No two messages of the stream have values of [field] that are [==]. *)
Definition distinct_values (field : string) (stream : list Message) : Prop :=
  ∀ m1 m2 v1 v2, pair_in stream m1 m2 →
    dict_get field m1 = Some v1 → dict_get field m2 = Some v2 →
    py_eqb v1 v2 = false.

(** No two messages of the stream that have [field] are [==]. *)
Definition distinct_messages (field : string) (stream : list Message) : Prop :=
  ∀ m1 m2, pair_in stream m1 m2 →
    is_Some (dict_get field m1) → is_Some (dict_get field m2) →
    py_eqb (VDict m1) (VDict m2) = false.

(** The value of [field] in [m1] is a smaller number than in [m2]. *)
Definition ascending (field : string) (m1 m2 : Message) : Prop :=
  ∃ v1 v2 p q,
    dict_get field m1 = Some v1 ∧ dict_get field m2 = Some v2 ∧
    as_number v1 = Some p ∧ as_number v2 = Some q ∧ (p < q)%Q.


(** An expression evaluates truthy against a message, in the scope of
    [filter]. *)
Definition holds (msg : Message) (e : core.expr) : Prop :=
  ∃ v, core.eval core.eval_scope (core.local_scope msg) e = Ok v ∧
       truthy v = true.

(** * What the methods leave behind, record by record *)

(** The item [__next__] returns for a record when failures are skipped: the
    coerced message, or [None] for a record that fails. *)
Definition item_of (imp : core.coercions) (convert : bool)
    (record : result Message) : option Message :=
  match core.imported imp convert record with
  | Ok msg => Some msg
  | Raise _ => None
  end.

(** The record [__next__] gives to the logger for a record that fails. *)
Definition logged_for (imp : core.coercions) (convert : bool)
    (record : result Message) : option string :=
  match core.imported imp convert record with
  | Ok _ => None
  | Raise e => Some (str_exn e)
  end.

(** The record is well-formed, or fails with an [Exception] that is not
    [StopIteration]. *)
Definition skippable (imp : core.coercions) (convert : bool)
    (record : result Message) : Prop :=
  ∀ e, core.imported imp convert record = Raise e →
       is_Exception e = true ∧ is_StopIteration e = false.

(** The coercion of one field of a message: the name is kept and the value
    goes through the function of the table, if there is one. *)
Definition coerced (fns : core.coercions) (item item' : string * Value)
    : Prop :=
  item'.1 = item.1 ∧ default Ok (fns item.1) item.2 = Ok item'.2.

(** Every expression holds for the message, in the scope [globals]. *)
Definition passes_all (globals : dict string Value) (exprs : list core.expr)
    (msg : Message) : bool :=
  match core.passes globals (core.local_scope msg) exprs with
  | Ok true => true
  | _ => false
  end.

(** The value the last of the tables that have [k] gives it. *)
Definition last_binding {K V} `{EqDecision K} (k : K)
    (tables : list (dict K V)) : option V :=
  foldl (λ found table,
           match dict_get k table with Some v => Some v | None => found end)
        None tables.

(** The tables the entry points that load give, in order. *)
Definition loaded {T} (eps : list (result T)) : list T :=
  omap (λ ep, match ep with Ok t => Some t | Raise _ => None end) eps.

(** The order that asks nothing of the queue: any two items are in it. *)
Definition any_order : relation Value := λ _ _, True.

(** * Properties *)

(** ** Dictionaries *)

Section DictFacts.
Context {K V : Type} `{EqDecision K}.
Implicit Types (d : dict K V) (k : K) (v : V).

Lemma dict_get_set_eq d k v : dict_get k (dict_set k v d) = Some v.
Proof.
  induction d as [|[k' v'] d IH]; simpl.
  - by rewrite bool_decide_true.
  - destruct (decide (k = k')) as [->|Hne].
    + rewrite bool_decide_true by done. simpl. by rewrite bool_decide_true.
    + rewrite bool_decide_false by done. simpl.
      by rewrite bool_decide_false.
Qed.

Lemma dict_get_set_ne d k k' v :
  k' ≠ k → dict_get k' (dict_set k v d) = dict_get k' d.
Proof.
  intros Hne. induction d as [|[k0 v0] d IH]; simpl.
  - by rewrite bool_decide_false.
  - destruct (decide (k = k0)) as [->|Hk].
    + rewrite bool_decide_true by done. simpl.
      by rewrite !bool_decide_false.
    + rewrite (bool_decide_false (k = k0)) by done. simpl.
      by rewrite IH.
Qed.

Lemma dict_get_None d k : dict_get k d = None ↔ k ∉ dict_keys d.
Proof.
  unfold dict_keys. induction d as [|[k' v'] d IH]; simpl.
  - split; [intros _; apply not_elem_of_nil | done].
  - rewrite not_elem_of_cons. case_bool_decide; [|tauto].
    split; [done|]. intros [? _]. done.
Qed.
End DictFacts.

(** ** The message stream *)

Section StreamFacts.
Import core.
Variable imp exp : coercions.

(** One pull of a scripted stream that is open for reading. *)
Lemma next_scripted r rest w cv sf :
  __next__ imp (mkStream (mkScripted (r :: rest) w false) "r" cv sf)
  = match imported imp cv r with
    | Ok msg =>
        mkOutcome (Ok (Some msg))
                  (mkStream (mkScripted rest w false) "r" cv sf) []
    | Raise e =>
        if is_StopIteration e
        then mkOutcome (Raise e)
                       (mkStream (mkScripted rest w false) "r" cv sf) []
        else handle (mkStream (mkScripted rest w false) "r" cv sf) e
    end.
Proof. reflexivity. Qed.

Lemma next_exhausted w cv sf :
  __next__ imp (mkStream (mkScripted [] w false) "r" cv sf)
  = mkOutcome (Raise StopIteration)
              (mkStream (mkScripted [] w false) "r" cv sf) [].
Proof. reflexivity. Qed.

(** Iterating over well-formed records yields them, coerced, one per
    call. *)
Lemma iterate_well_formed pre good rest w cv sf fuel :
  Forall2 (λ r m, imported imp cv r = Ok m) pre good →
  let s := mkStream (mkScripted (pre ++ rest) w false) "r" cv sf in
  let s' := mkStream (mkScripted rest w false) "r" cv sf in
  iterate imp (length pre + fuel) s
  = mkIteration ((Some <$> good) ++ items (iterate imp fuel s'))
                (stopped (iterate imp fuel s'))
                (final (iterate imp fuel s'))
                (log (iterate imp fuel s')).
Proof.
  intros Hgood. induction Hgood as [|r m pre good Hr _ IH]; simpl.
  - by destruct (iterate imp fuel _).
  - rewrite next_scripted, Hr. simpl in *. by rewrite IH.
Qed.

Lemma iterate_exhausted w cv sf fuel :
  iterate imp (S fuel) (mkStream (mkScripted [] w false) "r" cv sf)
  = mkIteration [] (Some StopIteration)
                (mkStream (mkScripted [] w false) "r" cv sf) [].
Proof. reflexivity. Qed.

Lemma iterate_to_end pre good w cv sf fuel :
  Forall2 (λ r m, imported imp cv r = Ok m) pre good →
  iterate imp (length pre + S fuel)
          (mkStream (mkScripted pre w false) "r" cv sf)
  = mkIteration (Some <$> good) (Some StopIteration)
                (mkStream (mkScripted [] w false) "r" cv sf) [].
Proof.
  intros Hgood.
  pose proof (iterate_well_formed pre good [] w cv sf (S fuel) Hgood) as Hit.
  simpl in Hit. rewrite !app_nil_r in Hit. exact Hit.
Qed.

Lemma messages_app its its' :
  messages (its ++ its') = messages its ++ messages its'.
Proof. apply omap_app. Qed.

Lemma messages_None_cons its : messages (None :: its) = messages its.
Proof. reflexivity. Qed.

Lemma messages_Some (ms : list Message) : messages (Some <$> ms) = ms.
Proof. induction ms; simpl; by f_equal. Qed.

(** C1.  A read stream over a codec that gives the records [pre], then a
    malformed record [bad], then the records [post], where a record is
    well-formed when pull and coercion succeed and malformed when one of
    them raises an exception [e] that is not [StopIteration].  With
    [skip_failures] set, iterating returns one item per record: the
    coerced messages of [pre] and [post], in order, and [None] for the
    failed step, so exactly [length pre + length post] messages; the
    failure is logged once and the iteration ends with [StopIteration].
    With [skip_failures] unset, iterating yields the messages of [pre],
    then raises [e] (logged once); the stream is still open, and the
    calls that follow yield the messages of [post]. *)
Theorem skip_failures_policy (cv : bool)
    (pre post : list (result Message)) (bad : result Message)
    (good_pre good_post : list Message) (e : exn) (w : list Message)
    (fuel : nat) :
  Forall2 (λ r m, imported imp cv r = Ok m) pre good_pre →
  Forall2 (λ r m, imported imp cv r = Ok m) post good_post →
  imported imp cv bad = Raise e →
  is_Exception e = true →
  is_StopIteration e = false →
  (length (pre ++ bad :: post) < fuel)%nat →
  let source := mkScripted (pre ++ bad :: post) w false in
  (let it := iterate imp fuel (mkStream source "r" cv true) in
   items it = (Some <$> good_pre) ++ None :: (Some <$> good_post) ∧
   messages (items it) = good_pre ++ good_post ∧
   length (messages (items it)) = (length pre + length post)%nat ∧
   stopped it = Some StopIteration ∧
   log it = [str_exn e]) ∧
  (let it := iterate imp fuel (mkStream source "r" cv false) in
   items it = Some <$> good_pre ∧
   stopped it = Some e ∧
   log it = [str_exn e] ∧
   closed (final it) = false ∧
   let again := iterate imp fuel (final it) in
   items again = Some <$> good_post ∧
   stopped again = Some StopIteration).
Proof.
  intros Hpre Hpost Hbad Hexc Hstop Hfuel source.
  rewrite length_app in Hfuel. simpl in Hfuel.
  assert (is_handled : ∀ s : GPSDIOStream Scripted,
    handle (R := Message) s e
    = mkOutcome (if negb (skip_failures s) then Raise e else Ok None)
                s [str_exn e]).
  { intros s. unfold handle. by rewrite Hexc. }
  split.
  - replace fuel
      with (length pre
            + S (length post + S (fuel - length pre - length post - 2)))%nat
      by lia.
    subst source. rewrite (iterate_well_formed _ _ _ _ _ _ _ Hpre).
    cbn [iterate items stopped final log].
    rewrite next_scripted, Hbad, Hstop, is_handled.
    cbn [returned after logged skip_failures negb].
    rewrite (iterate_to_end _ _ _ _ _ _ Hpost).
    cbn [items stopped final log].
    rewrite messages_app, messages_None_cons, !messages_Some.
    repeat split; try done.
    rewrite length_app.
    by rewrite <- (Forall2_length _ _ _ Hpre), <- (Forall2_length _ _ _ Hpost).
  - assert (iterate imp fuel (mkStream source "r" cv false)
            = mkIteration (Some <$> good_pre) (Some e)
                (mkStream (mkScripted post w false) "r" cv false)
                [str_exn e]) as ->.
    { replace fuel with (length pre + S (fuel - length pre - 1))%nat by lia.
      subst source. rewrite (iterate_well_formed _ _ _ _ _ _ _ Hpre).
      cbn [iterate items stopped final log].
      rewrite next_scripted, Hbad, Hstop, is_handled.
      cbn [returned after logged skip_failures negb items stopped final log].
      by rewrite app_nil_r. }
    cbn [items stopped final log].
    replace fuel with (length post + S (fuel - length post - 1))%nat by lia.
    by rewrite (iterate_to_end _ _ _ _ _ _ Hpost).
Qed.
End StreamFacts.

Lemma skip_failures_policy_witness :
  core.items
    (core.iterate example_import 4
       (core.mkStream
          (core.mkScripted
             [Ok [("mmsi", VInt 1)];
              Ok [("mmsi", VInt 2); ("timestamp", VInt 0)];
              Ok [("mmsi", VInt 3)]] [] false)
          "r" true true))
  = [Some [("mmsi", VInt 1)]; None; Some [("mmsi", VInt 3)]].
Proof.
  destruct (skip_failures_policy example_import true
              [Ok [("mmsi", VInt 1)]] [Ok [("mmsi", VInt 3)]]
              (Ok [("mmsi", VInt 2); ("timestamp", VInt 0)])
              [[("mmsi", VInt 1)]] [[("mmsi", VInt 3)]]
              (ValueError "timestamp is not a string") [] 4)
    as [[Hitems _] _].
  - repeat constructor.
  - repeat constructor.
  - reflexivity.
  - reflexivity.
  - reflexivity.
  - simpl. lia.
  - exact Hitems.
Defined.

Section StreamModes.
Import core.
Context {C : Type} `{Codec C}.
Variable imp exp : coercions.

(** C5.  On a stream open for reading, when the pull from the wrapped
    codec raises [StopIteration], [__next__] raises [StopIteration] and
    logs nothing, whatever [skip_failures] and [convert] are. *)
Theorem end_of_stream_propagates (s : GPSDIOStream C) :
  mode s = "r" →
  closed s = false →
  (codec_next (_stream s)).1 = Raise StopIteration →
  returned (__next__ imp s) = Raise StopIteration ∧
  logged (__next__ imp s) = [].
Proof.
  intros Hmode Hopen Hpull. unfold __next__.
  rewrite Hmode, Hopen. simpl.
  destruct (codec_next (_stream s)) as [pulled c]. simpl in Hpull.
  subst pulled. done.
Qed.

(** C6.  On a stream constructed with mode ['r'], [write] raises the
    [IOError] for a stream not open for writing; on a stream constructed
    with mode ['w'] or ['a'], [__next__] raises the [IOError] for a stream
    not open for reading.  This holds for every wrapped codec, open or
    closed, every message and both flags; the failure is neither logged
    nor subject to [skip_failures], the stream is left as it was, and no
    method changes the mode. *)
Theorem wrong_mode_fails (c : C) (cv sf : bool) (msg : Message) :
  (let s := mkStream c "r" cv sf in
   write exp s msg
   = mkOutcome (Raise (IOError "Stream not open for writing")) s []) ∧
  (let s := mkStream c "w" cv sf in
   __next__ imp s
   = mkOutcome (Raise (IOError "Stream not open for reading")) s []) ∧
  (let s := mkStream c "a" cv sf in
   __next__ imp s
   = mkOutcome (Raise (IOError "Stream not open for reading")) s []) ∧
  (∀ s : GPSDIOStream C,
     mode (after (__next__ imp s)) = mode s ∧
     mode (after (write exp s msg)) = mode s ∧
     mode (after (close s)) = mode s).
Proof.
  repeat split.
  - unfold __next__, handle. repeat case_match; done.
  - unfold write, handle. repeat case_match; done.
  - unfold close. by case_match.
Qed.

(** A field that neither table knows goes through [import] and [export]
    unchanged. *)
Lemma unknown_field_round_trip (fld : string) (v : Value) :
  imp fld = None → exp fld = None →
  dictcomp imp [(fld, v)] [] = Ok [(fld, v)] ∧
  dictcomp exp [(fld, v)] [] = Ok [(fld, v)].
Proof. intros Himp Hexp. simpl. by rewrite Himp, Hexp. Qed.
End StreamModes.

Lemma end_of_stream_propagates_witness :
  core.returned
    (core.__next__ example_import
       (core.mkStream (core.mkScripted [] [] false) "r" true true))
  = Raise StopIteration.
Proof.
  apply (end_of_stream_propagates example_import
           (core.mkStream (core.mkScripted [] [] false) "r" true true));
    reflexivity.
Defined.

(** ** The schema engine *)

Section SchemaFacts.
Import schema.

(** Merging one table into what has been merged so far puts the table's
    names in front of the names already there. *)
Lemma merge_table_lookup (fdef out : dict Z (list string)) (T : Z) :
  NoDup (dict_keys fdef) →
  dict_get T (foldl merge_step out fdef)
  = match dict_get T fdef with
    | Some f => Some (f ++ from_option id [] (dict_get T out))
    | None => dict_get T out
    end.
Proof.
  revert out. induction fdef as [|[k f] rest IH]; intros out Hnd; [done|].
  apply NoDup_cons in Hnd as [Hk Hnd]. simpl.
  rewrite (IH _ Hnd). unfold merge_step at 1 2. simpl.
  case_bool_decide as HT.
  - subst k. apply (dict_get_None rest T) in Hk. rewrite Hk.
    by rewrite dict_get_set_eq.
  - rewrite dict_get_set_ne by done. done.
Qed.

(** C3, as the code has it.  When a message type is listed in both
    tables, the merged tuple is the second table's names followed by the
    first table's: nothing is collapsed, and a name listed in both
    occurs at least twice. *)
Theorem merge_fields_by_type_keeps_duplicates
    (a b : dict Z (list string)) (T : Z) (fa fb : list string)
    (fld : string) :
  NoDup (dict_keys a) →
  NoDup (dict_keys b) →
  dict_get T a = Some fa →
  dict_get T b = Some fb →
  fld ∈ fa →
  fld ∈ fb →
  dict_get T (merge_fields_by_type [a; b]) = Some (fb ++ fa) ∧
  ¬ NoDup (fb ++ fa).
Proof.
  intros Ha Hb HTa HTb Hfa Hfb. split.
  - unfold merge_fields_by_type. simpl.
    rewrite (merge_table_lookup b _ T Hb), HTb.
    rewrite (merge_table_lookup a _ T Ha), HTa. simpl.
    by rewrite app_nil_r.
  - intros Hnd. apply NoDup_app in Hnd as (_ & Hdisj & _).
    by apply (Hdisj fld).
Qed.

(** C2, as the code has it.  [build_schema] asks each definition for the
    key [sub_name], which no built-in definition has; the alias of
    [speed9] is under the key [name].  In the schema built from the
    built-in tables, type 9 has the key [speed9], bound to the definition
    of [speed9], and no key [speed]. *)
Theorem build_schema_ignores_name :
  ∃ out definition,
    build_schema [] [] None None true = Ok out ∧
    dict_get 9 out = Some definition ∧
    name <$> dict_get "speed9" _FIELDS = Some (Some "speed") ∧
    sub_name <$> dict_get "speed9" _FIELDS = Some None ∧
    dict_get "speed" definition = None ∧
    dict_get "speed9" definition = dict_get "speed9" _FIELDS.
Proof.
  eexists _, _. split; [vm_compute; reflexivity|].
  split; [vm_compute; reflexivity|].
  repeat split; vm_compute; reflexivity.
Qed.
End SchemaFacts.

Lemma merge_fields_by_type_keeps_duplicates_witness :
  dict_get 1 (schema.merge_fields_by_type [[(1, ["mmsi"])]; [(1, ["mmsi"])]])
  = Some ["mmsi"; "mmsi"].
Proof.
  apply (merge_fields_by_type_keeps_duplicates
           [(1, ["mmsi"])] [(1, ["mmsi"])] 1 ["mmsi"] ["mmsi"] "mmsi").
  - repeat constructor. apply not_elem_of_nil.
  - repeat constructor. apply not_elem_of_nil.
  - reflexivity.
  - reflexivity.
  - apply list_elem_of_here.
  - apply list_elem_of_here.
Defined.

(** ** The factory *)

Section OpenFacts.
Import core.
Context {Handle C : Type}.
Variable detect_compression_type :
  string → result (@CompressionDriver Handle).
Variable detect_file_type : option string → result (@IODriver Handle C).
Variable registered_compression : dict string (@CompressionDriver Handle).
Variable registered_drivers : dict string (@IODriver Handle C).
Variable stdin stdout : Handle.
Variable name_of : Handle → option string.

Abbreviation open' :=
  (open detect_compression_type detect_file_type registered_compression
        registered_drivers stdin stdout name_of).

Abbreviation opened_through' :=
  (opened_through detect_file_type registered_drivers name_of).

(** C9, amended.  Without a compression argument: a string path is given
    to [detect_compression_type]; the driver detected is used, and when
    the detection raises [ValueError] the path itself goes to the
    container driver.  For a file-like target nothing is detected: the
    object itself goes to the container driver, whatever its name. *)
Theorem open_without_compression (path : Target) (mode : string)
    (dmode cmode compression driver : option string)
    (do co : option Options) (kwargs : StreamKwargs) :
  given compression = None →
  match standard_stream stdin stdout path mode with
  | Path p =>
      (∀ comp, detect_compression_type p = Ok comp →
         open' path mode dmode cmode compression driver do co kwargs
         = opened_through' (Some comp) (Path p) mode dmode cmode driver
                          do co kwargs) ∧
      (∀ e, detect_compression_type p = Raise e →
         is_ValueError e = true →
         open' path mode dmode cmode compression driver do co kwargs
         = opened_through' None (Path p) mode dmode cmode driver
                          do co kwargs)
  | FileObj f =>
      open' path mode dmode cmode compression driver do co kwargs
      = opened_through' None (FileObj f) mode dmode cmode driver
                       do co kwargs
  end.
Proof.
  intros Hcomp. unfold open, opened_through.
  destruct (standard_stream stdin stdout path mode) as [p|f];
    rewrite Hcomp.
  - split.
    + intros comp ->.
      destruct (given driver) as [d|];
        [destruct (subscript registered_drivers d)
        |destruct (detect_file_type (Some p))]; done.
    + intros e -> ->.
      destruct (given driver) as [d|];
        [destruct (subscript registered_drivers d)
        |destruct (detect_file_type (Some p))]; done.
  - destruct (given driver) as [d|];
      [destruct (subscript registered_drivers d)
      |destruct (detect_file_type (name_of f))]; done.
Qed.
End OpenFacts.

Lemma open_without_compression_witness :
  drivers.open (core.Path "types.json") "r" None None None None None None
               (core.mkKwargs None None)
  = Ok (core.mkStream ("NewlineJSON", core.Path "types.json") "r" true false).
Proof.
  pose proof (open_without_compression
                drivers.detect_compression_type drivers.detect_file_type
                drivers.registered_compression drivers.registered_drivers
                "<stdin>" "<stdout>" (λ f : drivers.Handle, Some f)
                (core.Path "types.json") "r" None None None None None None
                (core.mkKwargs None None) eq_refl) as [_ Hraw].
  unfold drivers.open. rewrite (Hraw _ eq_refl eq_refl). reflexivity.
Defined.

(** C9, as stated, fails for a file object named [types.json.gz]: the
    detection succeeds on its name, and [open] does not use what it
    detects but hands the object itself to the container driver. *)
Lemma open_detects_nothing_for_file_objects :
  drivers.detect_compression_type "types.json.gz" = Ok drivers.GZIPDriver ∧
  drivers.open gz_file "r" None None None None None None
               (core.mkKwargs None None)
  = Ok (core.mkStream ("NewlineJSON", gz_file) "r" true false) ∧
  ¬ (∀ comp,
       drivers.detect_compression_type "types.json.gz" = Ok comp →
       drivers.open gz_file "r" None None None None None None
                    (core.mkKwargs None None)
       = core.opened_through drivers.detect_file_type
           drivers.registered_drivers (λ f : drivers.Handle, Some f)
           (Some comp) gz_file "r" None None None None None
           (core.mkKwargs None None)).
Proof.
  split; [reflexivity|]. split; [reflexivity|].
  intros Hclaim. specialize (Hclaim _ eq_refl). vm_compute in Hclaim.
  discriminate.
Qed.

(** ** [filter] *)

Section FilterFacts.
Import core.

Lemma global_scope_eval_scope : global_scope module_globals = Ok eval_scope.
Proof. vm_compute. reflexivity. Qed.

Lemma filter_eq expressions stream :
  core.filter expressions stream
  = filter_loop eval_scope
      (match expressions with One e => [e] | Several es => es end) stream.
Proof. unfold core.filter. by rewrite global_scope_eval_scope. Qed.

Lemma passes_true globals locals exprs :
  passes globals locals exprs = Ok true →
  Forall (λ e, ∃ v, eval globals locals e = Ok v ∧ truthy v = true) exprs.
Proof.
  induction exprs as [|e rest IH]; simpl; [constructor|].
  destruct (eval globals locals e) as [v|err] eqn:He; simpl.
  - destruct (truthy v) eqn:Hv; simpl; [|done].
    intros Hrest. constructor; eauto.
  - destruct (is_NameError err); simpl; done.
Qed.

Lemma filter_loop_yielded globals exprs stream msg :
  msg ∈ yielded (filter_loop globals exprs stream) →
  msg ∈ stream ∧ passes globals (local_scope msg) exprs = Ok true.
Proof.
  induction stream as [|m rest IH]; simpl.
  - intros Hin. by apply elem_of_nil in Hin.
  - destruct (passes globals (local_scope m) exprs) as [[]|err] eqn:Hm;
      simpl.
    + intros [->|Hin]%elem_of_cons.
      * split; [apply list_elem_of_here | done].
      * destruct (IH Hin). split; [by apply list_elem_of_further | done].
    + intros Hin. destruct (IH Hin).
      split; [by apply list_elem_of_further | done].
    + intros Hin. by apply elem_of_nil in Hin.
Qed.

(** Expressions that hold are passed over; one that raises [NameError]
    ends the loop with a failure, whatever follows it. *)
Lemma passes_NameError globals locals before e after name :
  Forall (λ e, ∃ v, eval globals locals e = Ok v ∧ truthy v = true) before →
  eval globals locals e = Raise (NameError name) →
  passes globals locals (before ++ e :: after) = Ok false.
Proof.
  intros Hbefore He. induction Hbefore as [|e' before (v & Hv & Ht) _ IH];
    simpl.
  - by rewrite He.
  - rewrite Hv. simpl. by rewrite Ht.
Qed.

Lemma mmsi_not_global :
  lookup_name eval_scope [] "mmsi"
  = Raise (NameError "name 'mmsi' is not defined").
Proof. vm_compute. reflexivity. Qed.

Lemma lookup_name_local globals locals id :
  lookup_name globals locals id
  = match dict_get id locals with
    | Some v => Ok v
    | None => lookup_name globals [] id
    end.
Proof. unfold lookup_name. simpl. by destruct (dict_get id locals). Qed.

Lemma eval_mmsi msg :
  eval eval_scope (local_scope msg) mmsi_is_366268061
  = match dict_get "mmsi" msg with
    | Some v => Ok (VBool (py_eqb v (VInt 366268061)))
    | None => Raise (NameError "name 'mmsi' is not defined")
    end.
Proof.
  unfold mmsi_is_366268061, local_scope. cbn [eval].
  rewrite lookup_name_local, dict_get_set_ne by done.
  destruct (dict_get "mmsi" msg) as [v|]; [done|].
  by rewrite mmsi_not_global.
Qed.

Lemma passes_mmsi msg :
  passes eval_scope (local_scope msg) [mmsi_is_366268061]
  = Ok (has_mmsi_366268061 msg).
Proof.
  unfold has_mmsi_366268061. cbn [passes]. rewrite eval_mmsi.
  destruct (dict_get "mmsi" msg) as [v|]; simpl; [|done].
  by destruct (py_eqb v (VInt 366268061)).
Qed.

Lemma filter_loop_mmsi stream :
  filter_loop eval_scope [mmsi_is_366268061] stream
  = mkGenerated (List.filter has_mmsi_366268061 stream) None.
Proof.
  induction stream as [|msg rest IH]; [done|].
  cbn [filter_loop List.filter]. rewrite passes_mmsi, IH.
  by destruct (has_mmsi_366268061 msg).
Qed.

(** C7, amended.  A message that [filter] yields comes from the stream
    and every expression evaluates truthy against it.  An expression
    whose evaluation raises [NameError], because it comes to a name that
    is bound neither by the message nor by the scope of the evaluation,
    counts as false: the message is left out, no error is raised and the
    expressions after it are not evaluated.  For [mmsi == 366268061] the
    messages yielded are exactly those that have [mmsi] equal to
    366268061, and no stream makes the filter raise. *)
Theorem filter_yields_what_holds :
  (∀ expressions stream msg,
     msg ∈ yielded (core.filter expressions stream) →
     msg ∈ stream ∧
     Forall (holds msg)
            (match expressions with One e => [e] | Several es => es end)) ∧
  (∀ before e after name msg stream,
     Forall (holds msg) before →
     eval eval_scope (local_scope msg) e = Raise (NameError name) →
     passes eval_scope (local_scope msg) (before ++ e :: after) = Ok false ∧
     core.filter (Several (before ++ e :: after)) (msg :: stream)
     = core.filter (Several (before ++ e :: after)) stream) ∧
  (∀ stream,
     core.filter (One mmsi_is_366268061) stream
     = mkGenerated (List.filter has_mmsi_366268061 stream) None).
Proof.
  split; [|split].
  - intros expressions stream msg. rewrite filter_eq.
    intros [Hin Hpass]%filter_loop_yielded.
    split; [done|]. by apply passes_true.
  - intros before e after name msg stream Hbefore He.
    pose proof (passes_NameError _ _ _ _ after _ Hbefore He) as Hpass.
    split; [done|]. rewrite !filter_eq. simpl. by rewrite Hpass.
  - intros stream. rewrite filter_eq. apply filter_loop_mmsi.
Qed.

(** C7, as stated, fails.  [type != 1] refers to the field [type], which
    the message does not have; [type] is then the built-in of that name,
    the expression is true and the message is yielded.  [mmsi ==
    366268061 or lat == 0] refers to [lat], which the message does not
    have; [or] does not come to it, and the message is yielded. *)
Lemma filter_yields_despite_absent_field :
  ("type" ∈ names type_is_not_1 ∧
   dict_contains "type" report_of_366268061 = false ∧
   core.filter (One type_is_not_1) [report_of_366268061]
   = mkGenerated [report_of_366268061] None) ∧
  ("lat" ∈ names mmsi_or_lat ∧
   dict_contains "lat" report_of_366268061 = false ∧
   core.filter (One mmsi_or_lat) [report_of_366268061]
   = mkGenerated [report_of_366268061] None).
Proof.
  repeat split; try (vm_compute; reflexivity).
  - apply list_elem_of_here.
  - simpl. apply list_elem_of_further, list_elem_of_here.
Qed.
End FilterFacts.

(** ** [sort] *)

Section SortFacts.
Import core.

(** Messages that lack the field are passed over by the first loop. *)
Lemma buffer_fieldless field fieldless rest queue :
  Forall (λ msg, dict_get field msg = None) fieldless →
  buffer field (fieldless ++ rest) queue = buffer field rest queue.
Proof.
  induction 1 as [|msg fieldless Hmsg _ IH]; simpl; [done|].
  by rewrite Hmsg.
Qed.

Lemma entries_fieldless field fieldless :
  Forall (λ msg, dict_get field msg = None) fieldless →
  entries field fieldless = [].
Proof.
  induction 1 as [|msg fieldless Hmsg _ IH]; [done|].
  unfold entries in *. simpl. by rewrite Hmsg.
Qed.

Lemma entries_app field s1 s2 :
  entries field (s1 ++ s2) = entries field s1 ++ entries field s2.
Proof. apply omap_app. Qed.

Lemma entries_cons field msg v rest :
  dict_get field msg = Some v →
  entries field (msg :: rest) = VTuple [v; VDict msg] :: entries field rest.
Proof. intros Hv. unfold entries. simpl. by rewrite Hv. Qed.

(** The first loop puts the entries on the queue one after the other. *)
Lemma buffer_entries field stream queue :
  buffer field stream queue = put_all (entries field stream) queue.
Proof.
  revert queue. induction stream as [|msg rest IH]; intros queue; [done|].
  cbn [buffer]. destruct (dict_get field msg) as [v|] eqn:Hv.
  - rewrite (entries_cons _ _ _ _ Hv). cbn [put_all].
    destruct (heappush queue _); simpl; [apply IH | done].
  - rewrite IH. unfold entries. simpl. by rewrite Hv.
Qed.

(** The example of C8: three messages with the timestamps 3, 1 and 2, in
    that order, and any number of messages without a timestamp before,
    between and after them.  [sort] yields the three messages in the
    order 1, 2, 3 and nothing else. *)
Lemma sort_three (m3 m1 m2 : Message) (f0 f1 f2 f3 : list Message) :
  dict_get "timestamp" m3 = Some (VInt 3) →
  dict_get "timestamp" m1 = Some (VInt 1) →
  dict_get "timestamp" m2 = Some (VInt 2) →
  Forall (λ msg, dict_get "timestamp" msg = None) (f0 ++ f1 ++ f2 ++ f3) →
  sort (f0 ++ m3 :: f1 ++ m1 :: f2 ++ m2 :: f3) "timestamp"
  = mkGenerated [m1; m2; m3] None.
Proof.
  intros H3 H1 H2 Hf. rewrite !Forall_app in Hf.
  destruct Hf as (Hf0 & Hf1 & Hf2 & Hf3).
  assert (entries "timestamp" (f0 ++ m3 :: f1 ++ m1 :: f2 ++ m2 :: f3)
          = [VTuple [VInt 3; VDict m3]; VTuple [VInt 1; VDict m1];
             VTuple [VInt 2; VDict m2]]) as Hentries.
  { rewrite entries_app, (entries_fieldless _ _ Hf0), (entries_cons _ _ _ _ H3).
    rewrite entries_app, (entries_fieldless _ _ Hf1), (entries_cons _ _ _ _ H1).
    rewrite entries_app, (entries_fieldless _ _ Hf2), (entries_cons _ _ _ _ H2).
    by rewrite (entries_fieldless _ _ Hf3). }
  unfold sort. rewrite buffer_entries, Hentries.
  vm_compute. reflexivity.
Qed.

(** The mechanism of C10: when the second of two messages has a value of
    the field that is [==] to the first one's and the two messages are
    not [==], putting the second on the queue compares the two dicts and
    raises [TypeError]: nothing is yielded. *)
Lemma sort_two_tied field (m1 m2 : Message) (v1 v2 : Value) :
  dict_get field m1 = Some v1 →
  dict_get field m2 = Some v2 →
  py_eqb v2 v1 = true →
  py_eqb (VDict m2) (VDict m1) = false →
  buffer field [m1; m2] [] = Raise (unorderable "<" (VDict m2) (VDict m1)) ∧
  sort [m1; m2] field
  = mkGenerated [] (Some (unorderable "<" (VDict m2) (VDict m1))).
Proof.
  intros H1 H2 Hv Hm.
  assert (buffer field [m1; m2] []
          = Raise (unorderable "<" (VDict m2) (VDict m1))) as Hbuf.
  { simpl. rewrite H1, H2.
    unfold heappush, _siftdown. simpl.
    unfold py_lt. cbn [py_order]. rewrite Hv.
    by rewrite Hm. }
  split; [done|]. unfold sort. by rewrite Hbuf.
Qed.
End SortFacts.

(** ** The queue of [sort] *)

Section ListFacts.
Context {A : Type}.
Implicit Types (l : list A) (x y : A).

(** Replacing the item at [i] changes one item of the multiset. *)
Lemma insert_Permutation l i x y :
  l !! i = Some x → x :: <[i := y]> l ≡ₚ y :: l.
Proof.
  revert i. induction l as [|z l IH]; intros [|i] Hi; simplify_eq/=.
  - apply Permutation_swap.
  - rewrite (Permutation_swap z x), (IH _ Hi). apply Permutation_swap.
Qed.

(** Two items at different positions are two items of the multiset. *)
Lemma lookup_pair_Permutation l i j x y :
  i ≠ j → l !! i = Some x → l !! j = Some y → ∃ rest, l ≡ₚ x :: y :: rest.
Proof.
  intros Hij Hi Hj. exists (delete (if decide (j < i)%nat then j else pred j)
                                   (delete i l)).
  rewrite (delete_Permutation l i x Hi) at 1. f_equiv.
  apply delete_Permutation. case_decide.
  - by rewrite list_lookup_delete_lt.
  - rewrite list_lookup_delete_ge by lia.
    by replace (S (pred j)) with j by lia.
Qed.
End ListFacts.

Section HeapFacts.
Import core.
Variable R : relation Value.
Context `{!Transitive R}.
Variable bag : list Value.
Hypothesis bag_agrees : agrees R bag.
Implicit Types (heap L : list Value) (x y p newitem : Value).


Lemma parent_lt i : (0 < i)%nat → (parent i < i)%nat.
Proof. unfold parent. lia. Qed.

Lemma parent_children c pos :
  (0 < c)%nat → parent c = pos →
  c = (2 * pos + 1)%nat ∨ c = (2 * pos + 1 + 1)%nat.
Proof. unfold parent. lia. Qed.

Lemma parent_left pos : parent (2 * pos + 1) = pos.
Proof. unfold parent. lia. Qed.

Lemma parent_right pos : parent (2 * pos + 1 + 1) = pos.
Proof. unfold parent. lia. Qed.

Lemma pair_in_sub (L : list Value) i j x y :
  L ⊆+ bag → i ≠ j → L !! i = Some x → L !! j = Some y → pair_in bag x y.
Proof.
  intros [k Hk]%submseteq_Permutation Hij Hi Hj.
  destruct (lookup_pair_Permutation L i j x y Hij Hi Hj) as [rest Hrest].
  exists (rest ++ k). by rewrite Hk, Hrest.
Qed.

(** Moving the hole from [pos] to [pos'] keeps the items. *)
Lemma move_hole heap pos pos' newitem x :
  pos ≠ pos' → (pos < length heap)%nat → heap !! pos' = Some x →
  <[pos' := newitem]> (<[pos := x]> heap) ≡ₚ <[pos := newitem]> heap.
Proof.
  intros Hne Hpos Hx.
  destruct (lookup_lt_is_Some_2 heap pos Hpos) as [old Hold].
  apply (Permutation_cons_inv (a := x)), (Permutation_cons_inv (a := old)).
  rewrite (insert_Permutation (<[pos:=x]> heap) pos' x newitem)
    by by rewrite list_lookup_insert_ne.
  rewrite (Permutation_swap newitem old).
  rewrite (insert_Permutation heap pos old x Hold).
  rewrite (Permutation_swap x old).
  rewrite (insert_Permutation heap pos old newitem Hold).
  apply Permutation_swap.
Qed.

Lemma or_fails_mono {A} (r : result A) (P Q : A → Prop) :
  (∀ a, P a → Q a) → or_fails bag r P → or_fails bag r Q.
Proof. intros HPQ. destruct r; simpl; auto. Qed.

(** Putting [newitem] into the hole orders the heap, when the hole is at
    the root or [newitem] is after the parent of the hole. *)
Lemma place_ordered heap pos newitem :
  (pos < length heap)%nat →
  ordered_except R heap pos →
  below R heap pos newitem →
  (∀ p, (0 < pos)%nat → heap !! parent pos = Some p → R p newitem) →
  heap_ordered R (<[pos := newitem]> heap).
Proof.
  intros Hpos Hexc Hbelow Hparent i x p Hi Hx Hp.
  pose proof (parent_lt i Hi).
  destruct (decide (i = pos)) as [->|Hne].
  - rewrite list_lookup_insert_eq in Hx by done.
    rewrite list_lookup_insert_ne in Hp by lia.
    simplify_eq. by apply Hparent.
  - rewrite list_lookup_insert_ne in Hx by done.
    destruct (decide (parent i = pos)) as [Hpi|Hpi].
    + rewrite Hpi, list_lookup_insert_eq in Hp by done.
      simplify_eq. by apply (Hbelow i).
    + rewrite list_lookup_insert_ne in Hp by done.
      by apply (Hexc i).
Qed.

(** The loop of [_siftdown], from a hole at [pos]: either the items are
    kept and the heap comes out ordered, or a comparison has raised. *)
Lemma siftdown_loop_spec fuel newitem heap pos :
  (pos ≤ fuel)%nat →
  (pos < length heap)%nat →
  <[pos := newitem]> heap ⊆+ bag →
  ordered_except R heap pos →
  grand_ok R heap pos →
  below R heap pos newitem →
  or_fails bag (_siftdown_loop fuel newitem heap 0 pos)
    (λ heap', heap' ≡ₚ <[pos := newitem]> heap ∧ heap_ordered R heap').
Proof.
  revert heap pos.
  induction fuel as [|fuel IH]; intros heap pos Hfuel Hpos Hsub Hexc Hgrand Hbelow.
  { simpl. split; [done|]. apply place_ordered; [done..|]. intros; lia. }
  cbn [_siftdown_loop]. case_bool_decide as Hroot; cycle 1.
  { simpl. split; [done|]. apply place_ordered; [done..|]. intros; lia. }
  pose proof (parent_lt pos Hroot) as Hlt. fold (parent pos).
  destruct (lookup_lt_is_Some_2 heap (parent pos)) as [p Hp]; [lia|].
  unfold item_at. rewrite Hp. cbn [bind].
  assert (pair_in bag newitem p) as Hpair.
  { apply (pair_in_sub (<[pos := newitem]> heap) pos (parent pos));
      [done|lia|by rewrite list_lookup_insert_eq
      |by rewrite list_lookup_insert_ne by lia]. }
  destruct (py_lt newitem p) as [[]|e] eqn:Hcmp; cbn [bind].
  - (* the parent moves down *)
    pose proof (bag_agrees _ _ _ Hpair Hcmp) as Hnp. simpl in Hnp.
    assert (<[parent pos := newitem]> (<[pos := p]> heap)
            ≡ₚ <[pos := newitem]> heap) as Hmove
      by (apply move_hole; [lia|done..]).
    assert (∀ i x, (0 < i)%nat → i ≠ pos → parent i = parent pos →
              heap !! i = Some x → R p x) as Hsibling.
    { intros i x Hi Hne Hpi Hx. apply (Hexc i); [done|done|lia|done|].
      by rewrite Hpi. }
    apply (or_fails_mono _
             (λ heap', heap' ≡ₚ <[parent pos := newitem]> (<[pos := p]> heap)
                       ∧ heap_ordered R heap')).
    { intros heap' [Hperm Hord]. split; [|done].
      etrans; [exact Hperm|exact Hmove]. }
    apply IH; [lia|by rewrite length_insert; lia|by rewrite Hmove|..].
    + intros i x q Hi Hne Hpne Hx Hq.
      destruct (decide (i = pos)) as [->|Hipos]; [done|].
      rewrite list_lookup_insert_ne in Hx by done.
      destruct (decide (parent i = pos)) as [Hpi|Hpi].
      * rewrite Hpi, list_lookup_insert_eq in Hq by done. simplify_eq.
        by apply (Hgrand i).
      * rewrite list_lookup_insert_ne in Hq by done. by apply (Hexc i).
    + intros c x g Hpp Hc Hpc Hx Hg.
      pose proof (parent_lt _ Hpp).
      rewrite list_lookup_insert_ne in Hg by lia.
      assert (R g p) as Hgp by (apply (Hexc (parent pos)); [done|lia..|done|done]).
      destruct (decide (c = pos)) as [->|Hcpos].
      * rewrite list_lookup_insert_eq in Hx by done. by simplify_eq.
      * rewrite list_lookup_insert_ne in Hx by done.
        etrans; [exact Hgp|]. by apply (Hsibling c).
    + intros c x Hc Hpc Hx.
      destruct (decide (c = pos)) as [->|Hcpos].
      * rewrite list_lookup_insert_eq in Hx by done. by simplify_eq.
      * rewrite list_lookup_insert_ne in Hx by done.
        etrans; [exact Hnp|]. by apply (Hsibling c).
  - (* [newitem] stays *)
    pose proof (bag_agrees _ _ _ Hpair Hcmp) as Hnp. simpl in Hnp.
    split; [done|]. apply place_ordered; [done..|].
    intros p' _ Hp'. by simplify_eq.
  - by exists newitem, p.
Qed.

(** [_siftdown], called for a hole that holds [newitem]. *)
Lemma siftdown_spec heap pos newitem :
  heap !! pos = Some newitem →
  heap ⊆+ bag →
  ordered_except R heap pos →
  grand_ok R heap pos →
  below R heap pos newitem →
  or_fails bag (_siftdown heap 0 pos)
    (λ heap', heap' ≡ₚ heap ∧ heap_ordered R heap').
Proof.
  intros Hnew Hsub Hexc Hgrand Hbelow. unfold _siftdown, item_at.
  rewrite Hnew. cbn [bind].
  pose proof (lookup_lt_Some _ _ _ Hnew).
  apply (or_fails_mono _
           (λ heap', heap' ≡ₚ <[pos := newitem]> heap ∧ heap_ordered R heap')).
  { intros heap' [Hperm Hord]. by rewrite list_insert_id in Hperm. }
  apply siftdown_loop_spec; [done|done|by rewrite list_insert_id|done..].
Qed.

(** The loop of [_siftup], from a hole at [pos]: either the hole comes to
    a leaf, the items and the order elsewhere being kept, or a comparison
    has raised. *)
Lemma siftup_loop_spec fuel heap pos newitem :
  (length heap - pos ≤ fuel)%nat →
  (pos < length heap)%nat →
  <[pos := newitem]> heap ⊆+ bag →
  ordered_except R heap pos →
  grand_ok R heap pos →
  or_fails bag (_siftup_loop fuel heap (length heap) pos)
    (λ '(heap', leaf),
       (leaf < length heap')%nat ∧
       (length heap' ≤ 2 * leaf + 1)%nat ∧
       <[leaf := newitem]> heap' ≡ₚ <[pos := newitem]> heap ∧
       ordered_except R heap' leaf).
Proof.
  revert heap pos.
  induction fuel as [|fuel IH]; intros heap pos Hfuel Hpos Hsub Hexc Hgrand;
    [lia|].
  cbn [_siftup_loop]. case_bool_decide as Hchild; cycle 1.
  { cbn [or_fails]. repeat split; [done|lia|done|done]. }
  destruct (lookup_lt_is_Some_2 heap (2 * pos + 1)) as [l Hl]; [lia|].
  (* the smaller child *)
  assert (or_fails bag
            (if bool_decide (2 * pos + 1 + 1 < length heap)%nat
             then l ←! item_at heap (2 * pos + 1);
                  r ←! item_at heap (2 * pos + 1 + 1);
                  smaller ←! py_lt l r;
                  Ok (if negb smaller then (2 * pos + 1 + 1)%nat
                      else (2 * pos + 1)%nat)
             else Ok (2 * pos + 1)%nat)
            (λ c, parent c = pos ∧ (0 < c)%nat ∧ (c < length heap)%nat ∧
                  ∀ child sibling i, heap !! c = Some child →
                    parent i = pos → (0 < i)%nat → i ≠ c →
                    heap !! i = Some sibling → R child sibling))
    as Hsmaller.
  { case_bool_decide as Hright; cycle 1.
    { split; [apply parent_left|]. split; [lia|]. split; [done|].
      intros child sibling i _ Hi Hi0 Hne Hsib.
      apply lookup_lt_Some in Hsib.
      destruct (parent_children _ _ Hi0 Hi); lia. }
    destruct (lookup_lt_is_Some_2 heap (2 * pos + 1 + 1)) as [r Hr]; [lia|].
    unfold item_at. rewrite Hl, Hr. cbn [bind].
    assert (pair_in bag l r) as Hpair.
    { apply (pair_in_sub (<[pos := newitem]> heap)
               (2 * pos + 1) (2 * pos + 1 + 1));
        [done|lia|by rewrite list_lookup_insert_ne by lia..]. }
    destruct (py_lt l r) as [smaller|e] eqn:Hcmp; cbn [bind];
      [|by exists l, r].
    pose proof (bag_agrees _ _ _ Hpair Hcmp) as Hlr.
    destruct smaller; cbn [negb or_fails].
    - split; [apply parent_left|]. split; [lia|]. split; [lia|].
      intros child sibling i Hc Hi Hi0 Hne Hsib.
      destruct (parent_children _ _ Hi0 Hi) as [->| ->]; [done|].
      by simplify_eq.
    - split; [apply parent_right|]. split; [lia|]. split; [lia|].
      intros child sibling i Hc Hi Hi0 Hne Hsib.
      destruct (parent_children _ _ Hi0 Hi) as [->| ->]; [|done].
      by simplify_eq. }
  destruct (if bool_decide (2 * pos + 1 + 1 < length heap)%nat then _ else _)
    as [c|e]; [|done]. cbn [bind].
  destruct Hsmaller as (Hpc & Hc0 & Hc & Hsibling).
  destruct (lookup_lt_is_Some_2 heap c Hc) as [child Hchild'].
  unfold item_at. rewrite Hchild'. cbn [bind].
  pose proof (parent_lt c Hc0) as Hlt. rewrite Hpc in Hlt.
  assert (<[c := newitem]> (<[pos := child]> heap)
          ≡ₚ <[pos := newitem]> heap) as Hmove
    by (apply move_hole; [lia|done..]).
  specialize (IH (<[pos := child]> heap) c).
  rewrite length_insert in IH.
  apply (or_fails_mono _
           (λ '(heap', leaf),
              (leaf < length heap')%nat ∧
              (length heap' ≤ 2 * leaf + 1)%nat ∧
              <[leaf := newitem]> heap' ≡ₚ <[c := newitem]> (<[pos := child]> heap) ∧
              ordered_except R heap' leaf)).
  { intros [heap' leaf] (? & ? & Hperm & ?). by rewrite <- Hmove. }
  apply IH; [lia|lia|by rewrite Hmove|..].
  - intros i x q Hi Hne Hpne Hx Hq.
    destruct (decide (i = pos)) as [->|Hipos].
    + rewrite list_lookup_insert_eq in Hx by done.
      rewrite list_lookup_insert_ne in Hq by (pose proof (parent_lt pos Hi); lia).
      simplify_eq. by apply (Hgrand c).
    + rewrite list_lookup_insert_ne in Hx by done.
      destruct (decide (parent i = pos)) as [Hpi|Hpi].
      * rewrite Hpi, list_lookup_insert_eq in Hq by done. simplify_eq.
        by apply (Hsibling _ _ i).
      * rewrite list_lookup_insert_ne in Hq by done. by apply (Hexc i).
  - intros d x g _ Hd Hpd Hx Hg.
    rewrite Hpc, list_lookup_insert_eq in Hg by done.
    assert (g = child) as -> by congruence.
    pose proof (parent_lt d Hd).
    rewrite list_lookup_insert_ne in Hx by lia.
    apply (Hexc d); [done|lia|lia|done|]. by rewrite Hpd.
Qed.

(** A hole at a leaf has nothing below it. *)
Lemma leaf_childless heap leaf c x :
  (length heap ≤ 2 * leaf + 1)%nat →
  (0 < c)%nat → parent c = leaf → heap !! c = Some x → False.
Proof.
  intros Hleaf Hc Hpc Hx%lookup_lt_Some.
  destruct (parent_children _ _ Hc Hpc); lia.
Qed.

Lemma ordered_except_insert heap pos x :
  ordered_except R heap pos → ordered_except R (<[pos := x]> heap) pos.
Proof.
  intros Hexc i y p Hi Hne Hpne Hy Hp.
  rewrite list_lookup_insert_ne in Hy, Hp by done. by apply (Hexc i).
Qed.

(** [_siftup] from the root. *)
Lemma siftup_spec heap :
  (0 < length heap)%nat →
  heap ⊆+ bag →
  ordered_except R heap 0 →
  or_fails bag (_siftup heap 0)
    (λ heap', heap' ≡ₚ heap ∧ heap_ordered R heap').
Proof.
  intros Hlen Hsub Hexc. unfold _siftup, item_at.
  destruct (lookup_lt_is_Some_2 heap 0 Hlen) as [newitem Hnew].
  rewrite Hnew. cbn [bind].
  pose proof (siftup_loop_spec (length heap - 0) heap 0 newitem) as Hloop.
  rewrite (list_insert_id _ _ _ Hnew) in Hloop.
  destruct (_siftup_loop (length heap - 0) heap (length heap) 0)
    as [[heap' leaf]|e]; cbn [bind or_fails fst snd] in *;
    cycle 1.
  { apply Hloop; [lia|done|done|done|]. intros c x g Hpos. lia. }
  destruct Hloop as (Hleaf & Hchildless & Hperm & Hexc');
    [lia|done|done|done|intros c x g Hpos; lia|].
  apply (or_fails_mono _
           (λ heap'', heap'' ≡ₚ <[leaf := newitem]> heap'
                      ∧ heap_ordered R heap'')).
  { intros heap'' [Hperm' Hord]. split; [|done].
    etrans; [exact Hperm'|exact Hperm]. }
  apply (siftdown_spec _ leaf newitem).
  - by rewrite list_lookup_insert_eq.
  - by rewrite Hperm.
  - by apply ordered_except_insert.
  - intros c x g _ Hc Hpc Hx. exfalso.
    apply (leaf_childless (<[leaf := newitem]> heap') leaf c x);
      [by rewrite length_insert|done..].
  - intros c x Hc Hpc Hx. exfalso.
    apply (leaf_childless (<[leaf := newitem]> heap') leaf c x);
      [by rewrite length_insert|done..].
Qed.

(** [heappush]. *)
Lemma heappush_spec heap item :
  heap_ordered R heap →
  heap ++ [item] ⊆+ bag →
  or_fails bag (heappush heap item)
    (λ heap', heap' ≡ₚ heap ++ [item] ∧ heap_ordered R heap').
Proof.
  intros Hord Hsub. unfold heappush.
  replace (length (heap ++ [item]) - 1)%nat with (length heap)
    by (rewrite length_app; simpl; lia).
  assert ((heap ++ [item]) !! length heap = Some item) as Hitem
    by by rewrite list_lookup_middle.
  apply (siftdown_spec _ (length heap) item); [done|done|..].
  - intros i x p Hi Hne Hpne Hx Hp.
    pose proof (lookup_lt_Some _ _ _ Hx) as Hlt.
    rewrite length_app in Hlt. simpl in Hlt.
    pose proof (parent_lt i Hi).
    rewrite lookup_app_l in Hx, Hp by lia. by apply (Hord i).
  - intros c x g _ Hc Hpc Hx. exfalso.
    apply (leaf_childless (heap ++ [item]) (length heap) c x);
      [rewrite length_app; simpl; lia|done..].
  - intros c x Hc Hpc Hx. exfalso.
    apply (leaf_childless (heap ++ [item]) (length heap) c x);
      [rewrite length_app; simpl; lia|done..].
Qed.

(** The root of an ordered heap is before everything else. *)
Lemma root_minimal heap r :
  heap_ordered R heap → heap !! 0%nat = Some r →
  ∀ i x, (0 < i)%nat → heap !! i = Some x → R r x.
Proof.
  intros Hord Hr i. induction i as [i IH] using lt_wf_ind.
  intros x Hi Hx. pose proof (parent_lt i Hi) as Hlt.
  destruct (lookup_lt_is_Some_2 heap (parent i)) as [p Hp];
    [apply lookup_lt_Some in Hx; lia|].
  pose proof (Hord i x p Hi Hx Hp) as Hpx.
  destruct (decide (parent i = 0)%nat) as [Hroot|Hroot].
  - rewrite Hroot in Hp. by simplify_eq.
  - etrans; [|exact Hpx]. apply (IH (parent i)); [done|lia|done].
Qed.

(** [heappop]. *)
Lemma heappop_spec heap :
  heap_ordered R heap →
  heap ⊆+ bag →
  heap ≠ [] →
  or_fails bag (heappop heap)
    (λ '(x, heap'),
       heap ≡ₚ x :: heap' ∧ heap_ordered R heap' ∧ Forall (R x) heap').
Proof.
  intros Hord Hsub Hne. unfold heappop.
  destruct (reverse heap) as [|lastelt rest] eqn:Hrev.
  { apply (f_equal reverse) in Hrev. rewrite reverse_involutive in Hrev.
    done. }
  assert (heap = reverse rest ++ [lastelt]) as ->.
  { apply (f_equal reverse) in Hrev. rewrite reverse_involutive in Hrev.
    by rewrite reverse_cons in Hrev. }
  destruct (reverse rest) as [|returnitem t].
  { cbn [or_fails]. split; [done|]. split; [|done].
    intros i x p Hi Hx. by rewrite lookup_nil in Hx. }
  cbn [insert list_insert].
  assert (or_fails bag (_siftup (lastelt :: t) 0)
            (λ heap', heap' ≡ₚ lastelt :: t ∧ heap_ordered R heap'))
    as Hup.
  { apply siftup_spec; [simpl; lia| |].
    - etrans; [|exact Hsub]. rewrite (Permutation_cons_append t lastelt).
      by apply submseteq_cons.
    - intros i x p Hi _ Hpne Hx Hp.
      pose proof (parent_lt i Hi).
      destruct i as [|i]; [lia|].
      destruct (parent (Datatypes.S i)) as [|pi] eqn:Hpi; [done|].
      simpl in Hx, Hp.
      apply lookup_lt_Some in Hx as Hlt.
      apply (Hord (Datatypes.S i) x p); [done| |].
      + simpl. by rewrite lookup_app_l.
      + rewrite Hpi. simpl. rewrite lookup_app_l; [done|lia]. }
  destruct (_siftup (lastelt :: t) 0) as [heap'|e]; [|done].
  cbn [bind or_fails] in *. destruct Hup as [Hperm Hord'].
  split; [|split; [done|]].
  - simpl. f_equiv. by rewrite Hperm, <- Permutation_cons_append.
  - rewrite Hperm, (Permutation_cons_append t lastelt).
    apply Forall_lookup_2. intros i x Hx.
    apply (root_minimal _ _ Hord eq_refl (Datatypes.S i)); [lia|done].
Qed.

(** Putting items on the queue one after the other. *)
Lemma put_all_spec items queue :
  heap_ordered R queue →
  queue ++ items ⊆+ bag →
  or_fails bag (put_all items queue)
    (λ queue', queue' ≡ₚ queue ++ items ∧ heap_ordered R queue').
Proof.
  revert queue. induction items as [|item rest IH]; intros queue Hord Hsub.
  { cbn [put_all or_fails]. by rewrite app_nil_r. }
  cbn [put_all].
  pose proof (heappush_spec queue item Hord) as Hpush.
  destruct (heappush queue item) as [queue'|e]; cbn [bind or_fails] in *.
  - destruct Hpush as [Hperm Hord'].
    { etrans; [|exact Hsub]. rewrite (cons_middle item queue rest).
      rewrite (assoc_L _). by apply submseteq_inserts_r. }
    apply (or_fails_mono _
             (λ queue'', queue'' ≡ₚ queue' ++ rest ∧ heap_ordered R queue'')).
    { intros queue'' [Hperm' ?]. split; [|done].
      rewrite Hperm', Hperm. by rewrite <- (assoc_L _). }
    apply IH; [done|]. rewrite Hperm. by rewrite <- (assoc_L _).
  - apply Hpush. etrans; [|exact Hsub]. rewrite (cons_middle item queue rest).
    rewrite (assoc_L _). by apply submseteq_inserts_r.
Qed.

Hypothesis bag_entries : Forall (λ item, is_Ok (second item) = true) bag.

Lemma drain_nonempty fuel queue :
  queue ≠ [] →
  drain (Datatypes.S fuel) queue
  = match (popped ←! heappop queue;
           msg ←! second popped.1;
           Ok (msg, popped.2)) with
    | Ok (msg, queue') => gen_yield msg (drain fuel queue')
    | Raise e => mkGenerated [] (Some e)
    end.
Proof. by destruct queue. Qed.

(** The second loop of [sort], on an ordered queue. *)
Lemma drain_spec fuel queue :
  (length queue ≤ fuel)%nat →
  heap_ordered R queue →
  queue ⊆+ bag →
  match raised (drain fuel queue) with
  | None => drained R queue (drain fuel queue)
  | Some e => fails_in bag e
  end.
Proof.
  revert queue. induction fuel as [|fuel IH]; intros queue Hfuel Hord Hsub.
  { destruct queue; [|simpl in Hfuel; lia]. simpl.
    exists []. repeat split; constructor. }
  destruct (decide (queue = [])) as [->|Hne].
  { simpl. exists []. repeat split; constructor. }
  rewrite (drain_nonempty _ _ Hne).
  pose proof (heappop_spec queue Hord Hsub Hne) as Hpop.
  destruct (heappop queue) as [[x queue']|e]; cbn [bind or_fails fst snd] in *;
    [|done].
  destruct Hpop as (Hperm & Hord' & Hmin).
  assert (x ∈ bag) as Hx.
  { apply (elem_of_submseteq queue); [|done]. rewrite Hperm. left. }
  rewrite Forall_forall in bag_entries.
  pose proof (bag_entries x Hx) as Hsecond.
  destruct (second x) as [msg|] eqn:Hmsg; [|done]. cbn [bind raised gen_yield].
  assert (length queue = Datatypes.S (length queue')) as Hlen
    by by rewrite Hperm.
  specialize (IH queue'). 
  destruct (raised (drain fuel queue')) as [e|] eqn:Hraised.
  - apply IH; [lia|done|]. etrans; [|exact Hsub]. rewrite Hperm.
    by apply submseteq_cons.
  - destruct IH as (sorted & Hsorted & Hss & Hout & _); [lia|done| |].
    { etrans; [|exact Hsub]. rewrite Hperm. by apply submseteq_cons. }
    exists (x :: sorted). split; [by rewrite Hperm, Hsorted|].
    split; [constructor; [done|by rewrite Hsorted]|].
    split; [by constructor|done].
Qed.
End HeapFacts.

(** ** [sort], in general *)

Section SortOrder.
Import core.

#[local] Instance key_lt_trans : Transitive key_lt.
Proof.
  intros x y z (p & q & Hp & Hq & Hpq) (q' & r & Hq' & Hr & Hqr).
  exists p, r. repeat split; [done..|].
  assert (q' = q) as -> by congruence. by apply Qlt_trans with q.
Qed.

Lemma py_eqb_number a b p q :
  as_number a = Some p → as_number b = Some q →
  py_eqb a b = Qeq_bool p q.
Proof. destruct a, b; simpl; intros; by simplify_eq. Qed.

Lemma py_order_number op a b p q :
  as_number a = Some p → as_number b = Some q →
  py_order op a b = Ok (p ?= q)%Q.
Proof. destruct a, b; simpl; intros; by simplify_eq. Qed.

(** [<] on two items of the queue whose first components are numbers. *)
Lemma py_lt_entries v1 v2 (m1 m2 : Message) p q :
  as_number v1 = Some p → as_number v2 = Some q →
  py_lt (VTuple [v1; VDict m1]) (VTuple [v2; VDict m2])
  = if Qeq_bool p q then
      if py_eqb (VDict m1) (VDict m2) then Ok false
      else Raise (unorderable "<" (VDict m1) (VDict m2))
    else Ok (match (p ?= q)%Q with Lt => true | _ => false end).
Proof.
  intros Hp Hq. unfold py_lt. cbn [py_order].
  rewrite (py_eqb_number _ _ _ _ Hp Hq).
  destruct (Qeq_bool p q).
  - by destruct (py_eqb (VDict m1) (VDict m2)).
  - by rewrite (py_order_number _ _ _ _ _ Hp Hq).
Qed.

Lemma pair_in_elem_of {A} (l : list A) x y :
  pair_in l x y → x ∈ l ∧ y ∈ l.
Proof.
  intros [rest Hrest]. rewrite Hrest. split.
  - apply list_elem_of_here.
  - apply list_elem_of_further, list_elem_of_here.
Qed.

(** Two items of [omap f l] come from two items of [l]. *)
Lemma pair_in_omap {A B} (f : A → option B) (l : list A) x y :
  pair_in (omap f l) x y →
  ∃ a b, pair_in l a b ∧ f a = Some x ∧ f b = Some y.
Proof.
  intros [rest Hrest].
  assert (x ∈ omap f l) as (a & [l1 Hl1]%elem_of_Permutation & Ha)%list_elem_of_omap
    by (rewrite Hrest; apply list_elem_of_here).
  rewrite Hl1 in Hrest. cbn [omap list_omap] in Hrest. rewrite Ha in Hrest.
  apply Permutation_cons_inv in Hrest.
  assert (y ∈ omap f l1) as (b & [l2 Hl2]%elem_of_Permutation & Hb)%list_elem_of_omap
    by (rewrite Hrest; apply list_elem_of_here).
  exists a, b. split; [|done]. exists l2. by rewrite Hl1, Hl2.
Qed.

Lemma omap_pair_in {A B} (f : A → option B) (l : list A) a b x y :
  pair_in l a b → f a = Some x → f b = Some y → pair_in (omap f l) x y.
Proof.
  intros [rest Hrest] Ha Hb. exists (omap f rest).
  rewrite Hrest. cbn [omap list_omap]. by rewrite Ha, Hb.
Qed.

(** Two items of a sorted list are related, one way or the other. *)
Lemma StronglySorted_pair_in {A} (R : relation A) (l : list A) x y :
  StronglySorted R l → pair_in l x y → R x y ∨ R y x.
Proof.
  intros Hsorted. revert x y.
  induction Hsorted as [|a l _ IH Ha]; intros x y [rest Hrest].
  { by apply Permutation_nil_cons in Hrest. }
  rewrite Forall_forall in Ha.
  assert (a ∈ x :: y :: rest) as Hin
    by (rewrite <- Hrest; apply list_elem_of_here).
  apply elem_of_cons in Hin as [->|Hin].
  { apply Permutation_cons_inv in Hrest. left. apply Ha.
    rewrite Hrest. apply list_elem_of_here. }
  apply elem_of_cons in Hin as [->|Hin].
  { rewrite (Permutation_swap y x) in Hrest.
    apply Permutation_cons_inv in Hrest. right. apply Ha.
    rewrite Hrest. apply list_elem_of_here. }
  apply elem_of_Permutation in Hin as [rest' Hrest'].
  apply (IH x y). exists rest'.
  apply (Permutation_cons_inv (a := a)).
  rewrite Hrest, Hrest'.
  by rewrite (Permutation_swap a y), (Permutation_swap a x).
Qed.

Variable field : string.
Variable stream : list Message.
Hypothesis numbers : numeric_field field stream.

(** An item of the queue is a tuple of a value of [field], a number, and
    the message it comes from. *)
Lemma entry_shape x :
  x ∈ entries field stream →
  ∃ msg v p, msg ∈ stream ∧ dict_get field msg = Some v ∧
    as_number v = Some p ∧ x = VTuple [v; VDict msg].
Proof.
  intros (msg & Hmsg & Hx)%list_elem_of_omap.
  destruct (dict_get field msg) as [v|] eqn:Hv; [|done].
  destruct (numbers msg v Hmsg Hv) as [p Hp].
  exists msg, v, p. simpl in Hx. by simplify_eq.
Qed.

Lemma entries_second :
  Forall (λ item, is_Ok (second item) = true) (entries field stream).
Proof.
  apply Forall_forall. intros x (msg & v & p & _ & _ & _ & ->)%entry_shape.
  done.
Qed.

Lemma pair_in_entries x y :
  pair_in (entries field stream) x y →
  ∃ m1 m2 v1 v2 p q,
    pair_in stream m1 m2 ∧
    dict_get field m1 = Some v1 ∧ dict_get field m2 = Some v2 ∧
    as_number v1 = Some p ∧ as_number v2 = Some q ∧
    x = VTuple [v1; VDict m1] ∧ y = VTuple [v2; VDict m2].
Proof.
  intros (m1 & m2 & Hpair & H1 & H2)%pair_in_omap.
  destruct (pair_in_elem_of _ _ _ Hpair) as [Hm1 Hm2].
  destruct (dict_get field m1) as [v1|] eqn:Hv1; [|done].
  destruct (dict_get field m2) as [v2|] eqn:Hv2; [|done].
  destruct (numbers m1 v1 Hm1 Hv1) as [p Hp].
  destruct (numbers m2 v2 Hm2 Hv2) as [q Hq].
  exists m1, m2, v1, v2, p, q. simpl in H1, H2. by simplify_eq.
Qed.

(** Where two items of the queue can be compared without comparing
    their messages, [<] is the order of the numbers. *)
Lemma entries_agree :
  distinct_values field stream ∨ distinct_messages field stream →
  agrees key_lt (entries field stream).
Proof.
  intros Hdistinct x y b
    (m1 & m2 & v1 & v2 & p & q & Hpair & H1 & H2 & Hp & Hq & -> & ->)%pair_in_entries.
  rewrite (py_lt_entries _ _ _ _ _ _ Hp Hq).
  destruct (Qeq_bool p q) eqn:Heq.
  { destruct Hdistinct as [Hvalues|Hmessages].
    - specialize (Hvalues m1 m2 v1 v2 Hpair H1 H2).
      rewrite (py_eqb_number _ _ _ _ Hp Hq) in Hvalues. congruence.
    - rewrite (Hmessages m1 m2 Hpair) by (by eexists). done. }
  intros [= <-].
  destruct (p ?= q)%Q eqn:Hcmp.
  - apply Qeq_alt, Qeq_bool_iff in Hcmp. congruence.
  - exists p, q. repeat split; [done..|]. by apply Qlt_alt.
  - exists q, p. repeat split; [done..|]. by apply Qgt_alt.
Qed.

(** With distinct values no comparison raises. *)
Lemma entries_never_fail e :
  distinct_values field stream → ¬ fails_in (entries field stream) e.
Proof.
  intros Hvalues (x & y & Hpair & Hcmp).
  apply pair_in_entries in Hpair
    as (m1 & m2 & v1 & v2 & p & q & Hpair & H1 & H2 & Hp & Hq & -> & ->).
  rewrite (py_lt_entries _ _ _ _ _ _ Hp Hq) in Hcmp.
  specialize (Hvalues m1 m2 v1 v2 Hpair H1 H2).
  rewrite (py_eqb_number _ _ _ _ Hp Hq) in Hvalues.
  by rewrite Hvalues in Hcmp.
Qed.

Lemma sort_eq :
  sort stream field
  = match put_all (entries field stream) [] with
    | Ok queue => drain (length queue) queue
    | Raise e => mkGenerated [] (Some e)
    end.
Proof. unfold sort. by rewrite buffer_entries. Qed.

(** What [sort] does when it does not raise. *)
Lemma sort_drained :
  distinct_values field stream ∨ distinct_messages field stream →
  match raised (sort stream field) with
  | None => drained key_lt (entries field stream) (sort stream field)
  | Some e => fails_in (entries field stream) e
  end.
Proof.
  intros Hdistinct. pose proof (entries_agree Hdistinct) as Hagrees.
  rewrite sort_eq.
  pose proof (put_all_spec key_lt _ Hagrees (entries field stream) [])
    as Hput.
  destruct (put_all (entries field stream) []) as [queue|e];
    cbn [or_fails raised] in *; cycle 1.
  { apply Hput; [|done]. intros i x p _ Hx. by rewrite lookup_nil in Hx. }
  destruct Hput as [Hperm Hord];
    [intros i x p _ Hx; by rewrite lookup_nil in Hx|done|].
  simpl in Hperm.
  pose proof (drain_spec key_lt _ Hagrees entries_second
                (length queue) queue) as Hdrain.
  destruct (raised (drain (length queue) queue)) as [e|].
  - apply Hdrain; [done|done|by rewrite Hperm].
  - destruct Hdrain as (sorted & Hsorted & Hss & Hout & Hnone);
      [done|done|by rewrite Hperm|].
    exists sorted. split; [by rewrite Hsorted|done].
Qed.
End SortOrder.

Section SortTheorems.
Import core.
Variable field : string.
Variable stream : list Message.
Hypothesis numbers : numeric_field field stream.

Lemma Forall2_carried (sorted : list Value) (out : list Message) :
  Forall2 (λ item msg, second item = Ok msg) sorted out →
  out = omap carried sorted.
Proof.
  induction 1 as [|item msg sorted out Hitem _ IH]; [done|].
  cbn [omap list_omap]. unfold carried at 1. rewrite Hitem. by f_equal.
Qed.

Lemma carried_entries :
  omap carried (entries field stream)
  = List.filter (λ msg, dict_contains field msg) stream.
Proof using Type.
  clear numbers. induction stream as [|msg rest IH]; [done|].
  unfold entries, dict_contains in *. cbn [omap list_omap List.filter].
  destruct (dict_get field msg) as [v|]; simpl; [by f_equal|done].
Qed.

(** The messages come out as their items do. *)
Lemma sorted_messages (sorted : list Value) (out : list Message) :
  StronglySorted key_lt sorted →
  Forall (λ item, item ∈ entries field stream) sorted →
  Forall2 (λ item msg, second item = Ok msg) sorted out →
  StronglySorted (ascending field) out.
Proof.
  intros Hsorted Hin Hout. revert Hsorted Hin.
  induction Hout as [|item msg sorted out Hitem Hout IH];
    intros Hsorted Hin; [constructor|].
  apply StronglySorted_inv in Hsorted as [Hsorted Hfirst].
  apply Forall_cons in Hin as [Hitem_in Hin].
  constructor; [by apply IH|].
  apply (entry_shape field stream numbers) in Hitem_in
    as (m & v & p & _ & Hv & Hp & ->).
  simpl in Hitem. injection Hitem as <-.
  clear IH Hsorted. induction Hout as [|item' msg' sorted out Hitem' Hout IH];
    [constructor|].
  apply Forall_cons in Hfirst as [(p' & q & Hp' & Hq & Hlt) Hfirst].
  apply Forall_cons in Hin as [Hitem_in Hin].
  constructor; [|by apply IH].
  apply (entry_shape field stream numbers) in Hitem_in
    as (m' & v' & q' & _ & Hv' & Hq' & ->).
  simpl in Hitem'. injection Hitem' as <-. simpl in Hp', Hq.
  exists v, v', p, q. repeat split; [done..|congruence|congruence|].
  by assert (p' = p) as -> by congruence.
Qed.

(** X1.  When the values of the field are numbers, no two of them equal,
    [sort] runs to its end: it yields the messages that have the field, each
    once and nothing else, smaller values first. *)
Theorem sort_ascending :
  distinct_values field stream →
  ∃ out,
    sort stream field = mkGenerated out None ∧
    out ≡ₚ List.filter (λ msg, dict_contains field msg) stream ∧
    StronglySorted (ascending field) out.
Proof.
  intros Hvalues.
  pose proof (sort_drained field stream numbers (or_introl Hvalues))
    as Hsort.
  destruct (raised (sort stream field)) as [e|] eqn:Hraised.
  { by apply entries_never_fail in Hsort. }
  destruct Hsort as (sorted & Hperm & Hsorted & Hout & _).
  exists (yielded (sort stream field)). split; [|split].
  - destruct (sort stream field). simpl in Hraised. by subst.
  - rewrite (Forall2_carried _ _ Hout), Hperm. by rewrite carried_entries.
  - apply (sorted_messages sorted); [done| |done].
    apply Forall_forall. intros item Hitem. by rewrite <- Hperm.
Qed.
End SortTheorems.

(** ** [sort], on scalars *)

Section ScalarOrder.
Import core.

#[local] Ltac order_of_numbers :=
  repeat match goal with
  | |- context [py_order ?op ?a ?b] =>
      rewrite (py_order_number op a b _ _ eq_refl eq_refl)
  | |- context [py_eqb ?a ?b] =>
      rewrite (py_eqb_number a b _ _ eq_refl eq_refl)
  end.

(** [<] on two scalars: it holds of two numbers or of two strings, the
    first smaller, and of nothing else. *)
Lemma py_lt_scalar k1 k2 :
  scalar k1 = true → scalar k2 = true →
  py_lt k1 k2 = Ok true ↔
  (∃ p q, as_number k1 = Some p ∧ as_number k2 = Some q ∧ (p < q)%Q) ∨
  (∃ s t, k1 = VStr s ∧ k2 = VStr t ∧ OrderedTypeEx.String_as_OT.lt s t).
Proof.
  intros H1 H2. unfold py_lt. split.
  - destruct k1, k2; try done;
      try (progress order_of_numbers; cbn [bind];
           destruct (_ ?= _)%Q eqn:Hcmp; try done; intros _; left;
           eexists _, _; split; [reflexivity|]; split; [reflexivity|];
           by apply Qlt_alt).
    cbn [py_order bind].
    destruct (String.compare s s0) eqn:Hcmp; try done. intros _. right.
    exists s, s0. repeat split.
    by apply OrderedTypeEx.String_as_OT.cmp_lt.
  - intros [(p & q & Hp & Hq & Hlt)|(s & t & -> & -> & Hlt)].
    + rewrite (py_order_number "<" _ _ _ _ Hp Hq).
      by rewrite (proj1 (Qlt_alt p q) Hlt).
    + apply OrderedTypeEx.String_as_OT.cmp_lt in Hlt. cbn [py_order bind].
      unfold OrderedTypeEx.String_as_OT.cmp in Hlt. by rewrite Hlt.
Qed.

#[local] Instance scalar_lt_trans : Transitive scalar_lt.
Proof.
  intros x y z (k1 & k2 & Hx & Hy & H1 & H2 & H12)
    (k2' & k3 & Hy' & Hz & _ & H3 & H23).
  assert (k2' = k2) as -> by congruence.
  exists k1, k3. repeat split; [done..|].
  apply (py_lt_scalar _ _ H1 H2) in H12. apply (py_lt_scalar _ _ H2 H3) in H23.
  apply (py_lt_scalar _ _ H1 H3).
  destruct H12 as [(p & q & Hp & Hq & Hpq)|(s & t & -> & -> & Hst)],
    H23 as [(q' & r & Hq' & Hr & Hqr)|(t' & u & Ht & -> & Htu)];
    simplify_eq.
  - left. exists p, r. repeat split; [done..|]. by apply Qlt_trans with q.
  - right. exists s, u. repeat split.
    by apply OrderedTypeEx.String_as_OT.lt_trans with t'.
Qed.

(** Two scalars of which one is [<] the other are not [==]. *)
Lemma py_lt_scalar_ne k1 k2 :
  scalar k1 = true → scalar k2 = true →
  py_lt k1 k2 = Ok true → py_eqb k1 k2 = false ∧ py_eqb k2 k1 = false.
Proof.
  intros H1 H2 [(p & q & Hp & Hq & Hlt)|(s & t & -> & -> & Hlt)]%py_lt_scalar;
    [| |done..].
  - rewrite (py_eqb_number _ _ _ _ Hp Hq), (py_eqb_number _ _ _ _ Hq Hp).
    split; apply not_true_is_false; intros Heq%Qeq_bool_iff;
      apply Qlt_not_eq in Hlt; [done|by apply Hlt].
  - simpl. apply OrderedTypeEx.String_as_OT.lt_not_eq in Hlt.
    split; apply String.eqb_neq; [done|]. intros ->. by apply Hlt.
Qed.

Lemma Qcompare_total (p q : Q) :
  Qeq_bool p q = false → (p ?= q)%Q ≠ Lt → (q ?= p)%Q = Lt.
Proof.
  intros Hne Hlt. rewrite <- (Qcompare_antisym p q).
  destruct (p ?= q)%Q eqn:Hcmp; [|done..].
  apply Qeq_alt, Qeq_bool_iff in Hcmp. congruence.
Qed.

(** When [<] on two scalars that are not [==] says no, it says yes the
    other way round. *)
Lemma py_lt_scalar_total k1 k2 :
  scalar k1 = true → scalar k2 = true →
  py_eqb k1 k2 = false → py_lt k1 k2 = Ok false → py_lt k2 k1 = Ok true.
Proof.
  intros H1 H2. unfold py_lt.
  destruct k1, k2; try done;
    try (progress order_of_numbers; cbn [bind]; intros Hne Hlt;
         rewrite (Qcompare_total _ _ Hne); [done|];
         intros Hcmp; by rewrite Hcmp in Hlt).
  cbn [py_order py_eqb bind].
  intros Hne. rewrite (String.compare_antisym s0 s).
  destruct (String.compare s s0) eqn:Hcmp; try done.
  apply String.compare_eq_iff in Hcmp. subst. by rewrite String.eqb_refl in Hne.
Qed.

(** [<] on two items of the queue: the values decide when they are not
    [==]; when they are, the messages are compared. *)
Lemma py_lt_tuples v1 v2 (m1 m2 : Message) :
  py_lt (VTuple [v1; VDict m1]) (VTuple [v2; VDict m2])
  = if py_eqb v1 v2 then
      if py_eqb (VDict m1) (VDict m2) then Ok false
      else Raise (unorderable "<" (VDict m1) (VDict m2))
    else py_lt v1 v2.
Proof.
  unfold py_lt. cbn [py_order].
  destruct (py_eqb v1 v2); [|done].
  by destruct (py_eqb (VDict m1) (VDict m2)).
Qed.

(** Every item of the queue carries a message. *)
Lemma entries_carry field stream :
  Forall (λ item, is_Ok (second item) = true) (entries field stream).
Proof.
  apply Forall_forall. intros x (msg & Hmsg & Hx)%list_elem_of_omap.
  destruct (dict_get field msg) as [v|]; [|done].
  simpl in Hx. by simplify_eq.
Qed.

Variable field : string.
Variable stream : list Message.
Hypothesis scalars : scalar_field field stream.

Lemma pair_in_scalar_entries x y :
  pair_in (entries field stream) x y →
  ∃ m1 m2 v1 v2,
    pair_in stream m1 m2 ∧
    dict_get field m1 = Some v1 ∧ dict_get field m2 = Some v2 ∧
    scalar v1 = true ∧ scalar v2 = true ∧
    x = VTuple [v1; VDict m1] ∧ y = VTuple [v2; VDict m2].
Proof.
  intros (m1 & m2 & Hpair & H1 & H2)%pair_in_omap.
  destruct (pair_in_elem_of _ _ _ Hpair) as [Hm1 Hm2].
  destruct (dict_get field m1) as [v1|] eqn:Hv1; [|done].
  destruct (dict_get field m2) as [v2|] eqn:Hv2; [|done].
  exists m1, m2, v1, v2. simpl in H1, H2. simplify_eq.
  repeat split; eauto.
Qed.

(** Where two items of the queue can be compared, [<] is the order of
    their values. *)
Lemma scalar_entries_agree :
  distinct_messages field stream →
  agrees scalar_lt (entries field stream).
Proof.
  intros Hmessages x y b
    (m1 & m2 & v1 & v2 & Hpair & H1 & H2 & Hs1 & Hs2 & -> & ->)%pair_in_scalar_entries.
  rewrite py_lt_tuples.
  destruct (py_eqb v1 v2) eqn:Heq.
  { rewrite (Hmessages m1 m2 Hpair) by (by eexists). done. }
  intros Hlt. destruct b.
  - by exists v1, v2.
  - exists v2, v1. repeat split; [done..|]. by apply py_lt_scalar_total.
Qed.

(** When the values of the field are [None], numbers or strings and no two
    messages that have the field are equal, [sort] runs to its end only if
    no two values are [==]. *)
Theorem sort_total_only_if_distinct :
  distinct_messages field stream →
  raised (sort stream field) = None →
  distinct_values field stream.
Proof.
  intros Hmessages Hraised m1 m2 v1 v2 Hpair H1 H2.
  pose proof (scalar_entries_agree Hmessages) as Hagrees.
  rewrite sort_eq in Hraised.
  pose proof (put_all_spec scalar_lt _ Hagrees (entries field stream) [])
    as Hput.
  destruct (put_all (entries field stream) []) as [queue|e];
    cbn [or_fails raised] in *; [|done].
  destruct Hput as [Hperm Hord];
    [intros i x p _ Hx; by rewrite lookup_nil in Hx|done|].
  simpl in Hperm.
  pose proof (drain_spec scalar_lt _ Hagrees (entries_carry field stream)
                (length queue) queue) as Hdrain.
  rewrite Hraised in Hdrain.
  destruct Hdrain as (sorted & Hsorted & Hss & _);
    [done|done|by rewrite Hperm|].
  destruct (pair_in_elem_of _ _ _ Hpair) as [Hm1 Hm2].
  pose proof (scalars m1 v1 Hm1 H1) as Hs1.
  pose proof (scalars m2 v2 Hm2 H2) as Hs2.
  assert (pair_in sorted (VTuple [v1; VDict m1]) (VTuple [v2; VDict m2]))
    as Hitems.
  { destruct (omap_pair_in
                (λ msg, (λ v, VTuple [v; VDict msg]) <$> dict_get field msg)
                stream m1 m2 (VTuple [v1; VDict m1]) (VTuple [v2; VDict m2])
                Hpair) as [rest Hrest]; [by rewrite H1|by rewrite H2|].
    exists rest. by rewrite Hsorted, Hperm. }
  destruct (StronglySorted_pair_in _ _ _ _ Hss Hitems)
    as [(k1 & k2 & Hk1 & Hk2 & _ & _ & Hlt)|(k2 & k1 & Hk2 & Hk1 & _ & _ & Hlt)];
    simpl in Hk1, Hk2; simplify_eq.
  - by destruct (py_lt_scalar_ne _ _ Hs1 Hs2 Hlt).
  - by destruct (py_lt_scalar_ne _ _ Hs2 Hs1 Hlt).
Qed.
End ScalarOrder.


(** C8, as the code has it.  Two messages with the same timestamp and
    different contents: [sort] raises the [TypeError] of comparing two
    dicts and yields nothing, where the messages are expected in ascending
    order. *)
Theorem sort_raises_on_equal_timestamps :
  core.sort [report_a; report_b] "timestamp"
  = core.mkGenerated []
      (Some (TypeError
               "'<' not supported between instances of 'dict' and 'dict'")).
Proof. vm_compute. reflexivity. Qed.

Lemma pair_in_two {A} (a b x y : A) :
  pair_in [a; b] x y → (x = a ∧ y = b) ∨ (x = b ∧ y = a).
Proof.
  intros [rest Hrest].
  pose proof (Permutation_length Hrest) as Hlen. simpl in Hlen.
  destruct rest; [|done].
  assert (a ∈ [x; y]) as Ha by (rewrite <- Hrest; apply list_elem_of_here).
  apply elem_of_cons in Ha as [->|Ha%list_elem_of_singleton].
  - apply Permutation_cons_inv, Permutation_singleton_l in Hrest.
    left. by simplify_eq.
  - subst. rewrite (Permutation_swap y x) in Hrest.
    apply Permutation_cons_inv, Permutation_singleton_l in Hrest.
    right. by simplify_eq.
Qed.





(** * Further properties *)

(** ** The message stream *)

Section StreamExtras.
Import core.
Context {C : Type} `{Codec C}.
Variable imp exp : coercions.

Lemma next_closed (s : GPSDIOStream C) :
  closed s = true → mode s = "r" →
  __next__ imp s
  = mkOutcome (Raise (IOError "Can't operate on a closed stream")) s [].
Proof. intros Hclosed Hmode. unfold __next__. by rewrite Hmode, Hclosed. Qed.

Lemma write_closed (s : GPSDIOStream C) (msg : Message) :
  closed s = true → mode s = "w" ∨ mode s = "a" →
  write exp s msg
  = mkOutcome (Raise (IOError "Can't operate on a closed stream")) s [].
Proof.
  intros Hclosed Hmode. unfold write. rewrite Hclosed.
  by destruct Hmode as [-> | ->].
Qed.

(** X2.  Once [close] or [__exit__] has closed the wrapped object, reading and
    writing fail: for a codec whose [close] leaves it closed, the stream that
    [close] (or [__exit__]) leaves behind is closed, keeps its mode, and
    [__next__] and [write] raise the [IOError] of a closed stream on it. *)
Theorem close_then_fail (s : GPSDIOStream C) (msg : Message) :
  codec_closed (codec_close (_stream s)).2 = true →
  after (__exit__ s) = after (close s) ∧
  closed (after (close s)) = true ∧
  mode (after (close s)) = mode s ∧
  (mode s = "r" →
   returned (__next__ imp (after (close s)))
   = Raise (IOError "Can't operate on a closed stream")) ∧
  (mode s = "w" ∨ mode s = "a" →
   returned (write exp (after (close s)) msg)
   = Raise (IOError "Can't operate on a closed stream")).
Proof.
  intros Hclose. unfold close, __exit__.
  destruct (codec_close (_stream s)) as [r c] eqn:Hc. simpl in Hclose.
  assert (closed (with_stream s c) = true) as Hclosed by done.
  split; [done|]. split; [done|]. split; [done|].
  split; intros Hmode; simpl.
  - by rewrite next_closed.
  - by rewrite write_closed.
Qed.

(** X3.  When the export of a message raises an [Exception], [StopIteration]
    included, [write] gives nothing to the wrapped object: the stream is left
    as it was and the failure is logged once. With [skip_failures] the call
    returns [None]; without it the exception is raised. *)
Theorem write_export_failure (s : GPSDIOStream C) (msg : Message) (e : exn) :
  mode s = "w" ∨ mode s = "a" →
  closed s = false →
  convert s = true →
  dictcomp exp msg [] = Raise e →
  is_Exception e = true →
  write exp s msg
  = mkOutcome (if skip_failures s then Ok None else Raise e) s [str_exn e].
Proof.
  intros Hmode Hopen Hconvert Hexport Hexc. unfold write, handle.
  rewrite Hopen, Hconvert, Hexport, Hexc.
  destruct Hmode as [-> | ->]; by destruct (skip_failures s).
Qed.

(** X4.  An exception that is not an [Exception] (a [KeyboardInterrupt], say)
    leaves [__next__] whatever [skip_failures] is, and is not logged. *)
Theorem next_lets_non_exceptions_through (s : GPSDIOStream C) (e : exn) :
  mode s = "r" →
  closed s = false →
  imported imp (convert s) (codec_next (_stream s)).1 = Raise e →
  is_Exception e = false →
  returned (__next__ imp s) = Raise e ∧ logged (__next__ imp s) = [].
Proof.
  intros Hmode Hopen Hpull Hexc. unfold __next__, handle.
  rewrite Hmode, Hopen. simpl.
  destruct (codec_next (_stream s)) as [pulled c]. simpl in Hpull.
  rewrite Hpull, Hexc. by destruct (is_StopIteration e).
Qed.
End StreamExtras.

Lemma close_then_fail_witness :
  core.returned
    (core.__next__ example_import
       (core.after
          (core.close
             (core.mkStream (core.mkScripted [Ok []] [] false)
                            "r" true false))))
  = Raise (IOError "Can't operate on a closed stream").
Proof.
  destruct (close_then_fail example_import example_import
              (core.mkStream (core.mkScripted [Ok []] [] false) "r" true false)
              []) as (_ & _ & _ & Hnext & _); [reflexivity|].
  apply Hnext. reflexivity.
Defined.

Lemma write_export_failure_witness :
  core.write example_import
    (core.mkStream (core.mkScripted [] [] false) "w" true true)
    [("timestamp", VInt 0)]
  = core.mkOutcome (Ok None)
      (core.mkStream (core.mkScripted [] [] false) "w" true true)
      ["timestamp is not a string"].
Proof.
  apply (write_export_failure example_import
           (core.mkStream (core.mkScripted [] [] false) "w" true true)
           [("timestamp", VInt 0)] (ValueError "timestamp is not a string"));
    [by left|reflexivity..].
Defined.

Lemma next_lets_non_exceptions_through_witness :
  core.returned
    (core.__next__ example_import
       (core.mkStream
          (core.mkScripted [Raise (NonException "KeyboardInterrupt")] [] false)
          "r" true true))
  = Raise (NonException "KeyboardInterrupt").
Proof.
  apply (next_lets_non_exceptions_through example_import
           (core.mkStream
              (core.mkScripted [Raise (NonException "KeyboardInterrupt")]
                               [] false)
              "r" true true)); reflexivity.
Defined.

Section IterationExtras.
Import core.
Variable imp : coercions.

(** X5.  With [skip_failures], iterating a read stream gives one item for
    every record of the source, in order: the coerced message, or [None] where
    the pull or the coercion raises an [Exception]. Every failure is logged
    once, in order, and the iteration ends with [StopIteration], whatever the
    number of failures. *)
Theorem iterate_skipping (cv : bool) (script : list (result Message))
    (w : list Message) (fuel : nat) :
  Forall (skippable imp cv) script →
  (length script < fuel)%nat →
  let it := iterate imp fuel (mkStream (mkScripted script w false) "r" cv true) in
  items it = item_of imp cv <$> script ∧
  stopped it = Some StopIteration ∧
  log it = omap (logged_for imp cv) script.
Proof.
  intros Hscript. revert fuel.
  induction Hscript as [|r script Hr _ IH]; intros fuel Hfuel.
  { destruct fuel; [simpl in Hfuel; lia|]. by rewrite iterate_exhausted. }
  destruct fuel as [|fuel]; [simpl in Hfuel; lia|].
  specialize (IH fuel ltac:(simpl in Hfuel; lia)). cbn zeta in IH.
  destruct IH as (Hitems & Hstopped & Hlog).
  cbn [iterate]. rewrite next_scripted.
  unfold item_of, logged_for in *. cbn [fmap list_fmap omap list_omap].
  destruct (imported imp cv r) as [msg|e] eqn:Himported.
  - cbn [returned after logged items stopped log app].
    by rewrite Hitems, Hstopped, Hlog.
  - destruct (Hr e Himported) as [Hexc Hstop]. rewrite Hstop.
    unfold handle. rewrite Hexc.
    cbn [skip_failures negb returned after logged items stopped log app].
    by rewrite Hitems, Hstopped, Hlog.
Qed.
End IterationExtras.

Lemma iterate_skipping_witness :
  core.items
    (core.iterate example_import 4
       (core.mkStream
          (core.mkScripted
             [Raise (ValueError "bad line");
              Ok [("mmsi", VInt 2); ("timestamp", VInt 0)];
              Ok [("mmsi", VInt 3)]] [] false)
          "r" true true))
  = [None; None; Some [("mmsi", VInt 3)]].
Proof.
  destruct (iterate_skipping example_import true
              [Raise (ValueError "bad line");
               Ok [("mmsi", VInt 2); ("timestamp", VInt 0)];
               Ok [("mmsi", VInt 3)]] [] 4) as (Hitems & _).
  - repeat (apply Forall_cons_2;
              [intros e He; vm_compute in He; by simplify_eq|]).
    apply Forall_nil_2.
  - simpl. lia.
  - exact Hitems.
Defined.

Section CoercionExtras.
Import core.
Variable fns : coercions.

Lemma dict_set_fresh {K V} `{EqDecision K} (k : K) (v : V) (acc : dict K V) :
  k ∉ dict_keys acc → dict_set k v acc = acc ++ [(k, v)].
Proof.
  unfold dict_keys. induction acc as [|[k' v'] acc IH]; [done|]. simpl.
  intros [Hne Hk]%not_elem_of_cons.
  rewrite bool_decide_false by done. by rewrite IH.
Qed.

(** The comprehension, from an accumulator whose keys are apart from the
    items'. *)
Lemma dictcomp_spec (items : list (string * Value)) (acc : Message) :
  NoDup (dict_keys (acc ++ items)) →
  match dictcomp fns items acc with
  | Ok msg' => ∃ items', msg' = acc ++ items' ∧ Forall2 (coerced fns) items items'
  | Raise e =>
      ∃ before fld v after,
        items = before ++ (fld, v) :: after ∧
        Forall (λ item, is_Ok (default Ok (fns item.1) item.2) = true) before ∧
        default Ok (fns fld) v = Raise e
  end.
Proof.
  revert acc. induction items as [|[fld v] items IH]; intros acc Hnd.
  { simpl. exists []. by rewrite app_nil_r. }
  cbn [dictcomp].
  destruct (default Ok (fns fld) v) as [v'|e] eqn:Hv; cycle 1.
  { by exists [], fld, v, items. }
  assert (fld ∉ dict_keys acc) as Hfresh.
  { unfold dict_keys in *. rewrite fmap_app in Hnd.
    apply NoDup_app in Hnd as (_ & Hdisj & _).
    intros Hin. apply (Hdisj fld Hin). simpl. left. }
  rewrite (dict_set_fresh _ _ _ Hfresh).
  specialize (IH (acc ++ [(fld, v')])).
  destruct (dictcomp fns items (acc ++ [(fld, v')])) as [msg'|e].
  - destruct IH as (items' & -> & Hitems).
    { unfold dict_keys in *. by rewrite <- (assoc_L _), !fmap_app in *. }
    exists ((fld, v') :: items'). split; [by rewrite <- (assoc_L _)|].
    by constructor.
  - destruct IH as (before & fld' & v0 & after & -> & Hbefore & Hfail).
    { unfold dict_keys in *. by rewrite <- (assoc_L _), !fmap_app in *. }
    exists ((fld, v) :: before), fld', v0, after.
    split; [done|]. split; [|done]. constructor; [|done]. simpl. by rewrite Hv.
Qed.

(** X6.  The coercion of a message, as [__next__] and [write] do it, neither
    adds nor drops nor reorders a field: when it succeeds every field keeps
    its name and place and has the value its function gives (its own value,
    when the table has no function for it); when it raises, it raises what the
    function of the first failing field raises. *)
Theorem coercion_keeps_fields (msg : Message) :
  NoDup (dict_keys msg) →
  match dictcomp fns msg [] with
  | Ok msg' => Forall2 (coerced fns) msg msg'
  | Raise e =>
      ∃ before fld v after,
        msg = before ++ (fld, v) :: after ∧
        Forall (λ item, is_Ok (default Ok (fns item.1) item.2) = true) before ∧
        default Ok (fns fld) v = Raise e
  end.
Proof.
  intros Hnd. pose proof (dictcomp_spec msg [] Hnd) as Hspec.
  destruct (dictcomp fns msg []); [|done].
  by destruct Hspec as (items' & -> & Hitems).
Qed.

(** X7.  A message none of whose fields has a function in the table goes
    through the coercion unchanged. *)
Theorem coercion_of_unknown_fields (msg : Message) :
  NoDup (dict_keys msg) →
  Forall (λ item, fns item.1 = None) msg →
  dictcomp fns msg [] = Ok msg.
Proof.
  intros Hnd Hunknown. pose proof (dictcomp_spec msg [] Hnd) as Hspec.
  destruct (dictcomp fns msg []) as [msg'|e].
  - destruct Hspec as (items' & -> & Hitems). f_equal. simpl.
    clear Hnd. induction Hitems as [|[k v] [k' v'] msg items' [Hk Hv] _ IH];
      [done|].
    apply Forall_cons in Hunknown as [Hkv Hunknown]. simpl in *.
    rewrite Hkv in Hv. simpl in Hv. simplify_eq. f_equal. by apply IH.
  - destruct Hspec as (before & fld & v & after & -> & _ & Hfail).
    apply Forall_app in Hunknown as [_ [Hfld _]%Forall_cons].
    simpl in Hfld. by rewrite Hfld in Hfail.
Qed.
End CoercionExtras.

Lemma coercion_keeps_fields_witness :
  Forall2 (coerced example_import)
    [("mmsi", VInt 2); ("timestamp", VStr "2015-01-01T00:00:00Z")]
    [("mmsi", VInt 2); ("timestamp", VStr "2015-01-01T00:00:00Z")].
Proof.
  apply (coercion_keeps_fields example_import
           [("mmsi", VInt 2); ("timestamp", VStr "2015-01-01T00:00:00Z")]).
  apply (bool_decide_unpack _). vm_compute. exact I.
Defined.

Lemma coercion_of_unknown_fields_witness :
  core.dictcomp example_import [("mmsi", VInt 2); ("lat", VInt 5)] []
  = Ok [("mmsi", VInt 2); ("lat", VInt 5)].
Proof.
  apply (coercion_of_unknown_fields example_import).
  - apply (bool_decide_unpack _). vm_compute. exact I.
  - repeat constructor.
Defined.

(** ** The schema engine *)

Section SchemaExtras.
Import schema.

Lemma dict_get_update {K V} `{EqDecision K} (d other : dict K V) (k : K) :
  NoDup (dict_keys other) →
  dict_get k (dict_update d other)
  = match dict_get k other with Some v => Some v | None => dict_get k d end.
Proof.
  unfold dict_update, dict_keys. revert d.
  induction other as [|[k0 v0] rest IH]; intros d Hnd; [done|].
  apply NoDup_cons in Hnd as [Hk0 Hnd]. simpl. rewrite (IH _ Hnd).
  case_bool_decide as Hk.
  - subst k0. apply (dict_get_None rest k) in Hk0. rewrite Hk0.
    by rewrite dict_get_set_eq.
  - by rewrite dict_get_set_ne.
Qed.

(** X8.  [merge_fields] is last-write-wins: a name has the definition the last
    table that lists it gives it, and no definition when no table lists it. *)
Theorem merge_fields_last_wins (tables : list (dict string FieldDef))
    (fld : string) :
  Forall (λ table, NoDup (dict_keys table)) tables →
  dict_get fld (merge_fields tables) = last_binding fld tables.
Proof.
  unfold merge_fields, last_binding.
  change (@None FieldDef) with (dict_get fld ([] : dict string FieldDef)).
  generalize ([] : dict string FieldDef) as out.
  intros out Htables. revert out.
  induction Htables as [|table tables Hnd _ IH]; intros out; [done|].
  simpl. rewrite IH. by rewrite (dict_get_update _ _ _ Hnd).
Qed.

Lemma merge_table_fresh (fdef out : dict Z (list string)) :
  NoDup (dict_keys (out ++ fdef)) → foldl merge_step out fdef = out ++ fdef.
Proof.
  revert out. induction fdef as [|[mtype fields] rest IH]; intros out Hnd.
  { by rewrite app_nil_r. }
  assert (mtype ∉ dict_keys out) as Hfresh.
  { unfold dict_keys in *. rewrite fmap_app in Hnd.
    apply NoDup_app in Hnd as (_ & Hdisj & _).
    intros Hin. apply (Hdisj mtype Hin). simpl. left. }
  simpl. unfold merge_step at 2. simpl.
  rewrite (proj2 (dict_get_None out mtype) Hfresh). simpl.
  rewrite app_nil_r, (dict_set_fresh _ _ _ Hfresh), IH.
  - by rewrite <- (assoc_L _).
  - by rewrite <- (assoc_L _).
Qed.

Lemma update_fresh (other out : dict string FieldDef) :
  NoDup (dict_keys (out ++ other)) → dict_update out other = out ++ other.
Proof.
  unfold dict_update. revert out.
  induction other as [|[k v] rest IH]; intros out Hnd.
  { by rewrite app_nil_r. }
  assert (k ∉ dict_keys out) as Hfresh.
  { unfold dict_keys in *. rewrite fmap_app in Hnd.
    apply NoDup_app in Hnd as (_ & Hdisj & _).
    intros Hin. apply (Hdisj k Hin). simpl. left. }
  simpl. rewrite (dict_set_fresh _ _ _ Hfresh), IH.
  - by rewrite <- (assoc_L _).
  - by rewrite <- (assoc_L _).
Qed.

(** X9.  With no extension registered, [build_schema] builds the same schema
    with and without [extensions], whatever tables it is given or left to
    take: merging the built-in tables with empty ones gives them back. *)
Theorem extensions_flag_is_idle
    (fields_by_type : option (dict Z (list string)))
    (fields : option (dict string FieldDef)) :
  build_schema [] [] fields_by_type fields true
  = build_schema [] [] fields_by_type fields false.
Proof.
  assert (merge_fields_by_type [_FIELDS_BY_TYPE; []] = _FIELDS_BY_TYPE)
    as Hby_type.
  { change (merge_fields_by_type [_FIELDS_BY_TYPE; []])
      with (foldl merge_step [] _FIELDS_BY_TYPE).
    apply (merge_table_fresh _ []).
    apply (bool_decide_unpack _). vm_compute. exact I. }
  assert (merge_fields [_FIELDS; []] = _FIELDS) as Hfields.
  { change (merge_fields [_FIELDS; []]) with (dict_update [] _FIELDS).
    apply (update_fresh _ []).
    apply (bool_decide_unpack _). vm_compute. exact I. }
  unfold build_schema.
  destruct fields, fields_by_type; f_equal;
    try exact Hfields; try exact Hby_type.
Qed.

Lemma build_definition_sound (fields : dict string FieldDef)
    (mfields : list string) (definition : dict string FieldDef) :
  (∀ k fd, dict_get k definition = Some fd → dict_get k fields = Some fd) →
  match build_definition fields mfields definition with
  | Ok d => ∀ k fd, dict_get k d = Some fd → dict_get k fields = Some fd
  | Raise e => ∃ k, e = KeyError k ∧ dict_get k fields = None
  end.
Proof.
  revert definition. induction mfields as [|fld rest IH];
    intros definition Hdef; [done|].
  cbn [build_definition].
  destruct (dict_get fld fields) as [fdef|] eqn:Hfld; [|by exists fld].
  destruct (dict_get (from_option id fld (sub_name fdef)) fields)
    as [d|] eqn:Hname; [|by eexists].
  apply IH. intros k fd.
  destruct (decide (k = from_option id fld (sub_name fdef))) as [->|Hne].
  - rewrite dict_get_set_eq. by intros [= <-].
  - rewrite dict_get_set_ne by done. apply Hdef.
Qed.

Lemma build_types_sound (fields : dict string FieldDef)
    (items : list (Z * list string)) (out : dict Z (dict string FieldDef)) :
  (∀ mtype d k fd, dict_get mtype out = Some d → dict_get k d = Some fd →
     dict_get k fields = Some fd) →
  match build_types fields items out with
  | Ok out' =>
      ∀ mtype d k fd, dict_get mtype out' = Some d → dict_get k d = Some fd →
        dict_get k fields = Some fd
  | Raise e => ∃ k, e = KeyError k ∧ dict_get k fields = None
  end.
Proof.
  revert out. induction items as [|[mtype mfields] rest IH];
    intros out Hout; [done|].
  cbn [build_types].
  pose proof (build_definition_sound fields mfields []) as Hdef.
  destruct (build_definition fields mfields []) as [definition|e];
    cbn [bind]; [|by apply Hdef].
  apply IH. intros mtype' d k fd.
  destruct (decide (mtype' = mtype)) as [->|Hne].
  - rewrite dict_get_set_eq. intros [= <-]. by apply Hdef.
  - rewrite dict_get_set_ne by done. apply Hout.
Qed.

(** X10.  Every entry of a schema that [build_schema] returns is the
    definition the field table has under the entry's key, and the only way
    [build_schema] fails is the [KeyError] of a name the field table does not
    have. *)
Theorem build_schema_sound (FE : dict string FieldDef)
    (FBTE fields_by_type : dict Z (list string))
    (fields : dict string FieldDef) (extensions : bool) :
  match build_schema FE FBTE (Some fields_by_type) (Some fields) extensions
  with
  | Ok out =>
      ∀ mtype definition name fdef,
        dict_get mtype out = Some definition →
        dict_get name definition = Some fdef →
        dict_get name fields = Some fdef
  | Raise e => ∃ name, e = KeyError name ∧ dict_get name fields = None
  end.
Proof. unfold build_schema. by apply build_types_sound. Qed.
End SchemaExtras.

Section SchemaExtras2.
Import schema.

(** X11.  Merging a table with no other, or with empty ones, gives the table
    back: [merge_fields_by_type] and [merge_fields] keep the keys, their order
    and what they are bound to. *)
Theorem merge_of_one_table (fbt : dict Z (list string))
    (fields : dict string FieldDef) :
  NoDup (dict_keys fbt) →
  NoDup (dict_keys fields) →
  merge_fields_by_type [fbt] = fbt ∧
  merge_fields_by_type [fbt; []] = fbt ∧
  merge_fields_by_type [[]; fbt] = fbt ∧
  merge_fields [fields] = fields ∧
  merge_fields [fields; []] = fields ∧
  merge_fields [[]; fields] = fields.
Proof.
  intros Hfbt Hfields.
  pose proof (merge_table_fresh fbt [] Hfbt) as Hby_type.
  pose proof (update_fresh fields [] Hfields) as Hupdate.
  by repeat split.
Qed.

Lemma build_definition_keeps (fields : dict string FieldDef)
    (mfields : list string) (definition d : dict string FieldDef) :
  build_definition fields mfields definition = Ok d →
  (∀ k, is_Some (dict_get k definition) → is_Some (dict_get k d)) ∧
  ∀ fld, fld ∈ mfields →
    ∃ fdef, dict_get fld fields = Some fdef ∧
            is_Some (dict_get (from_option id fld (sub_name fdef)) d).
Proof.
  revert definition. induction mfields as [|fld rest IH];
    intros definition Hbuild.
  { simpl in Hbuild. simplify_eq. split; [done|]. by intros fld ?%elem_of_nil. }
  cbn [build_definition] in Hbuild.
  destruct (dict_get fld fields) as [fdef|] eqn:Hfld; [|done].
  destruct (dict_get (from_option id fld (sub_name fdef)) fields)
    as [target|] eqn:Hname; [|done].
  destruct (IH _ Hbuild) as [Hkeeps Hrest].
  assert (∀ k, is_Some (dict_get k
                 (dict_set (from_option id fld (sub_name fdef)) target
                           definition)) → is_Some (dict_get k d)) as Hkeeps'
    by done.
  split.
  - intros k Hk. apply Hkeeps.
    destruct (decide (k = from_option id fld (sub_name fdef))) as [->|Hne].
    + by rewrite dict_get_set_eq.
    + by rewrite dict_get_set_ne.
  - intros fld' [->|Hin]%elem_of_cons; [|by apply Hrest].
    exists fdef. split; [done|]. apply Hkeeps. by rewrite dict_get_set_eq.
Qed.

Lemma build_types_keeps (fields : dict string FieldDef)
    (items : list (Z * list string))
    (out out' : dict Z (dict string FieldDef)) (mtype : Z) :
  build_types fields items out = Ok out' →
  mtype ∉ dict_keys items →
  dict_get mtype out' = dict_get mtype out.
Proof.
  revert out. induction items as [|[mtype' mfields] rest IH];
    intros out Hbuild Hfresh.
  { simpl in Hbuild. by simplify_eq. }
  cbn [build_types] in Hbuild. unfold dict_keys in Hfresh. simpl in Hfresh.
  apply not_elem_of_cons in Hfresh as [Hne Hfresh].
  destruct (build_definition fields mfields []) as [definition|]; [|done].
  cbn [bind] in Hbuild. rewrite (IH _ Hbuild Hfresh).
  by rewrite dict_get_set_ne.
Qed.

(** X12.  A schema that [build_schema] returns has every message type of the
    type table, and under each type every field the table lists for it, under
    the field's own name or, when its definition has [sub_name], under that
    name. *)
Theorem build_schema_complete (FE : dict string FieldDef)
    (FBTE fields_by_type : dict Z (list string))
    (fields : dict string FieldDef) (extensions : bool)
    (out : dict Z (dict string FieldDef)) (mtype : Z)
    (mfields : list string) :
  NoDup (dict_keys fields_by_type) →
  build_schema FE FBTE (Some fields_by_type) (Some fields) extensions
  = Ok out →
  dict_get mtype fields_by_type = Some mfields →
  ∃ definition,
    dict_get mtype out = Some definition ∧
    ∀ fld, fld ∈ mfields →
      ∃ fdef, dict_get fld fields = Some fdef ∧
              is_Some (dict_get (from_option id fld (sub_name fdef))
                                definition).
Proof.
  unfold build_schema.
  generalize ([] : dict Z (dict string FieldDef)) as acc.
  induction fields_by_type as [|[mtype' mfields'] rest IH];
    intros acc Hnd Hbuild Hlookup; [done|].
  unfold dict_keys in Hnd. simpl in Hnd.
  apply NoDup_cons in Hnd as [Hfresh Hnd].
  cbn [build_types] in Hbuild.
  destruct (build_definition fields mfields' []) as [definition|] eqn:Hdef;
    [|done].
  cbn [bind] in Hbuild. simpl in Hlookup.
  case_bool_decide as Hmtype.
  - subst mtype'. simplify_eq. exists definition. split.
    + rewrite (build_types_keeps _ _ _ _ mtype Hbuild Hfresh).
      by rewrite dict_get_set_eq.
    + by apply (build_definition_keeps _ _ _ _ Hdef).
  - by apply (IH _ Hnd Hbuild).
Qed.

(** X13.  An entry point that fails with an [Exception] is passed over: the
    registries come out as if only the entry points that load were there,
    merged in their order. This holds for the field extensions and for the
    fields-by-type extensions. *)
Theorem failing_extensions_are_skipped
    (field_eps : list (result (dict string FieldDef)))
    (by_type_eps : list (result (dict Z (list string))))
    (FE : dict string FieldDef) (FBTE : dict Z (list string)) :
  Forall (λ ep, ∀ e, ep = Raise e → is_Exception e = true) field_eps →
  Forall (λ ep, ∀ e, ep = Raise e → is_Exception e = true) by_type_eps →
  load_field_extensions field_eps FE
  = Ok (foldl (λ registry table, merge_fields [registry; table]) FE
              (loaded field_eps)) ∧
  load_fields_by_type_extensions by_type_eps FBTE
  = Ok (foldl (λ registry table, merge_fields_by_type [registry; table]) FBTE
              (loaded by_type_eps)).
Proof.
  intros Hfields Hby_type. split.
  - revert FE. induction Hfields as [|[table|e] eps Hep _ IH]; intros FE;
      [done|apply IH|].
    cbn [load_field_extensions]. rewrite (Hep e eq_refl). apply IH.
  - revert FBTE. induction Hby_type as [|[table|e] eps Hep _ IH]; intros FBTE;
      [done|apply IH|].
    cbn [load_fields_by_type_extensions]. rewrite (Hep e eq_refl). apply IH.
Qed.
End SchemaExtras2.

Lemma merge_fields_last_wins_witness :
  schema.units
  <$> dict_get "speed"
        (schema.merge_fields
           [schema._FIELDS;
            [("speed", schema.mkFieldDef schema.Float (Some "m/s") "" None
                         None None)]])
  = Some (Some "m/s").
Proof.
  rewrite (merge_fields_last_wins
             [schema._FIELDS;
              [("speed", schema.mkFieldDef schema.Float (Some "m/s") "" None
                           None None)]] "speed").
  - reflexivity.
  - repeat apply Forall_cons_2; [..|apply Forall_nil_2];
      apply (bool_decide_unpack _); vm_compute; exact I.
Defined.

Lemma merge_of_one_table_witness :
  schema.merge_fields_by_type [schema._FIELDS_BY_TYPE; []]
  = schema._FIELDS_BY_TYPE.
Proof.
  destruct (merge_of_one_table schema._FIELDS_BY_TYPE schema._FIELDS)
    as (_ & Hmerge & _);
    [apply (bool_decide_unpack _); vm_compute; exact I..|exact Hmerge].
Defined.

Lemma build_schema_complete_witness :
  ∃ definition,
    dict_get 9 (match schema.build_schema [] [] (Some schema._FIELDS_BY_TYPE)
                        (Some schema._FIELDS) false
                with Ok out => out | Raise _ => [] end) = Some definition ∧
    is_Some (dict_get "alt" definition).
Proof.
  destruct (schema.build_schema [] [] (Some schema._FIELDS_BY_TYPE)
              (Some schema._FIELDS) false) as [out|e] eqn:Hbuild;
    [|vm_compute in Hbuild; discriminate].
  destruct (build_schema_complete [] [] schema._FIELDS_BY_TYPE schema._FIELDS
              false out 9 _
              ltac:(apply (bool_decide_unpack _); vm_compute; exact I)
              Hbuild eq_refl) as (definition & Hdef & Hfields).
  exists definition. split; [done|].
  destruct (Hfields "alt") as (fdef & Hfdef & Halt).
  - vm_compute. do 1 right. left.
  - vm_compute in Hfdef. injection Hfdef as <-. exact Halt.
Defined.

Lemma failing_extensions_are_skipped_witness :
  schema.load_fields_by_type_extensions
    [Ok [(1, ["draught"])]; Raise (OtherException "ImportError" "no module");
     Ok [(1, ["imo"])]] []
  = Ok [(1, ["imo"; "draught"])].
Proof.
  destruct (failing_extensions_are_skipped []
              [Ok [(1, ["draught"])];
               Raise (OtherException "ImportError" "no module");
               Ok [(1, ["imo"])]] [] []) as [_ Hby_type].
  - apply Forall_nil_2.
  - repeat apply Forall_cons_2; [..|apply Forall_nil_2];
      intros e He; by simplify_eq.
  - rewrite Hby_type. reflexivity.
Defined.

Section SchemaExtras3.
Import schema.

Lemma merge_tables_lookup (tables : list (dict Z (list string)))
    (out : dict Z (list string)) (mtype : Z) :
  Forall (λ table, NoDup (dict_keys table)) tables →
  from_option id []
    (dict_get mtype (foldl (λ out fdef, foldl merge_step out fdef) out tables))
  = concat (reverse (omap (dict_get mtype) tables))
    ++ from_option id [] (dict_get mtype out) ∧
  (is_Some (dict_get mtype
              (foldl (λ out fdef, foldl merge_step out fdef) out tables))
   ↔ is_Some (dict_get mtype out)
     ∨ Exists (λ table, is_Some (dict_get mtype table)) tables).
Proof.
  intros Htables. revert out.
  induction Htables as [|table tables Hnd _ IH]; intros out.
  { split; [done|]. rewrite Exists_nil. tauto. }
  cbn [foldl omap list_omap].
  destruct (IH (foldl merge_step out table)) as [Hnames Hsome].
  rewrite Hnames, Hsome, Exists_cons, (merge_table_lookup _ _ _ Hnd).
  destruct (dict_get mtype table) as [f|]; simpl.
  - split.
    + rewrite reverse_cons, concat_app, <- (assoc_L _). simpl.
      by rewrite app_nil_r.
    + split; [intros _; right; left; by eexists|intros _; left; by eexists].
  - split; [done|]. split.
    + intros [?|?]; [by left|by right; right].
    + intros [?|[[? [=]]|?]]; [by left|by right].
Qed.

(** X14.  [merge_fields_by_type], for any number of tables: a message type is
    in the merged table when one of the tables lists it, and its names are
    then the names the tables list for it, those of the later tables in front,
    with nothing left out and nothing collapsed. *)
Theorem merge_fields_by_type_lists_all (tables : list (dict Z (list string)))
    (mtype : Z) :
  Forall (λ table, NoDup (dict_keys table)) tables →
  (is_Some (dict_get mtype (merge_fields_by_type tables))
   ↔ Exists (λ table, is_Some (dict_get mtype table)) tables) ∧
  from_option id [] (dict_get mtype (merge_fields_by_type tables))
  = concat (reverse (omap (dict_get mtype) tables)).
Proof.
  intros Htables.
  destruct (merge_tables_lookup tables [] mtype Htables) as [Hnames Hsome].
  unfold merge_fields_by_type. split.
  - rewrite Hsome. split; [intros [[? [=]]|?]; done|by right].
  - rewrite Hnames. simpl. by rewrite app_nil_r.
Qed.

(** X15.  The built-in tables agree with each other: every name the type table
    lists has a definition in the field table, so [build_schema], left to take
    the built-in tables with no extension registered, raises nothing. The
    schema it returns has the message types of the type table, in its order,
    and under each type the names listed for it, in their order. *)
Theorem builtin_schema_builds (extensions : bool) :
  ∃ out,
    build_schema [] [] None None extensions = Ok out ∧
    (λ entry, (entry.1, dict_keys entry.2)) <$> out = _FIELDS_BY_TYPE.
Proof.
  destruct extensions; eexists; (split; [vm_compute; reflexivity|]);
    vm_compute; reflexivity.
Qed.
End SchemaExtras3.

Lemma merge_fields_by_type_lists_all_witness :
  from_option id []
    (dict_get 1 (schema.merge_fields_by_type
                   [[(1, ["mmsi"; "lat"])]; [(2, ["mmsi"])]; [(1, ["lon"])]]))
  = ["lon"; "mmsi"; "lat"].
Proof.
  destruct (merge_fields_by_type_lists_all
              [[(1, ["mmsi"; "lat"])]; [(2, ["mmsi"])]; [(1, ["lon"])]] 1)
    as [_ Hnames].
  - repeat apply Forall_cons_2; [..|apply Forall_nil_2];
      apply (bool_decide_unpack _); vm_compute; exact I.
  - rewrite Hnames. reflexivity.
Defined.
(** ** The factory *)

Section OpenExtras.
Import core.
Context {Handle C : Type}.
Variable detect_compression_type :
  string → result (@CompressionDriver Handle).
Variable detect_file_type : option string → result (@IODriver Handle C).
Variable registered_compression : dict string (@CompressionDriver Handle).
Variable registered_drivers : dict string (@IODriver Handle C).
Variable stdin stdout : Handle.
Variable name_of : Handle → option string.

Abbreviation open'' :=
  (open detect_compression_type detect_file_type registered_compression
        registered_drivers stdin stdout name_of).

(** X16.  A driver name that is not registered makes [open] raise the
    [KeyError] of that name, whatever the target is and before anything is
    detected or opened.  A compression name that is not registered does
    the same once the container driver is found, by its name or by
    detection from the target's name. *)
Theorem open_unknown_names (path : Target) (mode : string)
    (dmode cmode compression driver : option string)
    (do co : option Options) (kwargs : StreamKwargs) :
  (∀ d, given driver = Some d →
        dict_get d registered_drivers = None →
        open'' path mode dmode cmode compression driver do co kwargs
        = Raise (KeyError d)) ∧
  (∀ c io, given compression = Some c →
           dict_get c registered_compression = None →
           (∃ d, given driver = Some d ∧
                 dict_get d registered_drivers = Some io) ∨
           (given driver = None ∧
            detect_file_type
              (match standard_stream stdin stdout path mode with
               | Path p => Some p
               | FileObj f => name_of f
               end) = Ok io) →
           open'' path mode dmode cmode compression driver do co kwargs
           = Raise (KeyError c)).
Proof.
  split.
  - intros d Hd Hnone. unfold open, subscript. rewrite Hd, Hnone.
    by destruct (standard_stream stdin stdout path mode).
  - intros c io Hc Hnone [(d & Hd & Hio)|[Hd Hio]]; unfold open, subscript;
      rewrite Hd, Hc, Hnone.
    + rewrite Hio. by destruct (standard_stream stdin stdout path mode).
    + destruct (standard_stream stdin stdout path mode); by rewrite Hio.
Qed.

(** X17.  The path ['-'] stands for the standard streams: with an ['r'] in the
    mode, [open] does what it does for [sys.stdin]; without one and with a
    ['w'] or an ['a'], what it does for [sys.stdout]; the other arguments are
    used alike. *)
Theorem open_dash (mode : string)
    (dmode cmode compression driver : option string)
    (do co : option Options) (kwargs : StreamKwargs) :
  (str_in "r" mode = true →
   open'' (Path "-") mode dmode cmode compression driver do co kwargs
   = open'' (FileObj stdin) mode dmode cmode compression driver do co kwargs) ∧
  (str_in "r" mode = false →
   str_in "w" mode || str_in "a" mode = true →
   open'' (Path "-") mode dmode cmode compression driver do co kwargs
   = open'' (FileObj stdout) mode dmode cmode compression driver do co kwargs).
Proof.
  split.
  - intros Hr. unfold open, standard_stream. simpl. by rewrite Hr.
  - intros Hr Hwa. unfold open, standard_stream. simpl. by rewrite Hr, Hwa.
Qed.

(** X18.  When no driver name is given and the container format cannot be
    detected from the target's name, [open] raises what the detection raises:
    nothing is opened, compressed or not. *)
Theorem open_undetected_container (path : Target) (mode : string)
    (dmode cmode compression driver : option string)
    (do co : option Options) (kwargs : StreamKwargs) (e : exn) :
  given driver = None →
  detect_file_type
    (match standard_stream stdin stdout path mode with
     | Path p => Some p
     | FileObj f => name_of f
     end) = Raise e →
  open'' path mode dmode cmode compression driver do co kwargs = Raise e.
Proof.
  intros Hdriver Hdetect. unfold open. rewrite Hdriver.
  destruct (standard_stream stdin stdout path mode); by rewrite Hdetect.
Qed.
End OpenExtras.

(** X19.  With a driver name and a compression name given, [open] consults
    neither detection function: it gives the same stream, or raises the same
    exception, whatever the two functions are. *)
Theorem open_explicit_names_detect_nothing {Handle C : Type}
    (detect_compression detect_compression' :
       string → result (@core.CompressionDriver Handle))
    (detect_file detect_file' :
       option string → result (@core.IODriver Handle C))
    (registered_compression : dict string (@core.CompressionDriver Handle))
    (registered_drivers : dict string (@core.IODriver Handle C))
    (stdin stdout : Handle) (name_of : Handle → option string)
    (path : core.Target) (mode : string)
    (dmode cmode compression driver : option string)
    (do co : option core.Options) (kwargs : core.StreamKwargs) :
  is_Some (core.given driver) →
  is_Some (core.given compression) →
  core.open detect_compression detect_file registered_compression
    registered_drivers stdin stdout name_of
    path mode dmode cmode compression driver do co kwargs
  = core.open detect_compression' detect_file' registered_compression
      registered_drivers stdin stdout name_of
      path mode dmode cmode compression driver do co kwargs.
Proof.
  intros [d Hd] [c Hc]. unfold core.open. rewrite Hd, Hc.
  by destruct (core.standard_stream stdin stdout path mode).
Qed.

Lemma open_unknown_names_witness :
  drivers.open (core.Path "types.json") "r" None None None (Some "Shapefile")
               None None (core.mkKwargs None None)
  = Raise (KeyError "Shapefile") ∧
  drivers.open (core.Path "types.json") "r" None None (Some "LZMA") None
               None None (core.mkKwargs None None)
  = Raise (KeyError "LZMA") ∧
  drivers.open (core.FileObj "types.msg") "r" None None (Some "LZMA")
               (Some "NewlineJSON") None None (core.mkKwargs None None)
  = Raise (KeyError "LZMA").
Proof.
  split; [|split].
  - destruct (open_unknown_names
                drivers.detect_compression_type drivers.detect_file_type
                drivers.registered_compression drivers.registered_drivers
                "<stdin>" "<stdout>" (λ f : drivers.Handle, Some f)
                (core.Path "types.json") "r" None None None (Some "Shapefile")
                None None (core.mkKwargs None None)) as [Hdriver _].
    apply (Hdriver "Shapefile"); reflexivity.
  - destruct (open_unknown_names
                drivers.detect_compression_type drivers.detect_file_type
                drivers.registered_compression drivers.registered_drivers
                "<stdin>" "<stdout>" (λ f : drivers.Handle, Some f)
                (core.Path "types.json") "r" None None (Some "LZMA") None
                None None (core.mkKwargs None None)) as [_ Hcompression].
    apply (Hcompression "LZMA" drivers.NewlineJSON); [reflexivity..|].
    right. split; reflexivity.
  - destruct (open_unknown_names
                drivers.detect_compression_type drivers.detect_file_type
                drivers.registered_compression drivers.registered_drivers
                "<stdin>" "<stdout>" (λ f : drivers.Handle, Some f)
                (core.FileObj "types.msg") "r" None None (Some "LZMA")
                (Some "NewlineJSON") None None (core.mkKwargs None None))
      as [_ Hcompression].
    apply (Hcompression "LZMA" drivers.NewlineJSON); [reflexivity..|].
    left. exists "NewlineJSON". split; reflexivity.
Defined.

Lemma open_dash_witness :
  drivers.open (core.Path "-") "r" None None None (Some "NewlineJSON")
               None None (core.mkKwargs None None)
  = Ok (core.mkStream ("NewlineJSON", core.FileObj "<stdin>") "r" true false).
Proof.
  destruct (open_dash
              drivers.detect_compression_type drivers.detect_file_type
              drivers.registered_compression drivers.registered_drivers
              "<stdin>" "<stdout>" (λ f : drivers.Handle, Some f)
              "r" None None None (Some "NewlineJSON")
              None None (core.mkKwargs None None)) as [Hstdin _].
  unfold drivers.open. rewrite Hstdin; reflexivity.
Defined.

Lemma open_undetected_container_witness :
  drivers.open (core.Path "types.csv") "r" None None None None
               None None (core.mkKwargs None None)
  = Raise (ValueError "Can't determine driver from path: types.csv").
Proof.
  apply (open_undetected_container
           drivers.detect_compression_type drivers.detect_file_type
           drivers.registered_compression drivers.registered_drivers
           "<stdin>" "<stdout>" (λ f : drivers.Handle, Some f));
    reflexivity.
Defined.

Lemma open_explicit_names_detect_nothing_witness :
  drivers.open (core.Path "types.unknown") "r" None None (Some "GZIP")
               (Some "MsgPack") None None (core.mkKwargs None None)
  = Ok (core.mkStream ("MsgPack", core.FileObj "gzip(types.unknown)")
                      "r" true false).
Proof.
  unfold drivers.open.
  rewrite (open_explicit_names_detect_nothing
             drivers.detect_compression_type
             (λ _, Raise (ValueError "no detection"))
             drivers.detect_file_type
             (λ _, Raise (ValueError "no detection")))
    by (by eexists).
  reflexivity.
Defined.

(** ** [filter] *)

Section FilterExtras.
Import core.

(** X20.  With no expression at all, [filter] yields the stream as it is. *)
Theorem filter_no_expressions (stream : list Message) :
  core.filter (Several []) stream = mkGenerated stream None.
Proof.
  rewrite filter_eq. induction stream as [|msg rest IH]; [done|].
  cbn [filter_loop passes]. by rewrite IH.
Qed.

Lemma filter_loop_outcome globals exprs (stream : list Message) :
  match raised (filter_loop globals exprs stream) with
  | None =>
      yielded (filter_loop globals exprs stream)
      = List.filter (passes_all globals exprs) stream
  | Some e =>
      ∃ before msg after,
        stream = before ++ msg :: after ∧
        Forall (λ m, is_Ok (passes globals (local_scope m) exprs) = true)
               before ∧
        passes globals (local_scope msg) exprs = Raise e ∧
        yielded (filter_loop globals exprs stream)
        = List.filter (passes_all globals exprs) before
  end.
Proof.
  induction stream as [|msg rest IH]; [done|].
  cbn [filter_loop].
  destruct (passes globals (local_scope msg) exprs) as [[]|e] eqn:Hmsg;
    cbn [raised yielded gen_yield].
  - assert (passes_all globals exprs msg = true) as Hall
      by (unfold passes_all; by rewrite Hmsg).
    destruct (raised (filter_loop globals exprs rest)) as [e|].
    + destruct IH as (before & m & after & -> & Hbefore & Hm & Hyield).
      exists (msg :: before), m, after. split; [done|].
      split; [constructor; [by rewrite Hmsg|done]|]. split; [done|].
      cbn [List.filter]. by rewrite Hall, Hyield.
    + cbn [List.filter]. by rewrite Hall, IH.
  - assert (passes_all globals exprs msg = false) as Hall
      by (unfold passes_all; by rewrite Hmsg).
    destruct (raised (filter_loop globals exprs rest)) as [e|].
    + destruct IH as (before & m & after & -> & Hbefore & Hm & Hyield).
      exists (msg :: before), m, after. split; [done|].
      split; [constructor; [by rewrite Hmsg|done]|]. split; [done|].
      cbn [List.filter]. by rewrite Hall, Hyield.
    + cbn [List.filter]. by rewrite Hall, IH.
  - by exists [], msg, rest.
Qed.


Lemma dict_get_without (excluded : list string) (d : dict string Value)
    (k : string) :
  dict_get k (without excluded d)
  = if decide (k ∈ excluded) then None else dict_get k d.
Proof.
  unfold without, dict in *. induction d as [|[k' v] d IH].
  { by case_decide. }
  change (base.filter (λ kv : string * Value, kv.1 ∉ excluded) ((k', v) :: d))
    with (if decide (k' ∉ excluded)
          then (k', v) :: base.filter (λ kv : string * Value, kv.1 ∉ excluded) d
          else base.filter (λ kv : string * Value, kv.1 ∉ excluded) d).
  destruct (decide (k' ∉ excluded)) as [Hk'|Hk']; cbn [dict_get]; rewrite IH.
  - case_bool_decide as Hk; [|done]. subst k'. by rewrite decide_False.
  - case_bool_decide as Hk; [|done]. subst k'.
    apply dec_stable in Hk'. by case_decide.
Qed.

(** X23.  The names on the blacklist of [filter], but for [builtins] and
    [__builtins__], are unbound in the scope the expressions are evaluated in,
    whatever built-ins there are: unless the module or the message binds the
    name, looking it up raises [NameError]. *)
Theorem blacklisted_names_are_unbound
    (globals scope locals : dict string Value) (name : string) :
  global_scope globals = Ok scope →
  name ∈ scope_blacklist →
  name ≠ "builtins" → name ≠ "__builtins__" →
  dict_get name globals = None →
  dict_get name locals = None →
  lookup_name scope locals name
  = Raise (NameError ("name '" +:+ name +:+ "' is not defined")).
Proof.
  intros Hscope Hname Hne1 Hne2 Hglobal Hlocal. unfold global_scope in Hscope.
  destruct (dict_get "__builtins__" globals) as [[| | | | | |builtins|]|];
    try done.
  injection Hscope as <-. unfold lookup_name. rewrite Hlocal.
  rewrite !dict_get_set_ne by done. rewrite dict_get_without.
  rewrite decide_False
    by (intros [?|[?|?%elem_of_nil]%elem_of_cons]%elem_of_cons; done).
  rewrite Hglobal.
  rewrite dict_get_set_eq, dict_get_without.
  by rewrite decide_True.
Qed.

Lemma blacklisted_names_are_unbound_witness :
  lookup_name eval_scope (local_scope report_a) "eval"
  = Raise (NameError "name 'eval' is not defined").
Proof.
  apply (blacklisted_names_are_unbound module_globals).
  - exact global_scope_eval_scope.
  - apply (bool_decide_unpack _). vm_compute. exact I.
  - done.
  - done.
  - vm_compute. reflexivity.
  - vm_compute. reflexivity.
Defined.
End FilterExtras.

(** ** [sort] *)

Section SortExtras.
Import core.

#[local] Instance any_order_trans : Transitive any_order.
Proof. done. Qed.

Lemma any_order_agrees (bag : list Value) : agrees any_order bag.
Proof. intros x y [] _ _; done. Qed.

Lemma entries_with_field field stream :
  entries field (List.filter (λ msg, dict_contains field msg) stream)
  = entries field stream.
Proof.
  induction stream as [|msg rest IH]; [done|].
  unfold entries, dict_contains in *. cbn [List.filter].
  destruct (dict_get field msg) as [v|] eqn:Hv; cbn [omap list_omap].
  - rewrite Hv. simpl. by f_equal.
  - rewrite Hv. done.
Qed.

(** X24.  [sort] does not look at the messages that lack the field: with or
    without them in the stream it yields the same messages and raises the same
    exception. *)
Theorem sort_drops_fieldless field stream :
  sort stream field
  = sort (List.filter (λ msg, dict_contains field msg) stream) field.
Proof. by rewrite !sort_eq, entries_with_field. Qed.

(** X25.  Whatever the values of the field are, [sort] either runs to its end
    and yields the messages that have the field, each as many times as it is
    in the stream and nothing else, or raises what [<] raises on two of the
    tuples put on the queue. *)
Theorem sort_keeps_the_messages field stream :
  match raised (sort stream field) with
  | None =>
      yielded (sort stream field)
      ≡ₚ List.filter (λ msg, dict_contains field msg) stream
  | Some e => fails_in (entries field stream) e
  end.
Proof.
  pose proof (any_order_agrees (entries field stream)) as Hagrees.
  rewrite sort_eq.
  pose proof (put_all_spec any_order _ Hagrees (entries field stream) [])
    as Hput.
  destruct (put_all (entries field stream) []) as [queue|e];
    cbn [or_fails raised] in *; cycle 1.
  { apply Hput; [|done]. intros i x p _ Hx. by rewrite lookup_nil in Hx. }
  destruct Hput as [Hperm Hord];
    [intros i x p _ Hx; by rewrite lookup_nil in Hx|done|].
  simpl in Hperm.
  pose proof (drain_spec any_order _ Hagrees (entries_carry field stream)
                (length queue) queue) as Hdrain.
  destruct (raised (drain (length queue) queue)) as [e|].
  - apply Hdrain; [done|done|by rewrite Hperm].
  - destruct Hdrain as (sorted & Hsorted & _ & Hout & _);
      [done|done|by rewrite Hperm|].
    rewrite (Forall2_carried _ _ Hout), Hsorted, Hperm.
    by rewrite carried_entries.
Qed.
End SortExtras.

Lemma sort_ascending_witness :
  ∃ out,
    core.sort [report_c; report_a] "timestamp" = core.mkGenerated out None ∧
    out ≡ₚ List.filter (λ msg, dict_contains "timestamp" msg)
             [report_c; report_a] ∧
    StronglySorted (ascending "timestamp") out.
Proof.
  apply sort_ascending.
  - intros msg v Hmsg Hv.
    apply elem_of_cons in Hmsg as [->|Hmsg%list_elem_of_singleton];
      [|subst msg]; vm_compute in Hv; simplify_eq; by eexists.
  - intros m1 m2 v1 v2 [[-> ->]|[-> ->]]%pair_in_two H1 H2;
      vm_compute in H1, H2; by simplify_eq.
Defined.
